(** * Custodial keyring of the institutional wallet snap

    A shallow embedding of the custodial signing orchestrator
    ([CustodialKeyring], keyring.ts) and of the token life cycle of the two
    protocol clients ([ECA1Client], [ECA3Client]), with the properties the
    specification states about them.

    Conventions.
    - A JavaScript string is a [string] of bytes (its UTF-8 encoding).
    - A call that may throw returns a [Result]; the error carries the
      message of the JavaScript [Error].
    - Effects on collaborators (network, user interface, the snap keyring
      event channel) are recorded in logs that are part of the state, and
      the answers of the outside world are read from an environment. *)

From Stdlib Require Import ZArith String Ascii List Bool Lia.
From stdpp Require Import gmap strings list pretty.

Import ListNotations.
Local Open Scope string_scope.

(** ** Bytes and hexadecimal text *)

Module Bytes.

Definition of_string (s : string) : list Z :=
  map (fun c => Z.of_N (N_of_ascii c)) (list_ascii_of_string s).

Definition hexDigit (n : Z) : ascii :=
  nth (Z.to_nat n)
    (list_ascii_of_string "0123456789abcdef") "0"%char.

Definition hexByte (b : Z) : list ascii :=
  [hexDigit (Z.shiftr b 4); hexDigit (Z.land b 15)].

(** [bytesToHex] without prefix: two lower-case digits per byte. *)
Definition to_hex (bs : list Z) : string :=
  string_of_list_ascii (flat_map hexByte bs).

(** Big-endian and little-endian words. *)
Definition be_word (bs : list Z) : Z :=
  fold_left (fun acc b => Z.lor (Z.shiftl acc 8) b) bs 0%Z.

Definition le_word (bs : list Z) : Z :=
  fold_right (fun b acc => Z.lor (Z.shiftl acc 8) b) 0%Z bs.

Definition be_bytes (n : nat) (w : Z) : list Z :=
  map (fun i => Z.land (Z.shiftr w (8 * Z.of_nat (n - 1 - i))) 255) (seq 0 n).

Definition le_bytes (n : nat) (w : Z) : list Z :=
  map (fun i => Z.land (Z.shiftr w (8 * Z.of_nat i)) 255) (seq 0 n).

(** Cut a list in consecutive chunks of [n] elements ([fuel] bounds the
    number of chunks). *)
Fixpoint chunks {A} (fuel n : nat) (l : list A) : list (list A) :=
  match fuel with
  | O => []
  | S fuel' =>
      match l with
      | [] => []
      | _ => firstn n l :: chunks fuel' n (skipn n l)
      end
  end.

End Bytes.

(** ** SHA-256 (Node's [crypto.createHash('sha256')]), FIPS 180-4 *)

Module Sha256.
Local Open Scope Z_scope.

Definition mask32 : Z := 0xffffffff.
Definition add32 (a b : Z) : Z := Z.land (a + b) mask32.
Definition rotr (n x : Z) : Z :=
  Z.land (Z.lor (Z.shiftr x n) (Z.shiftl x (32 - n))) mask32.
Definition shr (n x : Z) : Z := Z.shiftr x n.
Definition not32 (x : Z) : Z := Z.lxor x mask32.

Definition Ch (x y z : Z) : Z := Z.lxor (Z.land x y) (Z.land (not32 x) z).
Definition Maj (x y z : Z) : Z :=
  Z.lxor (Z.lxor (Z.land x y) (Z.land x z)) (Z.land y z).
Definition bigSigma0 (x : Z) : Z :=
  Z.lxor (Z.lxor (rotr 2 x) (rotr 13 x)) (rotr 22 x).
Definition bigSigma1 (x : Z) : Z :=
  Z.lxor (Z.lxor (rotr 6 x) (rotr 11 x)) (rotr 25 x).
Definition smallSigma0 (x : Z) : Z :=
  Z.lxor (Z.lxor (rotr 7 x) (rotr 18 x)) (shr 3 x).
Definition smallSigma1 (x : Z) : Z :=
  Z.lxor (Z.lxor (rotr 17 x) (rotr 19 x)) (shr 10 x).

(** The prime numbers below [bound], in increasing order. *)
Definition isPrime (n : nat) : bool :=
  (2 <=? n)%nat
  && forallb (fun d => negb (n mod d =? 0)%nat) (seq 2 (n - 2)).

Definition primesBelow (bound : nat) : list Z :=
  map Z.of_nat (List.filter isPrime (seq 0 bound)).

(** The largest [r + x] with [x < 2 ^ (bits + 1)] and [(r + x) ^ 3 <= n]. *)
Fixpoint cubeRootFrom (bits : nat) (n r : Z) : Z :=
  let candidate := r + 2 ^ Z.of_nat bits in
  let r' := if candidate * candidate * candidate <=? n then candidate else r in
  match bits with
  | O => r'
  | S bits' => cubeRootFrom bits' n r'
  end.

(** The first 32 bits of the fractional part of a root: of the cube root
    for the round constants, of the square root for the initial hash. *)
Definition fractionOfCubeRoot (p : Z) : Z :=
  Z.land (cubeRootFrom 40 (p * 2 ^ 96) 0) mask32.

Definition fractionOfSquareRoot (p : Z) : Z :=
  Z.land (Z.sqrt (p * 2 ^ 64)) mask32.

(** The round constants: from the first 64 primes (all below 312). *)
Definition K : list Z := map fractionOfCubeRoot (primesBelow 312).

(** The initial hash value: from the first 8 primes (all below 20). *)
Definition H0 : list Z := map fractionOfSquareRoot (primesBelow 20).

(** Padding: a one bit, zeros up to 56 modulo 64, the bit length on 8
    bytes, big-endian. *)
Definition pad (msg : list Z) : list Z :=
  let len := Z.of_nat (length msg) in
  let zeros := Z.to_nat ((55 - len) mod 64) in
  msg ++ [0x80] ++ repeat 0 zeros ++ Bytes.be_bytes 8 (8 * len).

(** Message schedule: the 16 words of the block, then 48 derived ones.
    The list is kept newest first. *)
Fixpoint extend (n : nat) (rev_w : list Z) : list Z :=
  match n with
  | O => rev_w
  | S n' =>
      let w2 := nth 1 rev_w 0 in
      let w7 := nth 6 rev_w 0 in
      let w15 := nth 14 rev_w 0 in
      let w16 := nth 15 rev_w 0 in
      extend n'
        (add32 (add32 (smallSigma1 w2) w7) (add32 (smallSigma0 w15) w16)
           :: rev_w)
  end.

Definition schedule (block : list Z) : list Z :=
  rev (extend 48 (rev (map Bytes.be_word (Bytes.chunks 16 4 block)))).

Record regs := Regs { ra : Z; rb : Z; rc : Z; rd : Z;
                      re : Z; rf : Z; rg : Z; rh : Z }.

Definition round (r : regs) (kw : Z * Z) : regs :=
  let t1 :=
    add32 (add32 (add32 (rh r) (bigSigma1 (re r)))
             (add32 (Ch (re r) (rf r) (rg r)) (fst kw))) (snd kw) in
  let t2 := add32 (bigSigma0 (ra r)) (Maj (ra r) (rb r) (rc r)) in
  Regs (add32 t1 t2) (ra r) (rb r) (rc r) (add32 (rd r) t1) (re r) (rf r) (rg r).

Definition of_list (h : list Z) : regs :=
  Regs (nth 0 h 0) (nth 1 h 0) (nth 2 h 0) (nth 3 h 0)
       (nth 4 h 0) (nth 5 h 0) (nth 6 h 0) (nth 7 h 0).

Definition to_list (r : regs) : list Z :=
  [ra r; rb r; rc r; rd r; re r; rf r; rg r; rh r].

Definition compress (h : list Z) (block : list Z) : list Z :=
  let r := fold_left round (combine K (schedule block)) (of_list h) in
  map (fun p => add32 (fst p) (snd p)) (combine h (to_list r)).

Definition digest (msg : list Z) : list Z :=
  let padded := pad msg in
  let blocks := Bytes.chunks (length padded) 64 padded in
  flat_map (Bytes.be_bytes 4) (fold_left compress blocks H0).

(** [createHash('sha256').update(s).digest('hex')]. *)
Definition sha256_hex (s : string) : string :=
  Bytes.to_hex (digest (Bytes.of_string s)).

End Sha256.

(** ** Keccak-256 (the hash of Ethereum address checksums) *)

Module Keccak.
Local Open Scope Z_scope.

Definition mask64 : Z := 0xffffffffffffffff.
Definition rotl (n x : Z) : Z :=
  Z.land (Z.lor (Z.shiftl x n) (Z.shiftr x (64 - n))) mask64.

Definition RC : list Z :=
  [ 0x0000000000000001; 0x0000000000008082; 0x800000000000808a;
    0x8000000080008000; 0x000000000000808b; 0x0000000080000001;
    0x8000000080008081; 0x8000000000008009; 0x000000000000008a;
    0x0000000000000088; 0x0000000080008009; 0x000000008000000a;
    0x000000008000808b; 0x800000000000008b; 0x8000000000008089;
    0x8000000000008003; 0x8000000000008002; 0x8000000000000080;
    0x000000000000800a; 0x800000008000000a; 0x8000000080008081;
    0x8000000000008080; 0x0000000080000001; 0x8000000080008008 ].

(** Rotation offsets, lane (x, y) at position [x + 5 * y]. *)
Definition offsets : list Z :=
  [  0;  1; 62; 28; 27;
    36; 44;  6; 55; 20;
     3; 10; 43; 25; 39;
    41; 45; 15; 21;  8;
    18;  2; 61; 56; 14 ].

Definition lane (a : list Z) (x y : nat) : Z :=
  nth ((x mod 5) + 5 * (y mod 5))%nat a 0.

Definition lanes (f : nat -> nat -> Z) : list Z :=
  map (fun i => f (i mod 5)%nat (i / 5)%nat) (seq 0 25).

Definition theta (a : list Z) : list Z :=
  let c x :=
    Z.lxor (Z.lxor (Z.lxor (Z.lxor (lane a x 0) (lane a x 1)) (lane a x 2))
              (lane a x 3)) (lane a x 4) in
  let d x := Z.lxor (c (x + 4)%nat) (rotl 1 (c (x + 1)%nat)) in
  lanes (fun x y => Z.lxor (lane a x y) (d x)).

(** rho and pi together: the lane that lands on (X, Y) comes from
    (X + 3 Y, X). *)
Definition rho_pi (a : list Z) : list Z :=
  lanes (fun X Y =>
    let x := ((X + 3 * Y) mod 5)%nat in
    let y := X in
    rotl (nth (x + 5 * y)%nat offsets 0) (lane a x y)).

Definition chi (b : list Z) : list Z :=
  lanes (fun x y =>
    Z.lxor (lane b x y)
      (Z.land (Z.lxor (lane b (x + 1) y) mask64) (lane b (x + 2) y))).

Definition iota (rc : Z) (a : list Z) : list Z :=
  match a with
  | [] => []
  | a0 :: rest => Z.lxor a0 rc :: rest
  end.

Definition round (a : list Z) (rc : Z) : list Z :=
  iota rc (chi (rho_pi (theta a))).

Definition permute (a : list Z) : list Z := fold_left round RC a.

Definition rate : nat := 136.

(** Keccak padding (domain byte 0x01, final bit 0x80). *)
Definition pad (msg : list Z) : list Z :=
  let r := Z.of_nat rate in
  let len := Z.of_nat (length msg) in
  let fill := Z.to_nat ((r - 1 - len) mod r) in
  match fill with
  | O => msg ++ [0x81]
  | S k => msg ++ [0x01] ++ repeat 0 (k) ++ [0x80]
  end.

Definition absorb (state block : list Z) : list Z :=
  let ws := map Bytes.le_word (Bytes.chunks 17 8 block) in
  permute
    (map (fun i => Z.lxor (nth i state 0) (nth i ws 0)) (seq 0 25)).

Definition keccak256 (msg : list Z) : list Z :=
  let padded := pad msg in
  let blocks := Bytes.chunks (length padded) rate padded in
  let final := fold_left absorb blocks (repeat 0 25) in
  flat_map (Bytes.le_bytes 8) (firstn 4 final).

End Keccak.

(** ** Address helpers of [@ethereumjs/util] *)

Module EthUtil.

Definition isHexDigit (c : ascii) : bool :=
  let n := nat_of_ascii c in
  ((48 <=? n) && (n <=? 57) || (65 <=? n) && (n <=? 70)
   || (97 <=? n) && (n <=? 102))%nat.

(** [isHexString]: the text matches [/^0x[0-9A-Fa-f]*$/]. *)
Definition isHexString (s : string) : bool :=
  match s with
  | String "0" (String "x" rest) =>
      forallb isHexDigit (list_ascii_of_string rest)
  | _ => false
  end.

Definition stripHexPrefix (s : string) : string :=
  match s with
  | String "0" (String "x" rest) => rest
  | _ => s
  end.

Definition lowerChar (c : ascii) : ascii :=
  let n := nat_of_ascii c in
  if ((65 <=? n) && (n <=? 90))%nat then ascii_of_nat (n + 32) else c.

Definition upperChar (c : ascii) : ascii :=
  let n := nat_of_ascii c in
  if ((97 <=? n) && (n <=? 122))%nat then ascii_of_nat (n - 32) else c.

(** [String.prototype.toLowerCase] on ASCII text. *)
Definition toLowerCase (s : string) : string :=
  string_of_list_ascii (map lowerChar (list_ascii_of_string s)).

(** [parseInt(c, 16)] of one character; [None] is NaN. *)
Definition parseHexDigit (c : ascii) : option nat :=
  let n := nat_of_ascii c in
  if ((48 <=? n) && (n <=? 57))%nat then Some (n - 48)%nat
  else if ((97 <=? n) && (n <=? 102))%nat then Some (n - 87)%nat
  else if ((65 <=? n) && (n <=? 70))%nat then Some (n - 55)%nat
  else None.

(** The loop of [toChecksumAddress]: character [i] of the address is put
    in upper case when digit [i] of the hash is 8 or more; past the end of
    the hash the comparison with NaN is false. *)
Fixpoint checksumCase (address hash : list ascii) : list ascii :=
  match address with
  | [] => []
  | c :: address' =>
      match hash with
      | [] => c :: checksumCase address' []
      | h :: hash' =>
          (match parseHexDigit h with
           | Some d => if (8 <=? d)%nat then upperChar c else c
           | None => c
           end) :: checksumCase address' hash'
      end
  end.

Definition addressHash (address : string) : string :=
  Bytes.to_hex (Keccak.keccak256 (Bytes.of_string address)).

(** [toChecksumAddress(hexAddress)] without chain id; [None] when
    [assertIsHexString] throws. *)
Definition toChecksumAddress (hexAddress : string) : option string :=
  if isHexString hexAddress then
    let address := toLowerCase (stripHexPrefix hexAddress) in
    let hash := addressHash address in
    Some ("0x" ++ string_of_list_ascii
                    (checksumCase (list_ascii_of_string address)
                                  (list_ascii_of_string hash)))
  else None.

End EthUtil.

(** ** Errors and results *)

(** A thrown [Error]. The constructors name the throw sites of the keyring
    whose messages have a fixed shape; [StructError] is the error of
    superstruct's [assert], with the path of the first failure, what the
    struct expected there and how the value it received is printed;
    [Thrown] is any other error, known by its message only. *)
Inductive Error :=
| AccountNotFound (id : string)
| MethodNotSupportedForAccount (method address : string)
| EvmMethodNotSupported (method : string)
| WalletDoesNotExist (address : string)
| CustodianNotAllowlisted (custodianApiUrl : string)
| AddressInUse (address : string)
| RequestNotFound (id : string)
| MethodNotImplemented
| StructError (path expected received : string)
| Thrown (message : string).

(** [error.message]. *)
Definition message (e : Error) : string :=
  match e with
  | AccountNotFound id => "Account '" ++ id ++ "' not found"
  | MethodNotSupportedForAccount method address =>
      "Method '" ++ method ++ "' not supported for account '" ++ address ++ "'"
  | EvmMethodNotSupported method => "EVM method '" ++ method ++ "' not supported"
  | WalletDoesNotExist address =>
      "Wallet for account " ++ address ++ " does not exist"
  | CustodianNotAllowlisted url =>
      "No custodian allowlisted for API URL: " ++ url
  | AddressInUse address => "Account address already in use: " ++ address
  | RequestNotFound id => "Request '" ++ id ++ "' not found"
  | MethodNotImplemented => "Method not implemented."
  | StructError path expected received =>
      "At path: " ++ path ++ " -- Expected " ++ expected
      ++ ", but received: " ++ received
  | Thrown m => m
  end.

Inductive Result (A : Type) :=
| Ok (value : A)
| Err (error : Error).
Arguments Ok {A} value.
Arguments Err {A} error.

(** ** SimpleCache *)

Module SimpleCache.

(** Modelled from the spec: lib/simple-cache/SimpleCache.ts is not among
    the sources. Spec 3 and 4.1: an entry holds the cached value and the
    wall-clock time of its issue. *)
Record entry (T : Type) := Entry { results : T; timestamp : Z }.
Arguments Entry {T} results timestamp.
Arguments results {T} e.
Arguments timestamp {T} e.

(** Modelled from the spec: [cacheExists(key)] of the missing SimpleCache;
    something is cached under the key. *)
Definition cacheExists {T} (key : string) (cache : gmap string (entry T))
  : bool :=
  match cache !! key with Some _ => true | None => false end.

(** Modelled from the spec: [cacheValid(key, maxCacheAge)] of the missing
    SimpleCache. Spec 3: the value is trusted only while
    [now < issuedAt + ttl]; the times and the time-to-live are in the same
    unit. *)
Definition cacheValid {T} (key : string) (maxCacheAge : Z) (now : Z)
    (cache : gmap string (entry T)) : bool :=
  match cache !! key with
  | Some e => (now <? timestamp e + maxCacheAge)%Z
  | None => false
  end.

(** Modelled from the spec: [setCache(key, value)] of the missing
    SimpleCache. Spec 4.1: the time of issue is the wall-clock time of the
    call. *)
Definition setCache {T} (key : string) (value : T) (now : Z)
    (cache : gmap string (entry T)) : gmap string (entry T) :=
  <[key := Entry value now]> cache.

(** Modelled from the spec: [getCache(key)] of the missing SimpleCache.
    Spec 4.1: the value, or a failure when nothing is cached. *)
Definition getCache {T} (key : string) (cache : gmap string (entry T))
  : Result T :=
  match cache !! key with
  | Some e => Ok (results e)
  | None => Err (Thrown ("No cache for key " ++ key))
  end.

End SimpleCache.

(** ** The protocol clients: access token and refresh token *)

(** The body of the refresh endpoint's answer, with the fields the clients
    read ([None]: the field is absent). *)
Record RefreshResponseJson := {
  url : option string;
  message_ : option string;
  access_token : option string;
  expires_in : option Z;
  refresh_token : option string;
}.

(** A [Response] of [fetch]: its status and what [response.json()] gives
    (an error when the body is not JSON). *)
Record Response := {
  status : Z;
  json : Result RefreshResponseJson;
}.

(** [response.ok]: the status is in the range 200 to 299. *)
Definition ok (r : Response) : bool :=
  ((200 <=? status r) && (status r <=? 299))%Z.

(** The outcome of [await fetch(...)]: a response of any status, or a
    rejection (network failure). *)
Inductive FetchOutcome :=
| Responded (response : Response)
| Rejected (error : Error).

(** How the grant is put on the wire: the only difference between the two
    generations. *)
Inductive BodyEncoding :=
| FormUrlEncoded   (* application/x-www-form-urlencoded *)
| JsonEncoded.     (* application/json *)

(** A refresh-token grant sent with [fetch] (method POST). *)
Record FetchRequest := {
  requestUrl : string;
  encoding : BodyEncoding;
  grant_type : string;
  grant_refresh_token : string;
}.

(** [IRefreshTokenChangeEvent]. *)
Record IRefreshTokenChangeEvent := {
  apiUrl : string;
  oldRefreshToken : string;
  newRefreshToken : string;
}.

(** What a client emits: TOKEN_EXPIRED_EVENT with the url and the hashed
    token, REFRESH_TOKEN_CHANGE_EVENT with its payload. *)
Inductive ClientEvent :=
| TokenExpired (url : string) (oldRefreshToken : string)
| RefreshTokenChange (payload : IRefreshTokenChangeEvent).

(** JavaScript truthiness of the values read from the body. *)
Definition truthyString (s : option string) : bool :=
  match s with
  | Some s => negb (String.eqb s "")
  | None => false
  end.

Definition truthyNumber (n : option Z) : bool :=
  match n with
  | Some n => negb (n =? 0)%Z
  | None => false
  end.

(** Template-literal rendering of a possibly absent string. *)
Definition orUndefined (s : option string) : string :=
  match s with Some s => s | None => "undefined" end.

(** The private fields of a client, and the traces of its calls to [fetch]
    and to [emit] (oldest first). *)
Record Client := {
  apiBaseUrl : string;
  refreshToken : string;
  refreshTokenUrl : string;
  cacheAge : option Z;                             (* null at the start *)
  cache : gmap string (SimpleCache.entry (option string));
  fetched : list FetchRequest;
  emitted : list ClientEvent;
}.

Definition newClient (apiBaseUrl refreshToken refreshTokenUrl : string)
  : Client :=
  {| apiBaseUrl := apiBaseUrl;
     refreshToken := refreshToken;
     refreshTokenUrl := refreshTokenUrl;
     cacheAge := None;
     cache := ∅;
     fetched := [];
     emitted := [] |}.

Definition setRefreshToken (newToken : string) (c : Client) : Client :=
  {| apiBaseUrl := apiBaseUrl c;
     refreshToken := newToken;
     refreshTokenUrl := refreshTokenUrl c;
     cacheAge := cacheAge c;
     cache := cache c;
     fetched := fetched c;
     emitted := emitted c |}.

Definition doFetch (req : FetchRequest) (c : Client) : Client :=
  {| apiBaseUrl := apiBaseUrl c;
     refreshToken := refreshToken c;
     refreshTokenUrl := refreshTokenUrl c;
     cacheAge := cacheAge c;
     cache := cache c;
     fetched := fetched c ++ [req];
     emitted := emitted c |}.

Definition emit (ev : ClientEvent) (c : Client) : Client :=
  {| apiBaseUrl := apiBaseUrl c;
     refreshToken := refreshToken c;
     refreshTokenUrl := refreshTokenUrl c;
     cacheAge := cacheAge c;
     cache := cache c;
     fetched := fetched c;
     emitted := emitted c ++ [ev] |}.

(** [this.#cacheAge = expires_in; this.#cache.setCache('accessToken', t)]. *)
Definition storeAccessToken (age : option Z) (t : option string) (now : Z)
    (c : Client) : Client :=
  {| apiBaseUrl := apiBaseUrl c;
     refreshToken := refreshToken c;
     refreshTokenUrl := refreshTokenUrl c;
     cacheAge := age;
     cache := SimpleCache.setCache "accessToken" t now (cache c);
     fetched := fetched c;
     emitted := emitted c |}.

(** The [catch] at the end of [getAccessToken]. *)
Definition accessTokenError (e : Error) : Error :=
  Thrown ("Error getting the Access Token: " ++ message e).

(** What both clients do with the answer of the refresh endpoint (the part
    of the [try] block after [fetch]), given the client [c] that has sent
    the request. *)
Definition handleRefreshResponse (now : Z) (outcome : FetchOutcome)
    (c : Client) : Result (option string) * Client :=
  match outcome with
  | Rejected e => (Err (accessTokenError e), c)
  | Responded response =>
      match json response with
      | Err e => (Err (accessTokenError e), c)
      | Ok responseJson =>
          if (status response =? 401)%Z && truthyString (url responseJson) then
            let url := orUndefined (url responseJson) in
            let oldRefreshToken := refreshToken c in
            let hashedToken := Sha256.sha256_hex (oldRefreshToken ++ url) in
            (Err (accessTokenError
                    (Thrown "Refresh token provided is no longer valid.")),
             emit (TokenExpired url hashedToken) c)
          else if negb (ok response) then
            (Err (accessTokenError
                    (Thrown ("Request failed with status "
                             ++ pretty (status response) ++ ": "
                             ++ orUndefined (message_ responseJson)))),
             c)
          else
            let c1 :=
              storeAccessToken (expires_in responseJson)
                (access_token responseJson) now c in
            if truthyString (refresh_token responseJson)
               && negb (String.eqb (orUndefined (refresh_token responseJson))
                                   (refreshToken c1))
            then
              let newRefreshToken := orUndefined (refresh_token responseJson) in
              let oldRefreshToken := refreshToken c1 in
              let c2 := setRefreshToken newRefreshToken c1 in
              let payload :=
                {| apiUrl := apiBaseUrl c2;
                   oldRefreshToken := oldRefreshToken;
                   newRefreshToken := newRefreshToken |} in
              (Ok (access_token responseJson),
               emit (RefreshTokenChange payload) c2)
            else (Ok (access_token responseJson), c1)
      end
  end.

(** The test at the start of [getAccessToken]: the cache age is truthy,
    the entry exists and is valid for that age. *)
Definition cachedTokenUsable (now : Z) (c : Client) : bool :=
  truthyNumber (cacheAge c)
  && SimpleCache.cacheExists "accessToken" (cache c)
  && SimpleCache.cacheValid "accessToken"
       (match cacheAge c with Some a => a | None => 0%Z end) now (cache c).

Module ECA1Client.

Definition refreshRequest (c : Client) : FetchRequest :=
  {| requestUrl := refreshTokenUrl c;
     encoding := FormUrlEncoded;
     grant_type := "refresh_token";
     grant_refresh_token := refreshToken c |}.

Definition getAccessToken (fetch : FetchRequest -> FetchOutcome) (now : Z)
    (c : Client) : Result (option string) * Client :=
  if cachedTokenUsable now c then
    (SimpleCache.getCache "accessToken" (cache c), c)
  else
    let request := refreshRequest c in
    handleRefreshResponse now (fetch request) (doFetch request c).

End ECA1Client.

Module ECA3Client.

Definition refreshRequest (c : Client) : FetchRequest :=
  {| requestUrl := refreshTokenUrl c;
     encoding := JsonEncoded;
     grant_type := "refresh_token";
     grant_refresh_token := refreshToken c |}.

Definition getAccessToken (fetch : FetchRequest -> FetchOutcome) (now : Z)
    (c : Client) : Result (option string) * Client :=
  if cachedTokenUsable now c then
    (SimpleCache.getCache "accessToken" (cache c), c)
  else
    let request := refreshRequest c in
    handleRefreshResponse now (fetch request) (doFetch request c).

End ECA3Client.

(** ** The custodial keyring *)

Module Keyring.

(** *** Data *)

Inductive CustodianType := ECA3 | ECA1 | BitGo | Cactus.

(** The connection details of a wallet ([OnBoardingRpcRequest]);
    [token] is the current refresh token. *)
Record OnBoardingRpcRequest := {
  token : string;
  custodianApiUrl : string;
  custodianType : CustodianType;
  refreshTokenUrl : string;
  custodianEnvironment : string;
  custodianDisplayName : string;
}.

(** [{ ...details, token: newToken }]. *)
Definition withToken (newToken : string) (d : OnBoardingRpcRequest)
  : OnBoardingRpcRequest :=
  {| token := newToken;
     custodianApiUrl := custodianApiUrl d;
     custodianType := custodianType d;
     refreshTokenUrl := refreshTokenUrl d;
     custodianEnvironment := custodianEnvironment d;
     custodianDisplayName := custodianDisplayName d |}.

(** An entry of the custodian allow-list, with the fields the keyring
    reads. *)
Module CustodianMetadata.
Record t := {
  apiBaseUrl : string;
  name : string;
  displayName : option string;
  production : option bool;
  apiVersion : CustodianType;
  custodianPublishesTransaction : bool;
}.
End CustodianMetadata.

Record AccountCustodian := {
  environmentName : string;
  displayName : string;
  deferPublication : bool;
  importOrigin : string;
}.

Record AccountOptions := {
  custodian : AccountCustodian;
  accountName : option string;
}.

(** [CustodialKeyringAccount]. *)
Module Account.
Record t := {
  id : string;
  options : AccountOptions;
  address : string;
  methods : list string;
  type : string;
}.
End Account.

Record Wallet := {
  account : Account.t;
  details : OnBoardingRpcRequest;
}.

Module CreateAccountOptions.
Record t := {
  name : option string;
  address : string;
  details : OnBoardingRpcRequest;
  origin : string;
}.
End CreateAccountOptions.

(** [EthMethod] and [EthAccountType] of the keyring API. *)
Module EthMethod.
Definition PersonalSign : string := "personal_sign".
Definition SignTransaction : string := "eth_signTransaction".
Definition SignTypedDataV3 : string := "eth_signTypedData_v3".
Definition SignTypedDataV4 : string := "eth_signTypedData_v4".
End EthMethod.

Definition EthAccountType_Eoa : string := "eip155:eoa".

Inductive SignTypedDataVersion := V3 | V4.

Record EthSignTransactionRequest := {
  from : string;
  chainId : string;
  transactionData : string;   (* the remaining fields, not read here *)
}.

(** The values found in the parameters of a request. *)
Inductive Json :=
| JString (s : string)
| JTransaction (tx : EthSignTransactionRequest)
| JUndefined.

Module KeyringRequest.
(** [method] and [params] are those of the inner [request] object;
    [params] may be absent. *)
Record t := {
  id : string;
  scope : string;
  account : string;
  method : string;
  params : option (list Json);
}.
End KeyringRequest.

Record SignedMessageDetails := {
  signedMessageId : string;          (* details.id *)
}.

Record CustodianTransaction := {
  custodianTransactionId : string;
}.

Module CustodianDeepLink.
Record t := {
  text : string;
  id : string;
  url : string;
  action : string;
}.
End CustodianDeepLink.

(** The record handed to the request manager ([CustodialSnapRequest]). *)
Module SnapRequest.
Record t := {
  keyringRequest : KeyringRequest.t;
  type : string;
  subType : option string;
  fulfilled : bool;
  rejected : bool;
  message : option SignedMessageDetails;
  signature : option string;
  transaction : option CustodianTransaction;
  lastUpdated : Z;
}.
End SnapRequest.

Inductive SubmitRequestResponse :=
| Pending                       (* { pending: true } *)
| Completed (result : string).  (* { pending: false, result } *)

(** A custodian API object built by the keyring. [instance] stands for
    the identity of the object: the number of objects built before it. The
    other fields are the arguments of the constructor. *)
Record CustodianApi := {
  instance : nat;
  apiType : CustodianType;
  apiRefreshToken : string;
  apiRefreshTokenUrl : string;
  custodianUrl : string;
  apiCacheAge : Z;
}.

(** Calls made on a custodian API object. *)
Inductive CustodianOperation :=
| SignPersonalMessage (from : string) (message : Json)
| SignTypedData (from : string) (data : Json) (version : SignTypedDataVersion)
| CreateTransaction (payload : string) (chainId : string)
    (custodianPublishesTransaction : bool)
| GetTransactionLink (custodianId : string)
| GetSignedMessageLink (custodianId : string).

(** Events sent with [emitSnapKeyringEvent]. *)
Inductive KeyringEvent :=
| AccountCreated (account : Account.t) (accountNameSuggestion : string)
    (displayConfirmation displayAccountNameSuggestion : bool)
| AccountDeleted (id : string).

(** *** The outside world

    [config], the allow-list, the values of [uuid()] and [Date.now()]
    during the call, and the answers of the collaborators: the client that
    receives keyring events (it may refuse) and the custodian behind each
    API object. Four parts of the repository that are not among the
    sources are taken as given as well: the comparison of addresses inside
    the state manager (strict equality in the test doubles of
    keyring.test.ts), the error with which the state manager refuses to
    remove accounts that it does not store, the payload helper of
    [TransactionHelper], and the signing helpers of [SignedMessageHelper],
    whose outcome is that of the one call they make on the API object. *)
Record Env := {
  dev : bool;
  custodianMetadata : list CustodianMetadata.t;
  sameAddress : string -> string -> bool;
  uuid : string;
  now : Z;
  emitSnapKeyringEvent : KeyringEvent -> Result unit;
  createTransactionPayload : EthSignTransactionRequest -> Result string;
  signMessage : CustodianApi -> CustodianOperation -> Result SignedMessageDetails;
  createTransaction : CustodianApi -> CustodianOperation -> Result CustodianTransaction;
  getLink : CustodianApi -> CustodianOperation -> Result CustodianDeepLink.t;
  removeAccountsError : list string -> Error;
}.

(** *** State

    The private fields of [CustodialKeyring], the stores of its two
    collaborators, and the traces of what it did to the outside. *)
Record State := {
  wallets : list Wallet;                           (* #stateManager *)
  requests : list SnapRequest.t;                   (* #requestManagerFacade *)
  custodianApi : gmap string CustodianApi;         (* #custodianApi *)
  constructed : nat;                               (* API objects built so far *)
  keyringEvents : list KeyringEvent;               (* emitSnapKeyringEvent *)
  custodianCalls : list (CustodianApi * CustodianOperation);
  infoMessages : list string;                      (* renderInfoMessage *)
}.

Definition emptyState : State :=
  {| wallets := []; requests := []; custodianApi := ∅; constructed := 0;
     keyringEvents := []; custodianCalls := []; infoMessages := [] |}.

Definition setWallets (ws : list Wallet) (s : State) : State :=
  {| wallets := ws; requests := requests s;
     custodianApi := custodianApi s; constructed := constructed s;
     keyringEvents := keyringEvents s; custodianCalls := custodianCalls s;
     infoMessages := infoMessages s |}.

Definition setRequests (rs : list SnapRequest.t) (s : State) : State :=
  {| wallets := wallets s; requests := rs;
     custodianApi := custodianApi s; constructed := constructed s;
     keyringEvents := keyringEvents s; custodianCalls := custodianCalls s;
     infoMessages := infoMessages s |}.

Definition setCustodianApi (m : gmap string CustodianApi) (s : State)
  : State :=
  {| wallets := wallets s; requests := requests s;
     custodianApi := m; constructed := constructed s;
     keyringEvents := keyringEvents s; custodianCalls := custodianCalls s;
     infoMessages := infoMessages s |}.

Definition setConstructed (n : nat) (s : State) : State :=
  {| wallets := wallets s; requests := requests s;
     custodianApi := custodianApi s; constructed := n;
     keyringEvents := keyringEvents s; custodianCalls := custodianCalls s;
     infoMessages := infoMessages s |}.

Definition logKeyringEvent (ev : KeyringEvent) (s : State) : State :=
  {| wallets := wallets s; requests := requests s;
     custodianApi := custodianApi s; constructed := constructed s;
     keyringEvents := keyringEvents s ++ [ev];
     custodianCalls := custodianCalls s;
     infoMessages := infoMessages s |}.

Definition logCustodianCall (api : CustodianApi) (op : CustodianOperation)
    (s : State) : State :=
  {| wallets := wallets s; requests := requests s;
     custodianApi := custodianApi s; constructed := constructed s;
     keyringEvents := keyringEvents s;
     custodianCalls := custodianCalls s ++ [(api, op)];
     infoMessages := infoMessages s |}.

Definition logInfoMessage (text : string) (s : State) : State :=
  {| wallets := wallets s; requests := requests s;
     custodianApi := custodianApi s; constructed := constructed s;
     keyringEvents := keyringEvents s; custodianCalls := custodianCalls s;
     infoMessages := infoMessages s ++ [text] |}.

(** *** Computations of the keyring: state and exceptions *)

Definition M (A : Type) : Type := State -> Result A * State.

Definition ret {A} (a : A) : M A := fun s => (Ok a, s).

Definition throw {A} (e : Error) : M A := fun s => (Err e, s).

Definition bind {A B} (m : M A) (k : A -> M B) : M B :=
  fun s =>
    match m s with
    | (Ok a, s') => k a s'
    | (Err e, s') => (Err e, s')
    end.

(** [try { m } catch (error) { handler(error) }]: what [m] did before it
    threw stays done. *)
Definition tryCatch {A} (m : M A) (handler : Error -> M A) : M A :=
  fun s =>
    match m s with
    | (Ok a, s') => (Ok a, s')
    | (Err e, s') => handler e s'
    end.

Definition gets {A} (f : State -> A) : M A := fun s => (Ok (f s), s).

Definition modify (f : State -> State) : M unit := fun s => (Ok tt, f s).

Definition liftResult {A} (r : Result A) : M A := fun s => (r, s).

Notation "x <- c1 ;; c2" := (bind c1 (fun x => c2))
  (at level 100, c1 at next level, right associativity).
Notation "c1 ;;; c2" := (bind c1 (fun _ => c2))
  (at level 100, right associativity).

(** [for (const x of xs) { await body(x) }]. *)
Fixpoint forEach {A} (xs : list A) (body : A -> M unit) : M unit :=
  match xs with
  | [] => ret tt
  | x :: xs' => body x ;;; forEach xs' body
  end.


(** *** Collaborators *)

Module StateManager.

(** Modelled from the spec: stateManagement.ts ([KeyringStateManager])
    is not among the sources. Spec 6 lists its operations; the store is
    the list of wallet connections, in the order of their creation. *)
Definition listWallets : M (list Wallet) := gets wallets.

(** Modelled from the spec: [getAccount(id)] of the missing state
    manager; the account with that id, or null. *)
Definition getAccount (id : string) : M (option Account.t) :=
  gets (fun s =>
    option_map account
      (List.find (fun w => String.eqb (Account.id (account w)) id)
         (wallets s))).

(** Modelled from the spec: [getWalletByAddress(addr)] of the missing
    state manager; the first wallet whose stored address is the one
    asked for, or null. How the state manager compares the two
    addresses is not visible from the keyring: the comparison [same] is
    taken from the environment. *)
Definition getWalletByAddress (same : string -> string -> bool)
    (address : string) : M (option Wallet) :=
  gets (fun s =>
    List.find (fun w => same (Account.address (account w)) address)
      (wallets s)).

(** Modelled from the spec: [addWallet({account, details})] of the
    missing state manager. *)
Definition addWallet (w : Wallet) : M unit :=
  modify (fun s => setWallets (wallets s ++ [w]) s).

(** Modelled from the spec: [updateWalletDetails(accountId, details)]
    of the missing state manager; the details of the wallet of that
    account are replaced. *)
Definition updateWalletDetails (accountId : string)
    (d : OnBoardingRpcRequest) : M unit :=
  modify (fun s =>
    setWallets
      (map (fun w =>
              if String.eqb (Account.id (account w)) accountId
              then {| account := account w; details := d |}
              else w)
           (wallets s)) s).

(** Modelled from the spec: [removeAccounts(ids)] of the missing state
    manager. Spec 4.4 provides for the removal failing: it fails, and
    removes nothing, when one of the ids is not the id of a stored
    wallet; the error [refusal ids] of that case is taken from the
    environment. Otherwise the wallets of these ids leave the store. *)
Definition removeAccounts (refusal : list string -> Error)
    (ids : list string) : M unit :=
  fun s =>
    if List.forallb
         (fun id =>
            List.existsb (fun w => String.eqb (Account.id (account w)) id)
              (wallets s))
         ids
    then
      (Ok tt,
       setWallets
         (List.filter
            (fun w =>
               negb (List.existsb (String.eqb (Account.id (account w))) ids))
            (wallets s)) s)
    else (Err (refusal ids), s).

(** Modelled from the spec: [withTransaction(fn)] of the missing state
    manager; the writes of [fn] to the store are all kept or, when [fn]
    fails, all dropped. *)
Definition withTransaction {A} (fn : M A) : M A :=
  fun s =>
    match fn s with
    | (Ok a, s') => (Ok a, s')
    | (Err e, s') => (Err e, setWallets (wallets s) s')
    end.

End StateManager.

Module RequestManagerFacade.

(** Modelled from the spec: the request manager behind
    [RequestManagerFacade] is not among the sources. Spec 6:
    [upsertRequest(record)] stores the record, in place of the record of
    the same keyring request when there is one. *)
Definition upsertRequest (r : SnapRequest.t) : M unit :=
  let sameRequest (x : SnapRequest.t) :=
    String.eqb (KeyringRequest.id (SnapRequest.keyringRequest x))
               (KeyringRequest.id (SnapRequest.keyringRequest r)) in
  modify (fun s =>
    setRequests
      (if List.existsb sameRequest (requests s)
       then map (fun x => if sameRequest x then r else x) (requests s)
       else requests s ++ [r]) s).

(** Modelled from the spec: [listRequests()] of the missing request
    manager. *)
Definition listRequests : M (list SnapRequest.t) := gets requests.

End RequestManagerFacade.

(** Modelled from the spec: util/is-unique-address.ts is not among the
    sources. Spec 4.4: the address is not unique when it already belongs
    to an existing wallet. *)
Definition isUniqueAddress (address : string) (wallets : list Wallet)
  : bool :=
  negb (List.existsb
          (fun w => String.eqb (Account.address (account w)) address)
          wallets).

(** The errors that the strict submission mode lets through. *)
Definition isValidationError (e : Error) : bool :=
  match e with
  | AccountNotFound _
  | MethodNotSupportedForAccount _ _
  | EvmMethodNotSupported _ => true
  | _ => false
  end.

(** Modelled from the spec: util/run-sensitive.ts is not among the
    sources. Spec 4.4 and 7: unexpected internal errors of the callback
    are replaced by the generic message, while validation errors (account
    or method not found) are passed through verbatim. *)
Definition runSensitive {A} (callback : M A) (genericMessage : string)
  : M A :=
  tryCatch callback
    (fun error =>
       if isValidationError error then throw error
       else throw (Thrown genericMessage)).

(** [renderInfoMessage(text)] of the rendering collaborator. *)
Definition renderInfoMessage (text : string) : M unit :=
  modify (logInfoMessage text).

(** Template-literal rendering of a parameter. *)
Definition jsonToString (j : Json) : string :=
  match j with
  | JString s => s
  | JTransaction _ => "[object Object]"
  | JUndefined => "undefined"
  end.

Definition notHexStringError (input : string) : Error :=
  Thrown ("This method only supports 0x-prefixed hex strings but input was: "
          ++ input).

(** [new CustodianApiClass({refreshToken, refreshTokenUrl}, apiUrl, 1000)],
    the [n]-th object built. *)
Definition newCustodianApi (n : nat) (details : OnBoardingRpcRequest)
  : CustodianApi :=
  {| instance := n;
     apiType := custodianType details;
     apiRefreshToken := token details;
     apiRefreshTokenUrl := refreshTokenUrl details;
     custodianUrl := custodianApiUrl details;
     apiCacheAge := 1000 |}.

(** *** [KeyringRequestStruct]

    The struct of @metamask/keyring-api that [submitRequest] asserts
    outside the development mode. [id] and [account] are UUIDs of
    version 4; [scope] and [request.method] are strings, as the record
    has them; [request.params], when present, holds JSON values. *)

Inductive UuidPart := HexDigit | Hyphen | Version | Variant.

(** [/^[0-9a-f]{8}-[0-9a-f]{4}-4[0-9a-f]{3}-[89ab][0-9a-f]{3}-[0-9a-f]{12}$/iu],
    one part per character. *)
Definition uuidV4Pattern : list UuidPart :=
  (repeat HexDigit 8 ++ [Hyphen] ++ repeat HexDigit 4 ++ [Hyphen; Version]
   ++ repeat HexDigit 3 ++ [Hyphen; Variant] ++ repeat HexDigit 3
   ++ [Hyphen] ++ repeat HexDigit 12)%list.

Definition matchesPart (part : UuidPart) (c : ascii) : bool :=
  match part with
  | HexDigit => EthUtil.isHexDigit c
  | Hyphen => Ascii.eqb c "-"
  | Version => Ascii.eqb c "4"
  | Variant =>
      List.existsb (Ascii.eqb (EthUtil.lowerChar c))
        (list_ascii_of_string "89ab")
  end.

Fixpoint matchesPattern (pattern : list UuidPart) (text : list ascii)
  : bool :=
  match pattern, text with
  | [], [] => true
  | part :: pattern', c :: text' =>
      matchesPart part c && matchesPattern pattern' text'
  | _, _ => false
  end.

Definition isUuidV4 (value : string) : bool :=
  matchesPattern uuidV4Pattern (list_ascii_of_string value).

(** [JSON.stringify] of a string. *)
Definition escapeChar (c : ascii) : list ascii :=
  let n := nat_of_ascii c in
  let backslash := ascii_of_nat 92 in
  if (n =? 34)%nat then [backslash; c]
  else if (n =? 92)%nat then [backslash; c]
  else if (n =? 8)%nat then [backslash; "b"%char]
  else if (n =? 9)%nat then [backslash; "t"%char]
  else if (n =? 10)%nat then [backslash; "n"%char]
  else if (n =? 12)%nat then [backslash; "f"%char]
  else if (n =? 13)%nat then [backslash; "r"%char]
  else if (n <? 32)%nat then
    ([backslash; "u"%char; "0"%char; "0"%char]
     ++ Bytes.hexByte (Z.of_nat n))%list
  else [c].

Definition stringify (value : string) : string :=
  let quote := ascii_of_nat 34 in
  string_of_list_ascii
    ((quote :: flat_map escapeChar (list_ascii_of_string value))
     ++ [quote])%list.

(** The failure of the pattern [UuidV4] at the field [path]. *)
Definition uuidFailure (path value : string) : Error :=
  StructError path "a value of type `UuidV4`"
    ("`" ++ stringify value ++ "`").

Definition isJson (value : Json) : bool :=
  match value with
  | JString _ | JTransaction _ => true
  | JUndefined => false
  end.

(** [Array.prototype.toString] of the parameters: [undefined] is printed
    as nothing. *)
Definition printParams (values : list Json) : string :=
  String.concat ","
    (map (fun value =>
            match value with
            | JUndefined => ""
            | _ => jsonToString value
            end)
       values).

(** The first failure of the struct on a request, in the order of its
    fields. *)
Definition KeyringRequestStruct (request : KeyringRequest.t)
  : Result unit :=
  if negb (isUuidV4 (KeyringRequest.id request)) then
    Err (uuidFailure "id" (KeyringRequest.id request))
  else if negb (isUuidV4 (KeyringRequest.account request)) then
    Err (uuidFailure "account" (KeyringRequest.account request))
  else
    match KeyringRequest.params request with
    | None => Ok tt
    | Some values =>
        if List.forallb isJson values then Ok tt
        else
          Err (StructError "request.params"
                 "the value to satisfy a union of `array | record`"
                 (printParams values))
    end.

(** [assert(value, struct)] of superstruct. *)
Definition assert {A} (value : A) (struct : A -> Result unit) : M unit :=
  liftResult (struct value).

(** *** The operations of [CustodialKeyring] *)

Section Operations.

Variable env : Env.

Definition emitEvent (event : KeyringEvent) : M unit :=
  fun s => (emitSnapKeyringEvent env event, logKeyringEvent event s).

(** A call on a custodian API object, answered by the environment. *)
Definition callCustodian {A}
    (answer : CustodianApi -> CustodianOperation -> Result A)
    (api : CustodianApi) (op : CustodianOperation) : M A :=
  fun s => (answer api op, logCustodianCall api op s).

Definition listAccounts : M (list Account.t) :=
  gets (fun s => map account (wallets s)).

Definition getAccount (id : string) : M (option Account.t) :=
  StateManager.getAccount id.

Definition createAccount (options : CreateAccountOptions.t)
  : M Account.t :=
  let details := CreateAccountOptions.details options in
  let custodian :=
    List.find
      (fun item =>
         String.eqb (CustodianMetadata.apiBaseUrl item)
                    (custodianApiUrl details))
      (custodianMetadata env) in
  names <-
    (if dev env then
       ret (custodianEnvironment details, custodianDisplayName details)
     else
       match custodian with
       | None => throw (CustodianNotAllowlisted (custodianApiUrl details))
       | Some c =>
           ret (CustodianMetadata.name c, custodianDisplayName details)
       end) ;;
  let address := CreateAccountOptions.address options in
  let name := CreateAccountOptions.name options in
  wallets <- StateManager.listWallets ;;
  if negb (isUniqueAddress address wallets) then
    throw (AddressInUse address)
  else
    let deferPublication :=
      match custodian with
      | Some c => CustodianMetadata.custodianPublishesTransaction c
      | None => false
      end in
    tryCatch
      (let account :=
         {| Account.id := uuid env;
            Account.options :=
              {| custodian :=
                   {| environmentName := fst names;
                      displayName := snd names;
                      deferPublication := deferPublication;
                      importOrigin := CreateAccountOptions.origin options |};
                 accountName := name |};
            Account.address := address;
            Account.methods :=
              [ EthMethod.SignTransaction; EthMethod.PersonalSign;
                EthMethod.SignTypedDataV3; EthMethod.SignTypedDataV4 ];
            Account.type := EthAccountType_Eoa |} in
       emitEvent
         (AccountCreated account
            (match name with Some n => n | None => "Custodial Account" end)
            false false) ;;;
       StateManager.addWallet {| account := account; details := details |} ;;;
       ret account)
      (fun error => throw (Thrown (message error))).

Definition deleteAccount (id : string) : M unit :=
  tryCatch
    (StateManager.withTransaction
       (StateManager.removeAccounts (removeAccountsError env) [id] ;;;
        emitEvent (AccountDeleted id)))
    (fun error => throw (Thrown (message error))).

Definition listRequests : M (list KeyringRequest.t) :=
  if dev env then
    requests <- RequestManagerFacade.listRequests ;;
    ret (map SnapRequest.keyringRequest requests)
  else ret [].

Definition getRequest (id : string) : M KeyringRequest.t :=
  if dev env then
    requests <- RequestManagerFacade.listRequests ;;
    match
      List.find
        (fun req =>
           String.eqb (KeyringRequest.id (SnapRequest.keyringRequest req)) id)
        requests
    with
    | None => throw (RequestNotFound id)
    | Some request => ret (SnapRequest.keyringRequest request)
    end
  else throw MethodNotImplemented.

(** [#getCustodianApi]: a new API object of the class of the custodian
    type, with the keyring's handler registered on it. *)
Definition getCustodianApi (details : OnBoardingRpcRequest)
  : M CustodianApi :=
  fun s =>
    (Ok (newCustodianApi (constructed s) details),
     setConstructed (S (constructed s)) s).

(** [getCustodianApiForAddress] has one [await], on the wallet that the
    state manager returns, between the test [has(checksumAddress)] and
    the [set]. [registerCustodianApi] is the part of the call that runs
    once the state manager has answered: the wallet is read, the API
    object is built and put in the registry, and the call returns it. *)
Definition registerCustodianApi (address checksumAddress : string)
  : M CustodianApi :=
  wallet <-
    StateManager.getWalletByAddress (sameAddress env) checksumAddress ;;
  match wallet with
  | None => throw (WalletDoesNotExist address)
  | Some wallet =>
      api <- getCustodianApi (details wallet) ;;
      modify (fun s =>
        setCustodianApi
          (<[checksumAddress := api]> (custodianApi s)) s) ;;;
      ret api
  end.

(** A call that nothing else interleaves with: the part after the
    [await] runs on the state that the part before it left. *)
Definition getCustodianApiForAddress (address : string)
  : M CustodianApi :=
  match EthUtil.toChecksumAddress address with
  | None => throw (notHexStringError address)
  | Some checksumAddress =>
      cached <- gets (fun s => custodianApi s !! checksumAddress) ;;
      match cached with
      | Some custodianApi => ret custodianApi
      | None => registerCustodianApi address checksumAddress
      end
  end.

(** A call of [getCustodianApiForAddress] that has reached its [await]:
    the address it was called with and its checksummed form. *)
Record SuspendedLookup := {
  lookupAddress : string;
  lookupChecksumAddress : string;
}.

(** The part of [getCustodianApiForAddress] before the [await]: the call
    either returns the API object of the registry or is suspended. *)
Definition startLookup (address : string)
  : M (CustodianApi + SuspendedLookup) :=
  match EthUtil.toChecksumAddress address with
  | None => throw (notHexStringError address)
  | Some checksumAddress =>
      cached <- gets (fun s => custodianApi s !! checksumAddress) ;;
      match cached with
      | Some custodianApi => ret (inl custodianApi)
      | None =>
          ret (inr {| lookupAddress := address;
                      lookupChecksumAddress := checksumAddress |})
      end
  end.

(** The rest of a call: nothing for a call that returned at once. *)
Definition resumeLookup (started : CustodianApi + SuspendedLookup)
  : M CustodianApi :=
  match started with
  | inl custodianApi => ret custodianApi
  | inr suspended =>
      registerCustodianApi (lookupAddress suspended)
        (lookupChecksumAddress suspended)
  end.

(** Two calls in flight at once: the second is made while the first
    waits for the state manager, then the first resumes, then the
    second. *)
Definition overlappingLookups (address1 address2 : string)
  : M (CustodianApi * CustodianApi) :=
  started1 <- startLookup address1 ;;
  started2 <- startLookup address2 ;;
  api1 <- resumeLookup started1 ;;
  api2 <- resumeLookup started2 ;;
  ret (api1, api2).

(** [getCustodianApiForAddress] on a parameter of a request: a value
    that is not a string is refused by [toChecksumAddress]. *)
Definition getCustodianApiForParam (from : Json) : M CustodianApi :=
  match from with
  | JString address => getCustodianApiForAddress address
  | _ => throw (notHexStringError (jsonToString from))
  end.

Definition handleTokenChangedEvent (payload : IRefreshTokenChangeEvent)
  : M unit :=
  wallets <- StateManager.listWallets ;;
  let walletsToUpdate :=
    List.filter
      (fun wallet =>
         String.eqb (token (details wallet)) (oldRefreshToken payload)
         && String.eqb (custodianApiUrl (details wallet)) (apiUrl payload))
      wallets in
  forEach walletsToUpdate
    (fun wallet =>
       let updatedDetails :=
         withToken (newRefreshToken payload) (details wallet) in
       modify (fun s =>
         setCustodianApi
           (delete (Account.address (account wallet)) (custodianApi s)) s) ;;;
       StateManager.updateWalletDetails
         (Account.id (account wallet)) updatedDetails).

Definition signTransaction (tx : EthSignTransactionRequest)
    (keyringRequest : KeyringRequest.t) : M string :=
  tryCatch
    (custodianApi <- getCustodianApiForAddress (from tx) ;;
     payload <- liftResult (createTransactionPayload env tx) ;;
     wallet <-
       StateManager.getWalletByAddress (sameAddress env) (from tx) ;;
     match wallet with
     | None => throw (AccountNotFound (from tx))
     | Some wallet =>
         let custodianPublishesTransaction :=
           deferPublication
             (custodian (Account.options (account wallet))) in
         response <-
           callCustodian (createTransaction env) custodianApi
             (CreateTransaction payload (chainId tx)
                custodianPublishesTransaction) ;;
         RequestManagerFacade.upsertRequest
           {| SnapRequest.keyringRequest := keyringRequest;
              SnapRequest.type := "transaction";
              SnapRequest.subType := None;
              SnapRequest.fulfilled := false;
              SnapRequest.rejected := false;
              SnapRequest.message := None;
              SnapRequest.signature := None;
              SnapRequest.transaction := Some response;
              SnapRequest.lastUpdated := now env |} ;;;
         ret (custodianTransactionId response)
     end)
    (fun error =>
       throw (Thrown ("Failed to sign transaction: " ++ message error))).

(** The record of a message-signing request. *)
Definition messageRequest (keyringRequest : KeyringRequest.t)
    (subType : string) (details : SignedMessageDetails) : SnapRequest.t :=
  {| SnapRequest.keyringRequest := keyringRequest;
     SnapRequest.type := "message";
     SnapRequest.subType := Some subType;
     SnapRequest.fulfilled := false;
     SnapRequest.rejected := false;
     SnapRequest.message := Some details;
     SnapRequest.signature := None;
     SnapRequest.transaction := None;
     SnapRequest.lastUpdated := now env |}.

Definition handleSigningRequest (method : string) (params : list Json)
    (keyringRequest : KeyringRequest.t) : M string :=
  account <- getAccount (KeyringRequest.account keyringRequest) ;;
  match account with
  | None => throw (AccountNotFound (KeyringRequest.account keyringRequest))
  | Some account =>
      if negb (List.existsb (String.eqb method) (Account.methods account))
      then
        throw (MethodNotSupportedForAccount method (Account.address account))
      else if String.eqb method EthMethod.PersonalSign then
        let message := nth 0 params JUndefined in
        let from := nth 1 params JUndefined in
        custodianApi <- getCustodianApiForParam from ;;
        details <-
          callCustodian (signMessage env) custodianApi
            (SignPersonalMessage (jsonToString from) message) ;;
        RequestManagerFacade.upsertRequest
          (messageRequest keyringRequest "personalSign" details) ;;;
        ret (signedMessageId details)
      else if String.eqb method EthMethod.SignTransaction then
        match nth 0 params JUndefined with
        | JTransaction tx => signTransaction tx keyringRequest
        | JString _ =>
            (* tx.from is undefined *)
            throw (Thrown ("Failed to sign transaction: "
                           ++ message (notHexStringError "undefined")))
        | JUndefined =>
            throw (Thrown ("Failed to sign transaction: "
              ++ "Cannot read properties of undefined (reading 'from')"))
        end
      else if String.eqb method EthMethod.SignTypedDataV3 then
        let from := nth 0 params JUndefined in
        let data := nth 1 params JUndefined in
        custodianApi <- getCustodianApiForParam from ;;
        details <-
          callCustodian (signMessage env) custodianApi
            (SignTypedData (jsonToString from) data V3) ;;
        RequestManagerFacade.upsertRequest
          (messageRequest keyringRequest "v3" details) ;;;
        ret (signedMessageId details)
      else if String.eqb method EthMethod.SignTypedDataV4 then
        let from := nth 0 params JUndefined in
        let data := nth 1 params JUndefined in
        custodianApi <- getCustodianApiForParam from ;;
        details <-
          callCustodian (signMessage env) custodianApi
            (SignTypedData (jsonToString from) data V4) ;;
        RequestManagerFacade.upsertRequest
          (messageRequest keyringRequest "v4" details) ;;;
        ret (signedMessageId details)
      else throw (EvmMethodNotSupported method)
  end.

(** The deep link put in place of the custodian's when it cannot be
    fetched. *)
Definition fallbackDeepLink (custodianId : string) : CustodianDeepLink.t :=
  {| CustodianDeepLink.text := "Complete in Custodian App";
     CustodianDeepLink.id := custodianId;
     CustodianDeepLink.url := "";
     CustodianDeepLink.action := "view" |}.

(** The body of the [try] block of [#asyncSubmitRequest]. *)
Definition fetchDeepLink (method address custodianId : string)
  : M CustodianDeepLink.t :=
  if String.eqb method EthMethod.SignTransaction then
    custodianApi <- getCustodianApiForAddress address ;;
    callCustodian (getLink env) custodianApi
      (GetTransactionLink custodianId)
  else
    custodianApi <- getCustodianApiForAddress address ;;
    callCustodian (getLink env) custodianApi
      (GetSignedMessageLink custodianId).

Definition asyncSubmitRequest (request : KeyringRequest.t)
  : M SubmitRequestResponse :=
  custodianId <-
    handleSigningRequest (KeyringRequest.method request)
      (match KeyringRequest.params request with
       | Some params => params
       | None => []
       end)
      request ;;
  account <- getAccount (KeyringRequest.account request) ;;
  match account with
  | None => throw (AccountNotFound (KeyringRequest.account request))
  | Some account =>
      let address := Account.address account in
      deepLink <-
        tryCatch
          (fetchDeepLink (KeyringRequest.method request) address
             custodianId)
          (fun error => ret (fallbackDeepLink custodianId)) ;;
      renderInfoMessage
        (CustodianDeepLink.text deepLink ++ " Transaction ID: "
         ++ CustodianDeepLink.id deepLink) ;;;
      ret Pending
  end.

Definition submitRequest (request : KeyringRequest.t)
  : M SubmitRequestResponse :=
  if dev env then asyncSubmitRequest request
  else
    assert request KeyringRequestStruct ;;;
    runSensitive (asyncSubmitRequest request)
      "An unexpected error occurred".

End Operations.

(** *** Notions used in the statements *)

(** The wallet shares the custodian session of the event: its token is
    the old refresh token and its API URL is the one of the event. *)
Definition matchesEvent (payload : IRefreshTokenChangeEvent) (w : Wallet)
  : bool :=
  String.eqb (token (details w)) (oldRefreshToken payload)
  && String.eqb (custodianApiUrl (details w)) (apiUrl payload).

(** The wallet with the new refresh token of the event. *)
Definition rotated (payload : IRefreshTokenChangeEvent) (w : Wallet)
  : Wallet :=
  {| account := account w;
     details := withToken (newRefreshToken payload) (details w) |}.

Definition walletId (w : Wallet) : string := Account.id (account w).
Definition walletAddress (w : Wallet) : string :=
  Account.address (account w).

(** One turn of the loop of [#handleTokenChangedEvent] for the wallet
    [w]. *)
Definition evictAndUpdate (payload : IRefreshTokenChangeEvent)
    (s : State) (w : Wallet) : State :=
  let s1 := setCustodianApi (delete (walletAddress w) (custodianApi s)) s in
  setWallets
    (map (fun x =>
            if String.eqb (walletId x) (walletId w)
            then {| account := account x;
                    details := withToken (newRefreshToken payload)
                                 (details w) |}
            else x)
         (wallets s1)) s1.

(** The four methods that [#handleSigningRequest] dispatches. *)
Definition dispatched (method : string) : bool :=
  String.eqb method EthMethod.PersonalSign
  || String.eqb method EthMethod.SignTransaction
  || String.eqb method EthMethod.SignTypedDataV3
  || String.eqb method EthMethod.SignTypedDataV4.

(** The computation keeps the property [P] of the state, whether it
    returns or throws. *)
Definition preserves {A} (P : State -> Prop) (m : M A) : Prop :=
  forall s, P s -> P (snd (m s)).

(** The state after a cache miss of [getCustodianApiForAddress] for the
    checksum address [k], served by the wallet [w]. *)
Definition registered (k : string) (w : Wallet) (s : State) : State :=
  setCustodianApi
    (<[k := newCustodianApi (constructed s) (details w)]> (custodianApi s))
    (setConstructed (S (constructed s)) s).

(** Every key of the registry is an address in checksum form. *)
Definition keysNormalized (s : State) : Prop :=
  forall k api,
    custodianApi s !! k = Some api ->
    EthUtil.toChecksumAddress k = Some k.

(** At most one API object is registered for a normalized address: two
    entries whose keys have the same checksum form are one entry. *)
Definition oneClientPerAddress (s : State) : Prop :=
  forall k1 k2 api1 api2,
    custodianApi s !! k1 = Some api1 ->
    custodianApi s !! k2 = Some api2 ->
    EthUtil.toChecksumAddress k1 = EthUtil.toChecksumAddress k2 ->
    k1 = k2 /\ api1 = api2.

(** The request gets past the check that [submitRequest] makes before
    the flow; the development mode makes none. *)
Definition admitted (env : Env) (request : KeyringRequest.t) : Prop :=
  dev env = true \/ KeyringRequestStruct request = Ok tt.

(** What can happen to a keyring: the calls of its public operations,
    each in its own environment, and the delivery of a token-change event
    of one of its API objects. A call of [getCustodianApiForAddress] may
    also have been suspended at its [await] while other steps ran:
    [ResumeLookup] is the rest of such a call, for the address it was
    made with. *)
Inductive Command :=
| CreateAccount (env : Env) (options : CreateAccountOptions.t)
| DeleteAccount (env : Env) (id : string)
| ListRequests (env : Env)
| GetRequest (env : Env) (id : string)
| SubmitRequest (env : Env) (request : KeyringRequest.t)
| GetCustodianApiForAddress (env : Env) (address : string)
| ResumeLookup (env : Env) (address : string)
| TokenChanged (payload : IRefreshTokenChangeEvent).

Definition execute (s : State) (c : Command) : State :=
  match c with
  | CreateAccount env options => snd (createAccount env options s)
  | DeleteAccount env id => snd (deleteAccount env id s)
  | ListRequests env => snd (listRequests env s)
  | GetRequest env id => snd (getRequest env id s)
  | SubmitRequest env request => snd (submitRequest env request s)
  | GetCustodianApiForAddress env address =>
      snd (getCustodianApiForAddress env address s)
  | ResumeLookup env address =>
      match EthUtil.toChecksumAddress address with
      | Some checksumAddress =>
          snd (registerCustodianApi env address checksumAddress s)
      | None => s
      end
  | TokenChanged payload => snd (handleTokenChangedEvent payload s)
  end.

(** The states a keyring goes through from its construction: its
    operations run one after the other, except that lookups of API
    objects may be resumed at any later step. *)
Definition reachable (s : State) : Prop :=
  exists commands, s = fold_left execute commands emptyState.

(** *** Concrete inputs used in examples *)

Module Scenario.

Definition accept : KeyringEvent -> Result unit := fun _ => Ok tt.

Definition veto : KeyringEvent -> Result unit :=
  fun _ => Err (Thrown "User rejected the request.").

Definition link (custodianId : string) : CustodianDeepLink.t :=
  {| CustodianDeepLink.text := "View in Custodian App";
     CustodianDeepLink.id := custodianId;
     CustodianDeepLink.url := "https://custodian.example.com/" ++ custodianId;
     CustodianDeepLink.action := "view" |}.

Definition caseInsensitive (a b : string) : bool :=
  String.eqb (EthUtil.toLowerCase a) (EthUtil.toLowerCase b).

(** A production environment with one allow-listed custodian, whose
    custodian signs everything and serves deep links. *)
Definition env (same : string -> string -> bool) (id : string)
    (answer : KeyringEvent -> Result unit) (linksWork : bool) : Env :=
  {| dev := false;
     custodianMetadata :=
       [ {| CustodianMetadata.apiBaseUrl := "https://mock-url.com";
            CustodianMetadata.name := "test-custodian";
            CustodianMetadata.displayName := Some "Test Custodian";
            CustodianMetadata.production := Some true;
            CustodianMetadata.apiVersion := ECA3;
            CustodianMetadata.custodianPublishesTransaction := false |} ];
     sameAddress := same;
     uuid := id;
     now := 1700000000000%Z;
     emitSnapKeyringEvent := answer;
     createTransactionPayload := fun tx => Ok (transactionData tx);
     signMessage := fun _ _ => Ok {| signedMessageId := "msg-1" |};
     createTransaction :=
       fun _ _ => Ok {| custodianTransactionId := "tx-1" |};
     getLink :=
       fun _ op =>
         if linksWork then
           match op with
           | GetTransactionLink i | GetSignedMessageLink i => Ok (link i)
           | _ => Err (Thrown "not a link request")
           end
         else Err (Thrown "Method not supported");
     removeAccountsError := fun _ => Thrown "Account does not exist" |}.

Definition connection (t u : string) : OnBoardingRpcRequest :=
  {| token := t;
     custodianApiUrl := u;
     custodianType := ECA3;
     refreshTokenUrl := "https://refresh.example.com";
     custodianEnvironment := "test";
     custodianDisplayName := "Test Custodian" |}.

Definition options (a t u : string) : CreateAccountOptions.t :=
  {| CreateAccountOptions.name := Some "Test Account";
     CreateAccountOptions.address := a;
     CreateAccountOptions.details := connection t u;
     CreateAccountOptions.origin := "test-origin" |}.

Definition wallet (i a t u : string) : Wallet :=
  {| account :=
       {| Account.id := i;
          Account.options :=
            {| custodian :=
                 {| environmentName := "test-custodian";
                    displayName := "Test Custodian";
                    deferPublication := false;
                    importOrigin := "test-origin" |};
               accountName := Some "Test Account" |};
          Account.address := a;
          Account.methods :=
            [ EthMethod.SignTransaction; EthMethod.PersonalSign;
              EthMethod.SignTypedDataV3; EthMethod.SignTypedDataV4 ];
          Account.type := EthAccountType_Eoa |};
     details := connection t u |}.

(** The three wallets of the fan-out example: two share (T, U), the
    third has (T, V). *)
Definition threeWallets : State :=
  setWallets
    [ wallet "1" "0x123" "T" "U";
      wallet "2" "0x456" "T" "U";
      wallet "3" "0x789" "T" "V" ] emptyState.

Definition rotation : IRefreshTokenChangeEvent :=
  {| apiUrl := "U"; oldRefreshToken := "T"; newRefreshToken := "N" |}.

(** Two addresses as a custodian may spell them, in lower case, and
    their checksum forms. *)
Definition lower1 : string := "0xf7bde8609231033c69e502c08f85153f8a1548f2".
Definition checksum1 : string := "0xf7bDe8609231033c69E502C08f85153f8A1548F2".
Definition upper1 : string := "0xF7BDE8609231033C69E502C08F85153F8A1548F2".
Definition lower2 : string := "0x5aaeb6053f3e94c9b9a09f33669435e7ef1beaed".
Definition checksum2 : string := "0x5aAeb6053F3E94C9b9A09f33669435E7Ef1BeAed".

Definition mockUrl : string := "https://mock-url.com".

Definition mockRotation : IRefreshTokenChangeEvent :=
  {| apiUrl := mockUrl; oldRefreshToken := "T"; newRefreshToken := "N" |}.

(** The API object number [n] of the session (T, mockUrl). *)
Definition sessionApi (n : nat) : CustodianApi :=
  newCustodianApi n (connection "T" mockUrl).

(** Two accounts of one custodian session are imported with their
    addresses in lower case, by a keyring whose state manager compares
    addresses without regard to case, and an API object is obtained for
    each. *)
Definition twoClients : State :=
  fold_left execute
    [ CreateAccount (env caseInsensitive "1" accept true)
        (options lower1 "T" mockUrl);
      CreateAccount (env caseInsensitive "2" accept true)
        (options lower2 "T" mockUrl);
      GetCustodianApiForAddress (env caseInsensitive "" accept true) lower1;
      GetCustodianApiForAddress (env caseInsensitive "" accept true) lower2 ]
    emptyState.

(** The same two accounts imported with their addresses in checksum
    form. *)
Definition twoChecksummedClients : State :=
  fold_left execute
    [ CreateAccount (env String.eqb "1" accept true)
        (options checksum1 "T" mockUrl);
      CreateAccount (env String.eqb "2" accept true)
        (options checksum2 "T" mockUrl);
      GetCustodianApiForAddress (env String.eqb "" accept true) checksum1;
      GetCustodianApiForAddress (env String.eqb "" accept true) checksum2 ]
    emptyState.

(** An account is imported in checksum form and used, then removed, and
    imported again in lower case; the state manager compares addresses
    strictly. *)
Definition reimported : State :=
  fold_left execute
    [ CreateAccount (env String.eqb "1" accept true)
        (options checksum1 "T" mockUrl);
      GetCustodianApiForAddress (env String.eqb "" accept true) checksum1;
      DeleteAccount (env String.eqb "" accept true) "1";
      CreateAccount (env String.eqb "2" accept true)
        (options lower1 "T" mockUrl) ]
    emptyState.

Definition signTransactionRequest (accountId from : string)
  : KeyringRequest.t :=
  {| KeyringRequest.id := "7d2c1a34-9b1e-4c0a-8f55-2f1f3a6b9c10";
     KeyringRequest.scope := "scope-1";
     KeyringRequest.account := accountId;
     KeyringRequest.method := EthMethod.SignTransaction;
     KeyringRequest.params :=
       Some [JTransaction {| from := from; chainId := "0x1";
                             transactionData := "0x" |}] |}.

Definition personalSign (accountId from : string) : KeyringRequest.t :=
  {| KeyringRequest.id := "1cf42f0b-2512-4b6b-b5a5-138d9cbfa0e1";
     KeyringRequest.scope := "scope-1";
     KeyringRequest.account := accountId;
     KeyringRequest.method := EthMethod.PersonalSign;
     KeyringRequest.params := Some [JString "message"; JString from] |}.

(** One account, imported in checksum form. *)
Definition oneAccount : State :=
  execute emptyState
    (CreateAccount (env String.eqb "1" accept true)
       (options checksum1 "T" mockUrl)).

(** The same account under an id as [uuid()] gives them, for the
    requests that reach [submitRequest] outside the development mode. *)
Definition accountId : string := "3ae4b404-8cdb-4c5c-bcd9-ec904f2a9876".

Definition imported : State :=
  execute emptyState
    (CreateAccount (env String.eqb accountId accept true)
       (options checksum1 "T" mockUrl)).

End Scenario.

End Keyring.

(** ** Notions used in the statements *)

(** [after] is [before] with the refresh token replaced by [t] and one
    REFRESH_TOKEN_CHANGE_EVENT emitted for it, and nothing else emitted. *)
Definition rotationEmitted (before after : Client) (t : string) : Prop :=
  refreshToken after = t
  /\ emitted after
     = (emitted before
        ++ [RefreshTokenChange
              {| apiUrl := apiBaseUrl before;
                 oldRefreshToken := refreshToken before;
                 newRefreshToken := t |}])%list.

(** Nothing was emitted between [before] and [after], and the refresh token
    is the same. *)
Definition noRotation (before after : Client) : Prop :=
  refreshToken after = refreshToken before
  /\ emitted after = emitted before.

(** The error with which [getAccessToken] fails when the refresh token is
    dead. *)
Definition refreshTokenInvalid : Error :=
  accessTokenError (Thrown "Refresh token provided is no longer valid.").

(** The signature shared by the two [getAccessToken]. *)
Definition AccessTokenGetter : Type :=
  (FetchRequest -> FetchOutcome) -> Z -> Client
  -> Result (option string) * Client.

(** Concrete inputs used in examples. *)
Module Sample.

Definition client : Client :=
  newClient "https://api.example.com" "oldToken" "https://refresh.example.com".

Definition responseJson (u : option string) (rt : option string)
  : RefreshResponseJson :=
  {| url := u; message_ := None; access_token := Some "access-1";
     expires_in := Some 3600%Z; refresh_token := rt |}.

Definition answer (st : Z) (u rt : option string)
  : FetchRequest -> FetchOutcome :=
  fun _ => Responded {| status := st; json := Ok (responseJson u rt) |}.

(** A client that fetched its access token at time 1000. *)
Definition warmClient : Client :=
  snd (ECA3Client.getAccessToken (answer 200%Z None None) 1000%Z client).

End Sample.

(** The two protocol generations behind one interface. *)
Inductive Generation := Gen1 | Gen3.

Definition getAccessTokenOf (g : Generation) : AccessTokenGetter :=
  match g with
  | Gen1 => ECA1Client.getAccessToken
  | Gen3 => ECA3Client.getAccessToken
  end.

Definition refreshRequestOf (g : Generation) : Client -> FetchRequest :=
  match g with
  | Gen1 => ECA1Client.refreshRequest
  | Gen3 => ECA3Client.refreshRequest
  end.

(** A lower-case hexadecimal digit. *)
Definition lowerHex (c : ascii) : Prop :=
  EthUtil.isHexDigit c = true /\ EthUtil.lowerChar c = c.

(** [v] is another spelling of the address [a]: both are 0x-prefixed
    hexadecimal strings and they differ in the case of letters only. *)
Definition caseVariant (v a : string) : Prop :=
  EthUtil.isHexString v = true
  /\ EthUtil.isHexString a = true
  /\ EthUtil.toLowerCase v = EthUtil.toLowerCase a.

(** ** Further notions for the protocol clients *)

(** The endpoints of [after] are those of [before]. *)
Definition sameEndpoints (before after : Client) : Prop :=
  apiBaseUrl after = apiBaseUrl before
  /\ refreshTokenUrl after = refreshTokenUrl before.

(** [after] holds the refresh token and the cached access token of
    [before]. *)
Definition sameCredentials (before after : Client) : Prop :=
  refreshToken after = refreshToken before
  /\ cacheAge after = cacheAge before
  /\ cache after = cache before.

(** The grant that a client with these fields sends. *)
Definition carries (request : FetchRequest) (c : Client) : Prop :=
  requestUrl request = refreshTokenUrl c
  /\ grant_type request = "refresh_token"
  /\ grant_refresh_token request = refreshToken c.

(** ** The capability methods of the protocol clients *)

(** One use of [#call], the function that the factory of
    util/json-rpc-call (not among the sources) returns for an endpoint:
    the endpoint, the JSON-RPC method, the parameters ([None] for the
    empty object) and the access token. *)
Record RpcCall (P : Type) := {
  endpoint : string;
  rpcMethod : string;
  rpcParams : option P;
  accessToken : option string;
}.
Arguments endpoint {P} r.
Arguments rpcMethod {P} r.
Arguments rpcParams {P} r.
Arguments accessToken {P} r.

(** The shape of every capability method:
    [const accessToken = await this.getAccessToken();
     return this.#call(method, params, accessToken)].
    The result, the client afterwards and the JSON-RPC calls made;
    [send] is the answer of the endpoint. *)
Definition callWithToken {P R : Type} (getAccessToken : AccessTokenGetter)
    (jsonRpcUrl : string) (send : RpcCall P -> Result R)
    (fetch : FetchRequest -> FetchOutcome) (now : Z)
    (method : string) (params : option P) (c : Client)
  : Result R * Client * list (RpcCall P) :=
  match getAccessToken fetch now c with
  | (Err error, c') => (Err error, c', [])
  | (Ok token, c') =>
      let call :=
        {| endpoint := jsonRpcUrl; rpcMethod := method;
           rpcParams := params; accessToken := token |} in
      (send call, c', [call])
  end.

Module ECA1Capabilities.

(** The capability methods of [ECA1Client], each with its payload. *)
Inductive Invocation (P : Type) :=
| listAccounts
| getCustomerProof
| createTransaction (createTransactionPayload : P)
| getAccountChainIds (listAccountChainIdPayload : P)
| signPersonalMessage (signPayload : P)
| signTypedData (signPayload : P)
| getTransaction (getTransactionPayload : P)
| getSignedMessage (getSignedMessagePayload : P)
| getTransactionLink (getTransactionLinkPayload : P).
Arguments listAccounts {P}.
Arguments getCustomerProof {P}.
Arguments createTransaction {P} _.
Arguments getAccountChainIds {P} _.
Arguments signPersonalMessage {P} _.
Arguments signTypedData {P} _.
Arguments getTransaction {P} _.
Arguments getSignedMessage {P} _.
Arguments getTransactionLink {P} _.

Definition rpcMethodOf {P} (i : Invocation P) : string :=
  match i with
  | listAccounts => "custodian_listAccounts"
  | getCustomerProof => "custodian_getCustomerProof"
  | createTransaction _ => "custodian_createTransaction"
  | getAccountChainIds _ => "custodian_listAccountChainIds"
  | signPersonalMessage _ => "custodian_sign"
  | signTypedData _ => "custodian_signTypedData"
  | getTransaction _ => "custodian_getTransactionById"
  | getSignedMessage _ => "custodian_getSignedMessageById"
  | getTransactionLink _ => "custodian_getTransactionLink"
  end.

Definition rpcParamsOf {P} (i : Invocation P) : option P :=
  match i with
  | listAccounts | getCustomerProof => None
  | createTransaction p | getAccountChainIds p | signPersonalMessage p
  | signTypedData p | getTransaction p | getSignedMessage p
  | getTransactionLink p => Some p
  end.

(** [factory(`${apiBaseUrl}/v1/json-rpc`)]. *)
Definition jsonRpcUrl (c : Client) : string :=
  apiBaseUrl c ++ "/v1/json-rpc".

Definition invoke {P R} (send : RpcCall P -> Result R)
    (fetch : FetchRequest -> FetchOutcome) (now : Z) (i : Invocation P)
    (c : Client) : Result R * Client * list (RpcCall P) :=
  callWithToken ECA1Client.getAccessToken (jsonRpcUrl c) send fetch now
    (rpcMethodOf i) (rpcParamsOf i) c.

End ECA1Capabilities.

Module ECA3Capabilities.

(** The capability methods of [ECA3Client], each with its payload. *)
Inductive Invocation (P : Type) :=
| listAccounts
| listAccountsSigned
| replaceTransaction (replaceTransactionPayload : P)
| getCustomerProof
| createTransaction (createTransactionPayload : P)
| getAccountChainIds (listAccountChainIdPayload : P)
| signPersonalMessage (signPayload : P)
| signTypedData (signPayload : P)
| getTransaction (getTransactionPayload : P)
| getSignedMessage (getSignedMessagePayload : P)
| getTransactionLink (getTransactionLinkPayload : P)
| getSignedMessageLink (getSignedMessageLinkPayload : P).
Arguments listAccounts {P}.
Arguments listAccountsSigned {P}.
Arguments replaceTransaction {P} _.
Arguments getCustomerProof {P}.
Arguments createTransaction {P} _.
Arguments getAccountChainIds {P} _.
Arguments signPersonalMessage {P} _.
Arguments signTypedData {P} _.
Arguments getTransaction {P} _.
Arguments getSignedMessage {P} _.
Arguments getTransactionLink {P} _.
Arguments getSignedMessageLink {P} _.

Definition rpcMethodOf {P} (i : Invocation P) : string :=
  match i with
  | listAccounts => "custodian_listAccounts"
  | listAccountsSigned => "custodian_listAccountsSigned"
  | replaceTransaction _ => "custodian_replaceTransaction"
  | getCustomerProof => "custodian_getCustomerProof"
  | createTransaction _ => "custodian_createTransaction"
  | getAccountChainIds _ => "custodian_listAccountChainIds"
  | signPersonalMessage _ => "custodian_sign"
  | signTypedData _ => "custodian_signTypedData"
  | getTransaction _ => "custodian_getTransactionById"
  | getSignedMessage _ => "custodian_getSignedMessageById"
  | getTransactionLink _ => "custodian_getTransactionLink"
  | getSignedMessageLink _ => "custodian_getSignedMessageLink"
  end.

Definition rpcParamsOf {P} (i : Invocation P) : option P :=
  match i with
  | listAccounts | listAccountsSigned | getCustomerProof => None
  | replaceTransaction p | createTransaction p | getAccountChainIds p
  | signPersonalMessage p | signTypedData p | getTransaction p
  | getSignedMessage p | getTransactionLink p | getSignedMessageLink p =>
      Some p
  end.

(** [factory(`${apiBaseUrl}/v3/json-rpc`)]. *)
Definition jsonRpcUrl (c : Client) : string :=
  apiBaseUrl c ++ "/v3/json-rpc".

Definition invoke {P R} (send : RpcCall P -> Result R)
    (fetch : FetchRequest -> FetchOutcome) (now : Z) (i : Invocation P)
    (c : Client) : Result R * Client * list (RpcCall P) :=
  callWithToken ECA3Client.getAccessToken (jsonRpcUrl c) send fetch now
    (rpcMethodOf i) (rpcParamsOf i) c.

End ECA3Capabilities.

(** A capability method of either client. *)
Inductive Capability (P : Type) :=
| OfECA1 (i : ECA1Capabilities.Invocation P)
| OfECA3 (i : ECA3Capabilities.Invocation P).
Arguments OfECA1 {P} i.
Arguments OfECA3 {P} i.

Definition generationOf {P} (m : Capability P) : Generation :=
  match m with OfECA1 _ => Gen1 | OfECA3 _ => Gen3 end.

Definition invokeOf {P R} (send : RpcCall P -> Result R)
    (fetch : FetchRequest -> FetchOutcome) (now : Z) (m : Capability P)
    (c : Client) : Result R * Client * list (RpcCall P) :=
  match m with
  | OfECA1 i => ECA1Capabilities.invoke send fetch now i c
  | OfECA3 i => ECA3Capabilities.invoke send fetch now i c
  end.

(** The JSON-RPC call that the capability method makes with the access
    token [t]. *)
Definition rpcCallOf {P} (m : Capability P) (c : Client)
    (t : option string) : RpcCall P :=
  match m with
  | OfECA1 i =>
      {| endpoint := apiBaseUrl c ++ "/v1/json-rpc";
         rpcMethod := ECA1Capabilities.rpcMethodOf i;
         rpcParams := ECA1Capabilities.rpcParamsOf i;
         accessToken := t |}
  | OfECA3 i =>
      {| endpoint := apiBaseUrl c ++ "/v3/json-rpc";
         rpcMethod := ECA3Capabilities.rpcMethodOf i;
         rpcParams := ECA3Capabilities.rpcParamsOf i;
         accessToken := t |}
  end.

(** ** The custodial keyring: the remaining operations *)

Module CustodialKeyring.
Import Keyring.

(** [ConnectionStatusRpcRequest], with the fields that
    [getConnectedAccounts] reads. *)
Module ConnectionStatusRpcRequest.
Record t := {
  token : string;
  custodianApiUrl : string;
  custodianType : CustodianType;
  custodianEnvironment : string;
}.
End ConnectionStatusRpcRequest.

(** [===] on the custodian types. *)
Definition sameCustodianType (a b : CustodianType) : bool :=
  match a, b with
  | ECA3, ECA3 | ECA1, ECA1 | BitGo, BitGo | Cactus, Cactus => true
  | _, _ => false
  end.

(** The test of the filter of [getConnectedAccounts]. *)
Definition connected (details : ConnectionStatusRpcRequest.t)
    (origin : string) (wallet : Wallet) : bool :=
  String.eqb (token (Keyring.details wallet))
             (ConnectionStatusRpcRequest.token details)
  && String.eqb (custodianApiUrl (Keyring.details wallet))
                (ConnectionStatusRpcRequest.custodianApiUrl details)
  && sameCustodianType (custodianType (Keyring.details wallet))
                       (ConnectionStatusRpcRequest.custodianType details)
  && String.eqb (custodianEnvironment (Keyring.details wallet))
                (ConnectionStatusRpcRequest.custodianEnvironment details)
  && String.eqb
       (importOrigin (custodian (Account.options (account wallet))))
       origin.

Definition getConnectedAccounts (details : ConnectionStatusRpcRequest.t)
    (origin : string) : M (list Account.t) :=
  wallets <- StateManager.listWallets ;;
  let matchingWallets := List.filter (connected details origin) wallets in
  ret (map account matchingWallets).

(** [chains.filter((chain) => supportedChains.includes(convert(chain)))],
    where the conversion helper may throw: the first chain that it refuses
    ends the filter. *)
Fixpoint filterChains (convert : string -> Result string)
    (supportedChains : list string) (chains : list string)
  : Result (list string) :=
  match chains with
  | [] => Ok []
  | chain :: rest =>
      match convert chain with
      | Err error => Err error
      | Ok converted =>
          match filterChains convert supportedChains rest with
          | Err error => Err error
          | Ok kept =>
              Ok (if List.existsb (String.eqb converted) supportedChains
                  then chain :: kept else kept)
          end
      end
  end.

(** [filterAccountChains]. Two collaborators that are not among the
    sources answer from outside: [getSupportedChains] of the API object,
    and the helper [convertHexChainIdToCaip2Decimal]. *)
Definition filterAccountChains (env : Env)
    (getSupportedChains : CustodianApi -> Result (list string))
    (convertHexChainIdToCaip2Decimal : string -> Result string)
    (id : string) (chains : list string) : M (list string) :=
  account <- getAccount id ;;
  match account with
  | None => throw (AccountNotFound id)
  | Some account =>
      custodianApi <-
        getCustodianApiForAddress env (Account.address account) ;;
      supportedChains <- liftResult (getSupportedChains custodianApi) ;;
      liftResult
        (filterChains convertHexChainIdToCaip2Decimal supportedChains chains)
  end.

(** The connection-status question that the details of an onboarding
    answer. *)
Definition statusOf (d : OnBoardingRpcRequest)
  : ConnectionStatusRpcRequest.t :=
  {| ConnectionStatusRpcRequest.token := token d;
     ConnectionStatusRpcRequest.custodianApiUrl := custodianApiUrl d;
     ConnectionStatusRpcRequest.custodianType := custodianType d;
     ConnectionStatusRpcRequest.custodianEnvironment :=
       custodianEnvironment d |}.

(** The question [q] asked with another token. *)
Definition askedWith (t : string) (q : ConnectionStatusRpcRequest.t)
  : ConnectionStatusRpcRequest.t :=
  {| ConnectionStatusRpcRequest.token := t;
     ConnectionStatusRpcRequest.custodianApiUrl :=
       ConnectionStatusRpcRequest.custodianApiUrl q;
     ConnectionStatusRpcRequest.custodianType :=
       ConnectionStatusRpcRequest.custodianType q;
     ConnectionStatusRpcRequest.custodianEnvironment :=
       ConnectionStatusRpcRequest.custodianEnvironment q |}.

(** Between [s] and [s'] nothing was stored, sent or shown: the registry
    of API objects apart, the two states are the same. *)
Definition registryOnly (s s' : State) : Prop :=
  wallets s' = wallets s
  /\ requests s' = requests s
  /\ keyringEvents s' = keyringEvents s
  /\ custodianCalls s' = custodianCalls s
  /\ infoMessages s' = infoMessages s.

(** The one call that a signing step made on an API object, and its
    answer: [s'] has the custodian calls of [s] and then this one. *)
Definition calledOnce (s s' : State) (api : CustodianApi)
    (op : CustodianOperation) : Prop :=
  custodianCalls s' = (custodianCalls s ++ [(api, op)])%list.

(** The requests of [s'] are those of [s] with [record] upserted. *)
Definition upserted (record : SnapRequest.t) (s s' : State) : Prop :=
  requests s'
  = requests (snd (RequestManagerFacade.upsertRequest record s)).

(** The record that a signing request leaves with the request manager is
    the one of [keyringRequest], open: neither fulfilled nor rejected. *)
Definition openRecordOf (keyringRequest : KeyringRequest.t)
    (r : SnapRequest.t) : Prop :=
  SnapRequest.keyringRequest r = keyringRequest
  /\ SnapRequest.fulfilled r = false
  /\ SnapRequest.rejected r = false
  /\ SnapRequest.signature r = None.

End CustodialKeyring.

(** ** The entry points of the snap *)

Module Snap.
Import Keyring.

(** An account as the custodian lists it and as the onboarding dialog
    returns it. *)
Module OnboardingAccount.
Record t := {
  address : string;
  name : option string;
}.
End OnboardingAccount.

(** The calls of the entry points on their collaborators other than the
    keyring, none of which is among the sources: the state manager
    ([setActivated], [syncDevMode], [getActivated]), the sleep state, the
    client status, the request manager ([poll]), the API object built for
    an onboarding and the dialogs. *)
Inductive Effect :=
| SetActivated (value : bool)
| SetSleepState (value : bool)
| GetSleepState
| GetClientStatus
| SyncDevMode
| GetActivated
| Poll
| GetEthereumAccounts (connection : OnBoardingRpcRequest)
| RenderOnboarding (request : OnBoardingRpcRequest)
    (accounts : list OnboardingAccount.t)
| RenderErrorMessage (text : string).

(** What the collaborators answer during one cron job. The calls on the
    state manager and on the sleep state are taken to return. *)
Record Status := {
  asleep : bool;               (* getSleepState() *)
  locked : bool;               (* getClientStatus().locked *)
  activated : bool;            (* stateManager.getActivated() *)
  polled : Result unit;        (* requestManager.poll() *)
}.

Definition pollRequests (w : Status) : Result unit * list Effect :=
  (polled w, [Poll]).

Definition lockedOrInactive (w : Status) : bool * list Effect :=
  if locked w then (true, [GetClientStatus])
  else if negb (activated w) then
    (true, [GetClientStatus; SyncDevMode; GetActivated])
  else (false, [GetClientStatus; SyncDevMode; GetActivated]).

Definition onCronjob (w : Status) (method : string)
  : Result unit * list Effect :=
  if String.eqb method "execute" then
    if asleep w then (Ok tt, [GetSleepState])
    else
      let (shouldSleep, checked) := lockedOrInactive w in
      if shouldSleep then
        (Ok tt, ([GetSleepState] ++ checked ++ [SetSleepState true])%list)
      else
        let (outcome, done) := pollRequests w in
        (outcome, ([GetSleepState] ++ checked ++ done)%list)
  else if String.eqb method "manageSleepState" then
    let (shouldSleep, checked) := lockedOrInactive w in
    if shouldSleep then (Ok tt, (checked ++ [SetSleepState true])%list)
    else (Ok tt, (checked ++ [SetSleepState false])%list)
  else (Err (Thrown "Method not found."), []).

(** What the collaborators answer during one onboarding: the API object
    built from the request (the events that it emits while it lists the
    accounts, and its answer), the dialog (an error, null, or the accounts
    chosen), and the environment of the keyring at each of its
    [createAccount] calls, numbered from 0. *)
Record Onboarding := {
  getEthereumAccounts :
    OnBoardingRpcRequest
    -> list IRefreshTokenChangeEvent * Result (list OnboardingAccount.t);
  renderOnboarding :
    OnBoardingRpcRequest -> list OnboardingAccount.t
    -> Result (option (list OnboardingAccount.t));
  keyringEnv : nat -> Env;
}.

(** The listener registered on the API object:
    [request.token = event.newRefreshToken]. *)
Definition onRefreshTokenChange (request : OnBoardingRpcRequest)
    (event : IRefreshTokenChangeEvent) : OnBoardingRpcRequest :=
  withToken (newRefreshToken event) request.

(** The loop that drops the accounts already in the keyring. *)
Definition withoutExisting (existingAccounts : list Account.t)
    (accounts : list OnboardingAccount.t) : list OnboardingAccount.t :=
  fold_left
    (fun accounts existingAccount =>
       List.filter
         (fun account =>
            negb (String.eqb (OnboardingAccount.address account)
                             (Account.address existingAccount)))
         accounts)
    existingAccounts accounts.

(** The loop over [accountsToAdd]: the accounts added, the failures, and
    the state of the keyring at the end; [n] numbers the calls of
    [createAccount]. *)
Fixpoint createAccounts (envs : nat -> Env) (n : nat)
    (accountsToAdd : list CreateAccountOptions.t) (s : State)
  : list CreateAccountOptions.t
    * list (CreateAccountOptions.t * Error) * State :=
  match accountsToAdd with
  | [] => ([], [], s)
  | account :: rest =>
      match createAccount (envs n) account s with
      | (Ok _, s1) =>
          let '(added, failed, s2) := createAccounts envs (S n) rest s1 in
          (account :: added, failed, s2)
      | (Err error, s1) =>
          let '(added, failed, s2) := createAccounts envs (S n) rest s1 in
          (added, (account, error) :: failed, s2)
      end
  end.

(** Calls of [createAccount] made one after the other, the first in the
    environment [envs n] and in the state [s], each of the others in the
    state that the call before it left: the options of each call with
    its outcome, and the state after the last. *)
Inductive Attempted (envs : nat -> Env)
  : nat -> State -> list (CreateAccountOptions.t * Result Account.t)
    -> State -> Prop :=
| attempted_none n s : Attempted envs n s [] s
| attempted_next n s options outcome s1 attempts s2 :
    createAccount (envs n) options s = (outcome, s1) ->
    Attempted envs (S n) s1 attempts s2 ->
    Attempted envs n s ((options, outcome) :: attempts) s2.

(** The options of the calls that returned, and the options and errors
    of the calls that threw, in the order of the calls. *)
Definition succeeded
    (attempts : list (CreateAccountOptions.t * Result Account.t))
  : list CreateAccountOptions.t :=
  flat_map
    (fun attempt =>
       match snd attempt with
       | Ok _ => [fst attempt]
       | Err _ => []
       end)
    attempts.

Definition failures
    (attempts : list (CreateAccountOptions.t * Result Account.t))
  : list (CreateAccountOptions.t * Error) :=
  flat_map
    (fun attempt =>
       match snd attempt with
       | Ok _ => []
       | Err error => [(fst attempt, error)]
       end)
    attempts.

Definition newline : string := String (ascii_of_nat 10) EmptyString.

Definition failureLine (failure : CreateAccountOptions.t * Error)
  : string :=
  "Failed to add account " ++ CreateAccountOptions.address (fst failure)
  ++ ": " ++ message (snd failure).

Definition accountToAdd (request : OnBoardingRpcRequest) (origin : string)
    (account : OnboardingAccount.t) : CreateAccountOptions.t :=
  {| CreateAccountOptions.name := OnboardingAccount.name account;
     CreateAccountOptions.address := OnboardingAccount.address account;
     CreateAccountOptions.details := request;
     CreateAccountOptions.origin := origin |}.

Definition handleOnboarding (w : Onboarding)
    (request : OnBoardingRpcRequest) (origin : string) (s : State)
  : Result (list CreateAccountOptions.t) * State * list Effect :=
  let started :=
    [SetActivated true; SetSleepState false; GetEthereumAccounts request] in
  let (events, answer) := getEthereumAccounts w request in
  let request := fold_left onRefreshTokenChange events request in
  match answer with
  | Err error => (Err error, s, started)
  | Ok accounts =>
      match listAccounts s with
      | (Err error, s) => (Err error, s, started)
      | (Ok existingAccounts, s) =>
          let accounts := withoutExisting existingAccounts accounts in
          let shown :=
            (started ++ [RenderOnboarding request accounts])%list in
          match renderOnboarding w request accounts with
          | Err error => (Err error, s, shown)
          | Ok None => (Ok [], s, shown)
          | Ok (Some result) =>
              let accountsToAdd := map (accountToAdd request origin) result in
              let '(successfullyAddedAccounts, failedAccounts, s) :=
                createAccounts (keyringEnv w) 0 accountsToAdd s in
              match failedAccounts with
              | [] => (Ok successfullyAddedAccounts, s, shown)
              | _ :: _ =>
                  let errorMessage :=
                    String.concat newline (map failureLine failedAccounts) in
                  (Ok successfullyAddedAccounts, s,
                   (shown ++ [RenderErrorMessage errorMessage])%list)
              end
          end
      end
  end.

(** The details that the accounts of an onboarding are created with: those
    of the request, with the refresh token of the last rotation that the
    API object announced. *)
Definition detailsUsed (w : Onboarding) (request : OnBoardingRpcRequest)
  : OnBoardingRpcRequest :=
  fold_left onRefreshTokenChange (fst (getEthereumAccounts w request))
    request.

(** The wallet is the one of an account created from [options]. *)
Definition walletOf (options : CreateAccountOptions.t) (wallet : Wallet)
  : Prop :=
  Account.address (account wallet) = CreateAccountOptions.address options
  /\ details wallet = CreateAccountOptions.details options
  /\ importOrigin (custodian (Account.options (account wallet)))
     = CreateAccountOptions.origin options
  /\ accountName (Account.options (account wallet))
     = CreateAccountOptions.name options.

(** What every onboarding does first: the snap is activated and woken, and
    the custodian is asked for its accounts. *)
Definition opening (request : OnBoardingRpcRequest) : list Effect :=
  [SetActivated true; SetSleepState false; GetEthereumAccounts request].

(** The address of the account is not the stored address of any wallet
    (as strings). *)
Definition unknownTo (s : State) (account : OnboardingAccount.t) : Prop :=
  forall wallet,
    In wallet (wallets s) ->
    Account.address (Keyring.account wallet)
    <> OnboardingAccount.address account.

End Snap.

(** ** Concrete inputs used in examples *)

Module Cases.
Import Keyring.

(** One account imported in checksum form, and its API object obtained. *)
Definition used : State :=
  fold_left execute
    [ CreateAccount (Scenario.env String.eqb "1" Scenario.accept true)
        (Scenario.options Scenario.checksum1 "T" Scenario.mockUrl);
      GetCustodianApiForAddress
        (Scenario.env String.eqb "" Scenario.accept true)
        Scenario.checksum1 ]
    emptyState.

(** The account that the first import of the scenarios creates. *)
Definition firstAccount : Account.t :=
  account (Scenario.wallet "1" Scenario.checksum1 "T" Scenario.mockUrl).

Definition secondAccount : Account.t :=
  account (Scenario.wallet "2" Scenario.checksum2 "T" Scenario.mockUrl).

(** A connection-status question about the session (t, U) of the
    fan-out example. *)
Definition question (t : string)
  : CustodialKeyring.ConnectionStatusRpcRequest.t :=
  {| CustodialKeyring.ConnectionStatusRpcRequest.token := t;
     CustodialKeyring.ConnectionStatusRpcRequest.custodianApiUrl := "U";
     CustodialKeyring.ConnectionStatusRpcRequest.custodianType := ECA3;
     CustodialKeyring.ConnectionStatusRpcRequest.custodianEnvironment :=
       "test" |}.

(** A custodian that supports two chains, and a conversion of the three
    hexadecimal chain ids that it knows. *)
Definition supportedChains : CustodianApi -> Result (list string) :=
  fun _ => Ok ["eip155:1"; "eip155:137"].

Definition convert (chain : string) : Result string :=
  if String.eqb chain "0x1" then Ok "eip155:1"
  else if String.eqb chain "0x89" then Ok "eip155:137"
  else if String.eqb chain "0xa" then Ok "eip155:10"
  else Err (Thrown ("Invalid chain id: " ++ chain)).

(** The environment of the scenarios with a custodian that refuses to
    sign. *)
Definition refusing : Env :=
  let e := Scenario.env String.eqb "" Scenario.accept true in
  {| dev := dev e;
     custodianMetadata := custodianMetadata e;
     sameAddress := sameAddress e;
     uuid := uuid e;
     now := now e;
     emitSnapKeyringEvent := emitSnapKeyringEvent e;
     createTransactionPayload := createTransactionPayload e;
     signMessage := fun _ _ => Err (Thrown "Policy violation");
     createTransaction := fun _ _ => Err (Thrown "Policy violation");
     getLink := getLink e;
     removeAccountsError := removeAccountsError e |}.

(** The custodian lists two accounts, after its API object announced the
    refresh token N; the user selects all the accounts offered; the
    receiver of the keyring events refuses the second account. *)
Definition listed : list Snap.OnboardingAccount.t :=
  [ {| Snap.OnboardingAccount.address := Scenario.checksum1;
       Snap.OnboardingAccount.name := Some "Account 1" |};
    {| Snap.OnboardingAccount.address := Scenario.checksum2;
       Snap.OnboardingAccount.name := Some "Account 2" |} ].

Definition onboarding : Snap.Onboarding :=
  {| Snap.getEthereumAccounts :=
       fun _ => ([Scenario.mockRotation], Ok listed);
     Snap.renderOnboarding := fun _ accounts => Ok (Some accounts);
     Snap.keyringEnv :=
       fun n =>
         match n with
         | 0 => Scenario.env String.eqb "1" Scenario.accept true
         | _ => Scenario.env String.eqb "2" Scenario.veto true
         end |}.

Definition request : OnBoardingRpcRequest :=
  Scenario.connection "T" Scenario.mockUrl.

(** The client is unlocked, the snap activated and awake. *)
Definition awake : Snap.Status :=
  {| Snap.asleep := false; Snap.locked := false; Snap.activated := true;
     Snap.polled := Ok tt |}.

End Cases.
(** * Properties *)

(** ** Test vectors of the primitives *)

Example sha256_abc :
  Sha256.sha256_hex "abc"
  = "ba7816bf8f01cfea414140de5dae2223b00361a396177a9cb410ff61f20015ad".
Proof. vm_compute. reflexivity. Qed.

Example sha256_empty :
  Sha256.sha256_hex ""
  = "e3b0c44298fc1c149afbf4c8996fb92427ae41e4649b934ca495991b7852b855".
Proof. vm_compute. reflexivity. Qed.

Example keccak256_empty :
  Bytes.to_hex (Keccak.keccak256 [])
  = "c5d2460186f7233c927e7db2dcc703c0e500b653ca82273b7bfad8045d85a470".
Proof. vm_compute. reflexivity. Qed.

Example sha256_long :
  Sha256.sha256_hex
    ("abcdbcdecdefdefgefghfghighijhijkijkljklmklmnlmnomnopnopq"
     ++ "abcdbcdecdefdefgefghfghighijhijkijkljklmklmnlmnomnopnopq"
     ++ "abcdbcdecdefdefgefghfghighijhijkijkljklmklmnlmnomnopnopq")
  = "50ea825d9684f4229ca29f1fec511593e281e46a140d81e0005f8f688669a06c".
Proof. vm_compute. reflexivity. Qed.

Example checksum_test_address :
  EthUtil.toChecksumAddress "0xF7BDE8609231033C69E502C08F85153F8A1548F2"
  = Some "0xf7bDe8609231033c69E502C08f85153f8A1548F2".
Proof. vm_compute. reflexivity. Qed.

Example checksum_eip55 :
  EthUtil.toChecksumAddress "0x5aaeb6053f3e94c9b9a09f33669435e7ef1beaed"
  = Some "0x5aAeb6053F3E94C9b9A09f33669435E7Ef1BeAed".
Proof. vm_compute. reflexivity. Qed.

Example checksum_short : EthUtil.toChecksumAddress "0x123" = Some "0x123".
Proof. vm_compute. reflexivity. Qed.

(** ** The protocol clients *)

Section ClientFacts.

Local Opaque Sha256.sha256_hex.

Lemma handleRefreshResponse_fetched now outcome c :
  fetched (snd (handleRefreshResponse now outcome c)) = fetched c.
Proof.
  unfold handleRefreshResponse.
  destruct outcome as [response | e]; [ | reflexivity ].
  destruct (json response) as [body | e]; [ | reflexivity ].
  repeat match goal with
         | |- context [if ?b then _ else _] => destruct b
         end; reflexivity.
Qed.

(** A call that finds no usable cached token sends exactly one request. *)
Lemma getAccessToken_refresh_ECA1 fetch now c :
  cachedTokenUsable now c = false ->
  ECA1Client.getAccessToken fetch now c
  = handleRefreshResponse now (fetch (ECA1Client.refreshRequest c))
      (doFetch (ECA1Client.refreshRequest c) c).
Proof. intros H. unfold ECA1Client.getAccessToken. now rewrite H. Qed.

Lemma getAccessToken_refresh_ECA3 fetch now c :
  cachedTokenUsable now c = false ->
  ECA3Client.getAccessToken fetch now c
  = handleRefreshResponse now (fetch (ECA3Client.refreshRequest c))
      (doFetch (ECA3Client.refreshRequest c) c).
Proof. intros H. unfold ECA3Client.getAccessToken. now rewrite H. Qed.

Lemma cachedTokenUsable_falsy_age now c :
  cacheAge c = None \/ cacheAge c = Some 0%Z ->
  cachedTokenUsable now c = false.
Proof. unfold cachedTokenUsable. intros [-> | ->]; reflexivity. Qed.

Lemma cachedTokenUsable_valid now c age e :
  cacheAge c = Some age -> (0 < age)%Z ->
  cache c !! "accessToken" = Some e ->
  SimpleCache.cacheValid "accessToken" age now (cache c) = true ->
  cachedTokenUsable now c = true
  /\ SimpleCache.getCache "accessToken" (cache c)
     = Ok (SimpleCache.results e).
Proof.
  intros Hage Hpos He Hvalid.
  unfold cachedTokenUsable, SimpleCache.cacheExists, SimpleCache.getCache.
  rewrite Hage, He, Hvalid. simpl.
  destruct (Z.eqb_spec age 0); [lia | auto].
Qed.

Lemma getAccessTokenOf_refresh g fetch now c :
  cachedTokenUsable now c = false ->
  getAccessTokenOf g fetch now c
  = handleRefreshResponse now (fetch (refreshRequestOf g c))
      (doFetch (refreshRequestOf g c) c).
Proof.
  destruct g; [apply getAccessToken_refresh_ECA1
              | apply getAccessToken_refresh_ECA3].
Qed.

Lemma ok_not_401 response : ok response = true -> (status response =? 401)%Z = false.
Proof.
  unfold ok. intros H. apply andb_true_iff in H as [_ H].
  apply Z.leb_le in H. apply Z.eqb_neq. lia.
Qed.

(** C3 (amended). In [getAccessToken] of both clients, when the answer of
    the refresh endpoint is successful, the access token of the answer is
    returned, and: if the answer carries a non-empty refresh token that
    differs from the one held, the held one is replaced by it and exactly
    one RefreshTokenRotated event [{apiUrl, oldRefreshToken,
    newRefreshToken}] has been emitted when the call returns; if it
    carries none, an empty one or the one held, nothing is emitted and the
    held token is unchanged. *)
Theorem C3_refresh_token_rotation g fetch now c response body :
  cachedTokenUsable now c = false ->
  fetch (refreshRequestOf g c) = Responded response ->
  ok response = true ->
  json response = Ok body ->
  exists c',
    getAccessTokenOf g fetch now c = (Ok (access_token body), c')
    /\ (forall t, refresh_token body = Some t -> t <> "" ->
                  t <> refreshToken c -> rotationEmitted c c' t)
    /\ (refresh_token body = None \/ refresh_token body = Some ""
        \/ refresh_token body = Some (refreshToken c) ->
        noRotation c c').
Proof.
  intros Hcold Hfetch Hok Hjson.
  rewrite (getAccessTokenOf_refresh g fetch now c Hcold), Hfetch.
  unfold handleRefreshResponse.
  rewrite Hjson, (ok_not_401 _ Hok), Hok. simpl.
  destruct (refresh_token body) as [t | ] eqn:Hrt; simpl.
  - destruct (String.eqb_spec t ""); simpl.
    + eexists; split; [reflexivity | ]. split.
      * intros t' [= <-] Hne _. congruence.
      * intros _. split; reflexivity.
    + destruct (String.eqb_spec t (refreshToken c)); simpl.
      * eexists; split; [reflexivity | ]. split.
        -- intros t' [= <-] _ Hnew. congruence.
        -- intros _. split; reflexivity.
      * eexists; split; [reflexivity | ]. split.
        -- intros t' [= <-] _ _. split; reflexivity.
        -- intros [H | [H | H]]; congruence.
  - eexists; split; [reflexivity | ]. split.
    + intros t' H. discriminate H.
    + intros _. split; reflexivity.
Qed.

(** C4 (amended). In [getAccessToken] of both clients, when the answer of
    the refresh endpoint has status 401 and its body carries a non-empty
    [url], the client emits one TokenExpired event whose token field is
    the SHA-256 hash of the old refresh token followed by the url, and the
    call fails with the refresh-token-invalid error; one request only was
    sent, and the cached access token, its age and the refresh token are
    as before. *)
Theorem C4_token_expired g fetch now c response body u :
  cachedTokenUsable now c = false ->
  fetch (refreshRequestOf g c) = Responded response ->
  status response = 401%Z ->
  json response = Ok body ->
  url body = Some u -> u <> "" ->
  exists c',
    getAccessTokenOf g fetch now c = (Err refreshTokenInvalid, c')
    /\ emitted c'
       = (emitted c
          ++ [TokenExpired u (Sha256.sha256_hex (refreshToken c ++ u))])%list
    /\ fetched c' = (fetched c ++ [refreshRequestOf g c])%list
    /\ cache c' = cache c
    /\ cacheAge c' = cacheAge c
    /\ refreshToken c' = refreshToken c.
Proof.
  intros Hcold Hfetch Hst Hjson Hurl Hne.
  rewrite (getAccessTokenOf_refresh g fetch now c Hcold), Hfetch.
  unfold handleRefreshResponse. rewrite Hjson, Hst, Hurl. simpl.
  destruct (String.eqb_spec u ""); [congruence | ]. simpl.
  eexists; split; [reflexivity | ]. repeat split; reflexivity.
Qed.

(** C5. In [getAccessToken] of both clients, when the cache age is not
    set (null) or zero, the cached token is not used: one refresh request
    is sent and the outcome is that of its answer; when the cache age is
    positive and the cached entry exists and is valid for that age, the
    cached value is returned and nothing is sent or changed. *)
Theorem C5_cache_age_gate g fetch now c :
  (cacheAge c = None \/ cacheAge c = Some 0%Z ->
     getAccessTokenOf g fetch now c
     = handleRefreshResponse now (fetch (refreshRequestOf g c))
         (doFetch (refreshRequestOf g c) c)
     /\ fetched (snd (getAccessTokenOf g fetch now c))
        = (fetched c ++ [refreshRequestOf g c])%list)
  /\ (forall age e,
        cacheAge c = Some age -> (0 < age)%Z ->
        cache c !! "accessToken" = Some e ->
        SimpleCache.cacheValid "accessToken" age now (cache c) = true ->
        getAccessTokenOf g fetch now c = (Ok (SimpleCache.results e), c)).
Proof.
  split.
  - intros H. apply cachedTokenUsable_falsy_age with (now := now) in H.
    rewrite (getAccessTokenOf_refresh g fetch now c H).
    split; [reflexivity | ]. now rewrite handleRefreshResponse_fetched.
  - intros age e Hage Hpos He Hvalid.
    destruct (cachedTokenUsable_valid now c age e Hage Hpos He Hvalid)
      as [Huse Hget].
    destruct g; simpl;
      [unfold ECA1Client.getAccessToken | unfold ECA3Client.getAccessToken];
      now rewrite Huse, Hget.
Qed.

End ClientFacts.

(** C3 as stated fails for the answer [{refresh_token: ""}] with status
    200: the body carries a refresh token that differs from the one held,
    and no rotation takes place. *)
Lemma C3_counterexample :
  refresh_token (Sample.responseJson None (Some "")) = Some ""
  /\ "" <> refreshToken Sample.client
  /\ getAccessTokenOf Gen3 (Sample.answer 200%Z None (Some "")) 0%Z Sample.client
     = (Ok (Some "access-1"),
        storeAccessToken (Some 3600%Z) (Some "access-1") 0%Z
          (doFetch (ECA3Client.refreshRequest Sample.client) Sample.client))
  /\ ~ rotationEmitted Sample.client
         (snd (getAccessTokenOf Gen3 (Sample.answer 200%Z None (Some "")) 0%Z
                 Sample.client)) "".
Proof.
  split; [reflexivity | ]. split; [discriminate | ].
  split; [reflexivity | ]. intros [H _]. discriminate H.
Qed.

Lemma C3_witness :
  exists c',
    getAccessTokenOf Gen1 (Sample.answer 200%Z None (Some "newToken")) 0%Z
      Sample.client = (Ok (Some "access-1"), c')
    /\ rotationEmitted Sample.client c' "newToken".
Proof.
  destruct (C3_refresh_token_rotation Gen1
              (Sample.answer 200%Z None (Some "newToken")) 0%Z Sample.client
              {| status := 200%Z;
                 json := Ok (Sample.responseJson None (Some "newToken")) |}
              (Sample.responseJson None (Some "newToken"))
              eq_refl eq_refl eq_refl eq_refl) as [c' [H1 [H2 _]]].
  exists c'. split; [exact H1 | ].
  apply H2; [reflexivity | discriminate | discriminate].
Defined.

(** C4 as stated fails for the answer [{url: ""}] with status 401: the
    body carries a url field, no TokenExpired event is emitted and the
    failure is the one of any unsuccessful status. *)
Lemma C4_counterexample :
  status {| status := 401%Z; json := Ok (Sample.responseJson (Some "") None) |}
  = 401%Z
  /\ url (Sample.responseJson (Some "") None) = Some ""
  /\ getAccessTokenOf Gen1 (Sample.answer 401%Z (Some "") None) 0%Z Sample.client
     = (Err (Thrown ("Error getting the Access Token: "
                     ++ "Request failed with status 401: undefined")),
        doFetch (ECA1Client.refreshRequest Sample.client) Sample.client)
  /\ emitted
       (snd (getAccessTokenOf Gen1 (Sample.answer 401%Z (Some "") None) 0%Z
               Sample.client)) = [].
Proof. repeat split; reflexivity. Qed.

Lemma C4_witness :
  exists c',
    getAccessTokenOf Gen3
      (Sample.answer 401%Z (Some "https://u") None) 0%Z Sample.client
    = (Err refreshTokenInvalid, c')
    /\ emitted c'
       = [TokenExpired "https://u"
            (Sha256.sha256_hex ("oldToken" ++ "https://u"))].
Proof.
  destruct (C4_token_expired Gen3
              (Sample.answer 401%Z (Some "https://u") None) 0%Z Sample.client
              {| status := 401%Z;
                 json := Ok (Sample.responseJson (Some "https://u") None) |}
              (Sample.responseJson (Some "https://u") None) "https://u"
              eq_refl eq_refl eq_refl eq_refl eq_refl)
    as [c' [H1 [H2 _]]]; [discriminate | ].
  exists c'. split; [exact H1 | exact H2].
Defined.

Lemma C5_witness :
  fetched (snd (getAccessTokenOf Gen3 (Sample.answer 200%Z None None) 1000%Z
                  Sample.client))
  = [ECA3Client.refreshRequest Sample.client]
  /\ getAccessTokenOf Gen3 (Sample.answer 200%Z None None) 2000%Z
       Sample.warmClient
     = (Ok (Some "access-1"), Sample.warmClient).
Proof.
  split.
  - apply (proj1 (C5_cache_age_gate Gen3 (Sample.answer 200%Z None None) 1000%Z
                    Sample.client)).
    left. reflexivity.
  - apply (proj2 (C5_cache_age_gate Gen3 (Sample.answer 200%Z None None) 2000%Z
                    Sample.warmClient) 3600%Z
             (SimpleCache.Entry (Some "access-1") 1000%Z)).
    + reflexivity.
    + lia.
    + vm_compute. reflexivity.
    + vm_compute. reflexivity.
Defined.

(** ** Checksum addresses *)

Section ChecksumFacts.

Import EthUtil.

Lemma toLowerCase_prefixed rest :
  toLowerCase (String "0" (String "x" rest))
  = String "0" (String "x" (toLowerCase rest)).
Proof. reflexivity. Qed.

Lemma isHexString_inv s :
  isHexString s = true ->
  exists rest,
    s = String "0" (String "x" rest)
    /\ forallb isHexDigit (list_ascii_of_string rest) = true.
Proof.
  destruct s as [ | a [ | b rest]]; simpl; try discriminate.
  - destruct a as [[] [] [] [] [] [] [] []]; discriminate.
  - destruct a as [[] [] [] [] [] [] [] []]; try discriminate.
    destruct b as [[] [] [] [] [] [] [] []]; try discriminate.
    intros H. exists rest. split; [reflexivity | exact H].
Qed.

(** Case variants have the same checksum form. *)
Lemma toChecksumAddress_caseVariant v a :
  caseVariant v a -> toChecksumAddress v = toChecksumAddress a.
Proof.
  intros (Hv & Ha & Hlow).
  destruct (isHexString_inv v Hv) as (rv & -> & _).
  destruct (isHexString_inv a Ha) as (ra & -> & _).
  rewrite !toLowerCase_prefixed in Hlow.
  injection Hlow as Hlow.
  unfold toChecksumAddress. rewrite Hv, Ha.
  unfold stripHexPrefix. now rewrite Hlow.
Qed.

Lemma lowerHex_lowerChar c : isHexDigit c = true -> lowerHex (lowerChar c).
Proof.
  destruct c as [[] [] [] [] [] [] [] []]; vm_compute;
    intros H; try discriminate H; split; reflexivity.
Qed.

Lemma lowerHex_upperChar c :
  lowerHex c ->
  isHexDigit (upperChar c) = true /\ lowerChar (upperChar c) = c.
Proof.
  destruct c as [[] [] [] [] [] [] [] []]; vm_compute;
    intros [H1 H2]; try discriminate H1; try discriminate H2;
    split; reflexivity.
Qed.

Lemma checksumCase_lowerHex l :
  Forall lowerHex l ->
  forall h,
    map lowerChar (checksumCase l h) = l
    /\ forallb isHexDigit (checksumCase l h) = true.
Proof.
  induction 1 as [ | c l Hc Hl IH]; intros h; [split; reflexivity | ].
  destruct (lowerHex_upperChar c Hc) as [Hu1 Hu2].
  destruct Hc as [Hc1 Hc2].
  destruct h as [ | d h]; cbn [checksumCase map forallb].
  - destruct (IH []) as [IH1 IH2]. rewrite IH1, IH2, Hc1, Hc2. auto.
  - destruct (IH h) as [IH1 IH2]. rewrite IH1, IH2.
    destruct (parseHexDigit d) as [n | ]; [destruct (8 <=? n)%nat | ];
      rewrite ?Hu1, ?Hu2, ?Hc1, ?Hc2; auto.
Qed.

Lemma Forall_lowerHex_map l :
  forallb isHexDigit l = true -> Forall lowerHex (map lowerChar l).
Proof.
  induction l as [ | c l IH]; simpl; [constructor | ].
  intros H. apply andb_true_iff in H as [H1 H2].
  constructor; [now apply lowerHex_lowerChar | now apply IH].
Qed.

Lemma toChecksumAddress_prefixed rest :
  forallb isHexDigit (list_ascii_of_string rest) = true ->
  toChecksumAddress (String "0" (String "x" rest))
  = Some (String "0" (String "x"
            (string_of_list_ascii
               (checksumCase (map lowerChar (list_ascii_of_string rest))
                  (list_ascii_of_string
                     (addressHash (toLowerCase rest))))))).
Proof.
  intros H. unfold toChecksumAddress. cbn [isHexString stripHexPrefix].
  rewrite H. unfold toLowerCase at 1.
  rewrite list_ascii_of_string_of_list_ascii. reflexivity.
Qed.

(** The digits of a checksum form, put back in lower case, are the
    lower-case digits it was computed from. *)
Lemma checksum_digits rest h :
  forallb isHexDigit (list_ascii_of_string rest) = true ->
  let cs :=
    string_of_list_ascii
      (checksumCase (map lowerChar (list_ascii_of_string rest)) h) in
  forallb isHexDigit (list_ascii_of_string cs) = true
  /\ map lowerChar (list_ascii_of_string cs)
     = map lowerChar (list_ascii_of_string rest)
  /\ toLowerCase cs = toLowerCase rest.
Proof.
  intros H cs.
  destruct (checksumCase_lowerHex _ (Forall_lowerHex_map _ H) h)
    as [Hmap Hhex].
  assert (Hcs : list_ascii_of_string cs
                = checksumCase (map lowerChar (list_ascii_of_string rest)) h)
    by apply list_ascii_of_string_of_list_ascii.
  repeat split.
  - now rewrite Hcs.
  - now rewrite Hcs.
  - unfold toLowerCase. now rewrite Hcs, Hmap.
Qed.

(** The checksum form is a fixed point of [toChecksumAddress]. *)
Lemma toChecksumAddress_idempotent a c :
  toChecksumAddress a = Some c -> toChecksumAddress c = Some c.
Proof.
  intros H.
  assert (Ha : isHexString a = true).
  { unfold toChecksumAddress in H. destruct (isHexString a); congruence. }
  destruct (isHexString_inv a Ha) as (rest & -> & Hrest).
  rewrite (toChecksumAddress_prefixed rest Hrest) in H.
  injection H as <-.
  destruct (checksum_digits rest
              (list_ascii_of_string (addressHash (toLowerCase rest))) Hrest)
    as (Hhex & Hmap & Hlow).
  rewrite (toChecksumAddress_prefixed _ Hhex).
  now rewrite Hmap, Hlow.
Qed.

(** The checksum form of an address is one of its spellings. *)
Lemma caseVariant_checksum a c :
  toChecksumAddress a = Some c -> caseVariant c a.
Proof.
  intros H.
  assert (Ha : isHexString a = true).
  { unfold toChecksumAddress in H. destruct (isHexString a); congruence. }
  destruct (isHexString_inv a Ha) as (rest & -> & Hrest).
  rewrite (toChecksumAddress_prefixed rest Hrest) in H.
  injection H as <-.
  destruct (checksum_digits rest
              (list_ascii_of_string (addressHash (toLowerCase rest))) Hrest)
    as (Hhex & Hmap & Hlow).
  repeat split.
  - cbn [isHexString]. exact Hhex.
  - exact Ha.
  - rewrite !toLowerCase_prefixed. now rewrite Hlow.
Qed.

End ChecksumFacts.

(** ** The keyring *)

Import Keyring.

(** *** Token rotation across wallets *)

Section RotationFacts.

Lemma forEach_fold {A} (body : A -> M unit) (f : State -> A -> State) :
  (forall x s, body x s = (Ok tt, f s x)) ->
  forall xs s, forEach xs body s = (Ok tt, fold_left f xs s).
Proof.
  intros Hbody. induction xs as [ | x xs IH]; intros s; [reflexivity | ].
  cbn [forEach fold_left]. unfold bind. rewrite Hbody. apply IH.
Qed.

(** The handler always completes, and does one turn of its loop for each
    wallet of the session, in the order of the store. *)
Lemma handleTokenChangedEvent_fold payload s :
  handleTokenChangedEvent payload s
  = (Ok tt,
     fold_left (evictAndUpdate payload)
       (List.filter (matchesEvent payload) (wallets s)) s).
Proof.
  unfold handleTokenChangedEvent, bind, StateManager.listWallets, gets.
  apply forEach_fold. intros w s'. reflexivity.
Qed.

Lemma fold_evict_wallets payload l :
  forall s,
    wallets (fold_left (evictAndUpdate payload) l s)
    = fold_left
        (fun ws w =>
           map (fun x =>
                  if String.eqb (walletId x) (walletId w)
                  then {| account := account x;
                          details := withToken (newRefreshToken payload)
                                       (details w) |}
                  else x) ws)
        l (wallets s).
Proof.
  induction l as [ | w l IH]; intros s; [reflexivity | ].
  cbn [fold_left]. rewrite IH. reflexivity.
Qed.

Lemma fold_evict_registry payload l :
  forall s,
    custodianApi (fold_left (evictAndUpdate payload) l s)
    = fold_left (fun m w => delete (walletAddress w) m) l (custodianApi s).
Proof.
  induction l as [ | w l IH]; intros s; [reflexivity | ].
  cbn [fold_left]. rewrite IH. reflexivity.
Qed.

Lemma fold_evict_rest payload l :
  forall s,
    let s' := fold_left (evictAndUpdate payload) l s in
    requests s' = requests s
    /\ constructed s' = constructed s
    /\ keyringEvents s' = keyringEvents s
    /\ custodianCalls s' = custodianCalls s
    /\ infoMessages s' = infoMessages s.
Proof.
  induction l as [ | w l IH]; intros s; [repeat split | ].
  cbn [fold_left]. specialize (IH (evictAndUpdate payload s w)).
  cbn zeta in IH. exact IH.
Qed.

Lemma fold_delete_lookup (l : list Wallet) :
  forall (m : gmap string CustodianApi) k,
    fold_left (fun m w => delete (walletAddress w) m) l m !! k
    = if List.existsb (fun w => String.eqb (walletAddress w) k) l
      then None else m !! k.
Proof.
  induction l as [ | w l IH]; intros m k; [reflexivity | ].
  cbn [fold_left List.existsb]. rewrite IH.
  destruct (List.existsb _ l); [now rewrite orb_true_r | ].
  rewrite orb_false_r.
  destruct (String.eqb_spec (walletAddress w) k) as [-> | Hne].
  - apply lookup_delete_eq.
  - now apply lookup_delete_ne.
Qed.

Lemma existsb_filter {A} (p q : A -> bool) (l : list A) :
  List.existsb q (List.filter p l)
  = List.existsb (fun x => p x && q x) l.
Proof.
  induction l as [ | x l IH]; [reflexivity | ].
  cbn [List.filter List.existsb].
  destruct (p x); cbn [List.existsb andb orb]; now rewrite IH.
Qed.

(** The registry after the handler: the entries whose key is the stored
    address of a wallet of the session are gone, the others stay. *)
Lemma handleTokenChangedEvent_registry payload s k :
  custodianApi (snd (handleTokenChangedEvent payload s)) !! k
  = if List.existsb
         (fun w => matchesEvent payload w && String.eqb (walletAddress w) k)
         (wallets s)
    then None else custodianApi s !! k.
Proof.
  rewrite handleTokenChangedEvent_fold. cbn [snd].
  now rewrite fold_evict_registry, fold_delete_lookup, existsb_filter.
Qed.

Lemma NoDup_map_injective {A B} (f : A -> B) (l : list A) x y :
  NoDup (map f l) -> In x l -> In y l -> f x = f y -> x = y.
Proof.
  induction l as [ | a l IH]; cbn [map]; intros Hnd Hx Hy Heq;
    [destruct Hx | ].
  apply NoDup_cons in Hnd as [Hnot Hnd].
  destruct Hx as [-> | Hx], Hy as [-> | Hy]; auto.
  - exfalso. apply Hnot. rewrite Heq.
    apply list_elem_of_In, in_map, Hy.
  - exfalso. apply Hnot. rewrite <- Heq.
    apply list_elem_of_In, in_map, Hx.
Qed.

(** Updates by account id, one after the other, for wallets with
    different ids: each wallet of the store gets the details of the update
    that bears its id, if any. *)
Lemma fold_updates newToken (l : list Wallet) :
  NoDup (map walletId l) ->
  forall ws,
    fold_left
      (fun ws w =>
         map (fun x =>
                if String.eqb (walletId x) (walletId w)
                then {| account := account x;
                        details := withToken newToken (details w) |}
                else x) ws)
      l ws
    = map (fun x =>
             match
               List.find (fun w => String.eqb (walletId x) (walletId w)) l
             with
             | Some w => {| account := account x;
                            details := withToken newToken (details w) |}
             | None => x
             end) ws.
Proof.
  induction l as [ | w l IH]; intros Hnd ws.
  - cbn [fold_left List.find]. symmetry. apply map_id.
  - cbn [map] in Hnd. apply NoDup_cons in Hnd as [Hnot Hnd].
    cbn [fold_left]. rewrite (IH Hnd), map_map.
    apply map_ext. intros x. cbn [List.find].
    destruct (String.eqb_spec (walletId x) (walletId w)) as [Heq | Hne];
      [ | reflexivity].
    change (walletId {| account := account x;
                        details := withToken newToken (details w) |})
      with (walletId x).
    destruct (List.find _ l) as [w' | ] eqn:Hfind; [ | reflexivity].
    exfalso. apply find_some in Hfind as [Hin Hid].
    apply String.eqb_eq in Hid. apply Hnot.
    rewrite <- Heq, Hid. apply list_elem_of_In, in_map, Hin.
Qed.

Lemma NoDup_map_filter {A B} (f : A -> B) (p : A -> bool) (l : list A) :
  NoDup (map f l) -> NoDup (map f (List.filter p l)).
Proof.
  induction l as [ | a l IH]; cbn [map List.filter]; intros Hnd;
    [constructor | ].
  apply NoDup_cons in Hnd as [Hnot Hnd].
  destruct (p a); [ | now apply IH].
  cbn [map]. apply NoDup_cons. split; [ | now apply IH].
  intros Hin. apply Hnot.
  apply list_elem_of_In in Hin. apply in_map_iff in Hin as (x & Hx & Hin).
  apply filter_In in Hin as [Hin _].
  rewrite <- Hx. apply list_elem_of_In, in_map, Hin.
Qed.

(** The store after the handler, for wallets with different ids. *)
Lemma handleTokenChangedEvent_wallets payload s :
  NoDup (map walletId (wallets s)) ->
  wallets (snd (handleTokenChangedEvent payload s))
  = map (fun w => if matchesEvent payload w then rotated payload w else w)
      (wallets s).
Proof.
  intros Hnd. rewrite handleTokenChangedEvent_fold. cbn [snd].
  rewrite fold_evict_wallets, fold_updates
    by now apply NoDup_map_filter.
  apply map_ext_in. intros x Hx.
  destruct (List.find _ _) as [w | ] eqn:Hfind.
  - apply find_some in Hfind as [Hin Hid].
    apply filter_In in Hin as [Hin Hmatch].
    apply String.eqb_eq in Hid.
    assert (x = w) as <-
        by (eapply (NoDup_map_injective walletId); eassumption).
    now rewrite Hmatch.
  - destruct (matchesEvent payload x) eqn:Hmatch; [ | reflexivity].
    assert (Hin : In x (List.filter (matchesEvent payload) (wallets s)))
      by (apply filter_In; now split).
    pose proof (find_none _ _ Hfind x Hin) as Hno.
    cbn beta in Hno. rewrite String.eqb_refl in Hno. discriminate Hno.
Qed.

End RotationFacts.

(** The ids of a concrete store are pairwise different. *)
Ltac distinct_ids :=
  vm_compute; refine (bool_decide_unpack _ _); vm_compute; exact I.

(** C2. For wallets with different account ids, the token-changed handler
    completes and leaves the store with the refresh token of the event in
    exactly the wallets whose token is the old refresh token and whose API
    URL is the one of the event; every other wallet is as before. *)
Theorem C2_rotation_fan_out payload s :
  NoDup (map walletId (wallets s)) ->
  fst (handleTokenChangedEvent payload s) = Ok tt
  /\ wallets (snd (handleTokenChangedEvent payload s))
     = map (fun w => if matchesEvent payload w then rotated payload w else w)
         (wallets s).
Proof.
  intros Hnd. split.
  - now rewrite handleTokenChangedEvent_fold.
  - now apply handleTokenChangedEvent_wallets.
Qed.

(** The example of the specification: wallets (T, U), (T, U), (T, V) and
    the event from T to N at U. *)
Lemma C2_witness :
  map (fun w => token (details w))
    (wallets (snd (handleTokenChangedEvent Scenario.rotation
                     Scenario.threeWallets)))
  = ["N"; "N"; "T"].
Proof.
  rewrite (proj2 (C2_rotation_fan_out Scenario.rotation
                    Scenario.threeWallets ltac:(distinct_ids))).
  reflexivity.
Defined.

(** *** The registry of API objects *)

Section RegistryFacts.

Variable env : Env.

Lemma getCustodianApiForAddress_hit a k api s :
  EthUtil.toChecksumAddress a = Some k ->
  custodianApi s !! k = Some api ->
  getCustodianApiForAddress env a s = (Ok api, s).
Proof.
  intros Hk Hapi. unfold getCustodianApiForAddress. rewrite Hk.
  unfold bind, gets. now rewrite Hapi.
Qed.

Lemma getCustodianApiForAddress_miss a k w s :
  EthUtil.toChecksumAddress a = Some k ->
  custodianApi s !! k = None ->
  List.find (fun w => sameAddress env (walletAddress w) k) (wallets s)
  = Some w ->
  getCustodianApiForAddress env a s
  = (Ok (newCustodianApi (constructed s) (details w)), registered k w s).
Proof.
  intros Hk Hapi Hw. unfold getCustodianApiForAddress. rewrite Hk.
  unfold registerCustodianApi, bind, gets,
    StateManager.getWalletByAddress, gets. rewrite Hapi.
  unfold walletAddress in Hw. now rewrite Hw.
Qed.

Lemma getCustodianApiForAddress_no_wallet a k s :
  EthUtil.toChecksumAddress a = Some k ->
  custodianApi s !! k = None ->
  List.find (fun w => sameAddress env (walletAddress w) k) (wallets s)
  = None ->
  getCustodianApiForAddress env a s = (Err (WalletDoesNotExist a), s).
Proof.
  intros Hk Hapi Hw. unfold getCustodianApiForAddress. rewrite Hk.
  unfold registerCustodianApi, bind, gets,
    StateManager.getWalletByAddress, gets. rewrite Hapi.
  unfold walletAddress in Hw. now rewrite Hw.
Qed.

Lemma getCustodianApiForAddress_not_hex a s :
  EthUtil.toChecksumAddress a = None ->
  getCustodianApiForAddress env a s = (Err (notHexStringError a), s).
Proof.
  intros Hk. unfold getCustodianApiForAddress. now rewrite Hk.
Qed.

(** A call that is resumed at once is the call of the source run in one
    piece. *)
Lemma getCustodianApiForAddress_resumed_at_once a s :
  getCustodianApiForAddress env a s
  = bind (startLookup a) (resumeLookup env) s.
Proof.
  unfold getCustodianApiForAddress, startLookup.
  destruct (EthUtil.toChecksumAddress a) as [k | ]; [ | reflexivity].
  unfold bind, gets. now destruct (custodianApi s !! k).
Qed.

(** The outcome depends on the spelling of the address through its
    checksum form only, the message of the wallet-not-found error apart. *)
Lemma getCustodianApiForAddress_spelling v a s api s1 :
  EthUtil.toChecksumAddress v = EthUtil.toChecksumAddress a ->
  getCustodianApiForAddress env v s = (Ok api, s1) ->
  getCustodianApiForAddress env a s = (Ok api, s1).
Proof.
  intros Heq. unfold getCustodianApiForAddress. rewrite Heq.
  destruct (EthUtil.toChecksumAddress a) as [k | ]; [ | discriminate].
  unfold registerCustodianApi, bind, gets,
    StateManager.getWalletByAddress, gets.
  destruct (custodianApi s !! k); [trivial | ].
  destruct (List.find _ _); [trivial | discriminate].
Qed.

(** After a successful call the object is registered under the checksum
    form, so that the next call finds it and builds nothing. *)
Lemma getCustodianApiForAddress_registers a k s api s1 :
  EthUtil.toChecksumAddress a = Some k ->
  getCustodianApiForAddress env a s = (Ok api, s1) ->
  custodianApi s1 !! k = Some api.
Proof.
  intros Hk. unfold getCustodianApiForAddress. rewrite Hk.
  unfold registerCustodianApi, bind, gets,
    StateManager.getWalletByAddress, gets.
  destruct (custodianApi s !! k) as [api0 | ] eqn:Hapi.
  - intros [= <- <-]. exact Hapi.
  - destruct (List.find _ _) as [w | ]; [ | discriminate].
    cbn. intros [= <- <-]. cbn. apply lookup_insert_eq.
Qed.

End RegistryFacts.

(** When a token rotates, the handler removes from the registry the entry
    whose key is the stored address of each wallet of the session. When that
    address is in checksum form this is the wallet's entry, and the next
    call for the wallet builds a new API object. *)
Lemma rotation_evicts_stored_address payload s w :
  In w (wallets s) -> matchesEvent payload w = true ->
  custodianApi (snd (handleTokenChangedEvent payload s)) !! walletAddress w
  = None.
Proof.
  intros Hin Hmatch. rewrite handleTokenChangedEvent_registry.
  assert (H : List.existsb
                (fun x => matchesEvent payload x
                          && String.eqb (walletAddress x) (walletAddress w))
                (wallets s) = true).
  { apply existsb_exists. exists w. split; [exact Hin | ].
    now rewrite Hmatch, String.eqb_refl. }
  now rewrite H.
Qed.

(** C1 (the case in which the code departs from the claim). Take a wallet
    of the session of the event whose registry entry has the key [k], the
    checksum form of its stored address, while neither this wallet nor any
    other wallet of the session is stored under [k] itself. The handler
    deletes the key given by the stored address, so the entry under [k]
    stays, and the next [getCustodianApiForAddress] for the wallet returns
    the old API object and builds nothing. *)
Theorem C1_stale_client_survives_rotation env payload s w k api :
  In w (wallets s) -> matchesEvent payload w = true ->
  EthUtil.toChecksumAddress (walletAddress w) = Some k ->
  (forall w', In w' (wallets s) -> matchesEvent payload w' = true ->
              walletAddress w' <> k) ->
  custodianApi s !! k = Some api ->
  custodianApi (snd (handleTokenChangedEvent payload s)) !! k = Some api
  /\ getCustodianApiForAddress env (walletAddress w)
       (snd (handleTokenChangedEvent payload s))
     = (Ok api, snd (handleTokenChangedEvent payload s)).
Proof.
  intros Hin Hmatch Hk Hother Hapi.
  assert (Hkept : custodianApi (snd (handleTokenChangedEvent payload s)) !! k
                  = Some api).
  { rewrite handleTokenChangedEvent_registry.
    destruct (List.existsb _ _) eqn:Hex; [ | exact Hapi].
    apply existsb_exists in Hex as (w' & Hin' & Hw').
    apply andb_true_iff in Hw' as [Hm' Ha'].
    apply String.eqb_eq in Ha'. now destruct (Hother w' Hin' Hm'). }
  split; [exact Hkept | ].
  now apply getCustodianApiForAddress_hit with (k := k).
Qed.

(** Two accounts of one session, imported in lower case; the token of the
    session rotates from T to N. The store gets N for both wallets, the
    registry keeps both API objects, and the next call for the second
    account returns object 1, built with T. *)
Lemma C1_failing_input :
  map (fun w => token (details w))
    (wallets (snd (handleTokenChangedEvent Scenario.mockRotation
                     Scenario.twoClients))) = ["N"; "N"]
  /\ custodianApi (snd (handleTokenChangedEvent Scenario.mockRotation
                          Scenario.twoClients)) !! Scenario.checksum2
     = Some (Scenario.sessionApi 1)
  /\ getCustodianApiForAddress
       (Scenario.env Scenario.caseInsensitive "" Scenario.accept true)
       Scenario.lower2
       (snd (handleTokenChangedEvent Scenario.mockRotation
               Scenario.twoClients))
     = (Ok (Scenario.sessionApi 1),
        snd (handleTokenChangedEvent Scenario.mockRotation
               Scenario.twoClients)).
Proof.
  split; [vm_compute; reflexivity | ].
  apply (C1_stale_client_survives_rotation
           (Scenario.env Scenario.caseInsensitive "" Scenario.accept true)
           Scenario.mockRotation Scenario.twoClients
           (Scenario.wallet "2" Scenario.lower2 "T" Scenario.mockUrl)
           Scenario.checksum2 (Scenario.sessionApi 1)).
  - vm_compute. right. left. reflexivity.
  - vm_compute. reflexivity.
  - vm_compute. reflexivity.
  - intros w' Hin Hmatch.
    vm_compute in Hin. destruct Hin as [<- | [<- | []]]; vm_compute;
      discriminate.
  - vm_compute. reflexivity.
Defined.

(** The same with a state manager that compares addresses strictly: an
    account imported in checksum form is used, removed, and imported again
    in lower case. After the rotation the call for the account returns
    object 0, built for the removed wallet. *)
Example stale_client_after_reimport :
  map walletAddress (wallets Scenario.reimported) = [Scenario.lower1]
  /\ map (fun w => token (details w))
       (wallets (snd (handleTokenChangedEvent Scenario.mockRotation
                        Scenario.reimported))) = ["N"]
  /\ getCustodianApiForAddress
       (Scenario.env String.eqb "" Scenario.accept true) Scenario.lower1
       (snd (handleTokenChangedEvent Scenario.mockRotation
               Scenario.reimported))
     = (Ok (Scenario.sessionApi 0),
        snd (handleTokenChangedEvent Scenario.mockRotation
               Scenario.reimported)).
Proof. repeat split; vm_compute; reflexivity. Qed.

(** With the addresses stored in checksum form the rotation empties the
    registry, and the next call for the second account builds object 2 with
    the new token. *)
Example fresh_client_after_rotation :
  custodianApi (snd (handleTokenChangedEvent Scenario.mockRotation
                       Scenario.twoChecksummedClients)) = ∅
  /\ fst (getCustodianApiForAddress
            (Scenario.env String.eqb "" Scenario.accept true)
            Scenario.lower2
            (snd (handleTokenChangedEvent Scenario.mockRotation
                    Scenario.twoChecksummedClients)))
     = Ok (newCustodianApi 2 (Scenario.connection "N" Scenario.mockUrl)).
Proof. split; vm_compute; reflexivity. Qed.

(** When the stored address is in checksum form the entry of the wallet is
    removed, and the next call builds a new API object from the stored
    connection, which bears the new token. *)
Lemma rotation_evicts_checksummed_wallet env payload s w w' :
  In w (wallets s) -> matchesEvent payload w = true ->
  EthUtil.toChecksumAddress (walletAddress w) = Some (walletAddress w) ->
  List.find (fun x => sameAddress env (walletAddress x) (walletAddress w))
    (wallets (snd (handleTokenChangedEvent payload s))) = Some w' ->
  getCustodianApiForAddress env (walletAddress w)
    (snd (handleTokenChangedEvent payload s))
  = (Ok (newCustodianApi (constructed s) (details w')),
     registered (walletAddress w) w'
       (snd (handleTokenChangedEvent payload s))).
Proof.
  intros Hin Hmatch Hk Hfind.
  rewrite (getCustodianApiForAddress_miss env _ _ w' _ Hk
             (rotation_evicts_stored_address payload s w Hin Hmatch) Hfind).
  rewrite handleTokenChangedEvent_fold. cbn [snd].
  now destruct (fold_evict_rest payload
                  (List.filter (matchesEvent payload) (wallets s)) s)
    as (_ & -> & _).
Qed.

(** *** Properties kept by the operations *)

Section Preservation.

Context {A B : Type} (P : State -> Prop).

Lemma preserves_ret (a : A) : preserves P (ret a).
Proof. intros s Hs. exact Hs. Qed.

Lemma preserves_throw (e : Error) : preserves P (@throw A e).
Proof. intros s Hs. exact Hs. Qed.

Lemma preserves_gets (f : State -> A) : preserves P (gets f).
Proof. intros s Hs. exact Hs. Qed.

Lemma preserves_liftResult (r : Result A) : preserves P (liftResult r).
Proof. intros s Hs. exact Hs. Qed.

Lemma preserves_bind (m : M A) (k : A -> M B) :
  preserves P m -> (forall a, preserves P (k a)) -> preserves P (bind m k).
Proof.
  intros Hm Hk s Hs. unfold bind. specialize (Hm s Hs).
  destruct (m s) as [[a | e] s']; cbn [snd] in *; [now apply Hk | exact Hm].
Qed.

Lemma preserves_tryCatch (m : M A) (h : Error -> M A) :
  preserves P m -> (forall e, preserves P (h e)) ->
  preserves P (tryCatch m h).
Proof.
  intros Hm Hh s Hs. unfold tryCatch. specialize (Hm s Hs).
  destruct (m s) as [[a | e] s']; cbn [snd] in *; [exact Hm | now apply Hh].
Qed.

(** A step that changes the state by [f], whatever it returns. *)
Lemma preserves_step (r : State -> Result A) (f : State -> State) :
  (forall s, P s -> P (f s)) -> preserves P (fun s => (r s, f s)).
Proof. intros Hf s Hs. now apply Hf. Qed.

Lemma preserves_modify (f : State -> State) :
  (forall s, P s -> P (f s)) -> preserves P (modify f).
Proof. intros Hf s Hs. now apply Hf. Qed.

End Preservation.

Lemma preserves_forEach {A} (P : State -> Prop) (body : A -> M unit) xs :
  (forall x, preserves P (body x)) -> preserves P (forEach xs body).
Proof.
  intros Hbody. induction xs as [ | x xs IH]; cbn [forEach].
  - apply preserves_ret.
  - apply preserves_bind; [apply Hbody | intros _; exact IH].
Qed.

Lemma preserves_withTransaction {A} (P : State -> Prop) (m : M A) :
  preserves P m ->
  (forall s s', P s -> P s' -> P (setWallets (wallets s) s')) ->
  preserves P (StateManager.withTransaction m).
Proof.
  intros Hm Hroll s Hs. unfold StateManager.withTransaction.
  specialize (Hm s Hs).
  destruct (m s) as [[a | e] s']; cbn [snd] in *; [exact Hm | now apply Hroll].
Qed.

(** Take a computation apart along its control structure; the leaves that
    touch the state are left to [leaf]. *)
Ltac preserves_with leaf :=
  repeat
    (cbn zeta;
     lazymatch goal with
     | |- preserves _ (bind _ _) => apply preserves_bind; [ | intros ? ]
     | |- preserves _ (tryCatch _ _) => apply preserves_tryCatch; [ | intros ? ]
     | |- preserves _ (ret _) => apply preserves_ret
     | |- preserves _ (throw _) => apply preserves_throw
     | |- preserves _ (gets _) => apply preserves_gets
     | |- preserves _ (liftResult _) => apply preserves_liftResult
     | |- preserves _ (if ?b then _ else _) => destruct b
     | |- preserves _ (match ?x with _ => _ end) => destruct x
     | |- _ => leaf
     end).

(** **** The keys of the registry are in checksum form *)

Section KeysNormalized.

(** A change of the state that leaves the registry alone. *)
Lemma keysNormalized_same_registry s s' :
  custodianApi s' = custodianApi s -> keysNormalized s -> keysNormalized s'.
Proof. intros Heq H k api. rewrite Heq. apply H. Qed.

Lemma keysNormalized_delete k s :
  keysNormalized s ->
  keysNormalized (setCustodianApi (delete k (custodianApi s)) s).
Proof.
  intros H k' api Hk'. cbn in Hk'.
  apply lookup_delete_Some in Hk' as [_ Hk']. eapply H, Hk'.
Qed.

Lemma keysNormalized_insert k api s :
  EthUtil.toChecksumAddress k = Some k ->
  keysNormalized s ->
  keysNormalized (setCustodianApi (<[k := api]> (custodianApi s)) s).
Proof.
  intros Hk H k' api' Hk'. cbn in Hk'.
  apply lookup_insert_Some in Hk' as [[<- _] | [_ Hk']];
    [exact Hk | eapply H, Hk'].
Qed.

(** The leaves of the operations that do not touch the registry. *)
Ltac registry_untouched :=
  lazymatch goal with
  | |- preserves _ (modify _) =>
      apply preserves_modify; intros ? ?;
      (eapply keysNormalized_same_registry; [reflexivity | eassumption])
  | |- preserves _ (StateManager.listWallets) => apply preserves_gets
  | |- preserves _ (StateManager.getAccount _) => apply preserves_gets
  | |- preserves _ (getAccount _) => apply preserves_gets
  | |- preserves _ (StateManager.getWalletByAddress _ _) =>
      apply preserves_gets
  | |- preserves _ (RequestManagerFacade.listRequests) =>
      apply preserves_gets
  | |- preserves _ (StateManager.addWallet _) =>
      unfold StateManager.addWallet
  | |- preserves _ (StateManager.updateWalletDetails _ _) =>
      unfold StateManager.updateWalletDetails
  | |- preserves _ (StateManager.removeAccounts _ _) =>
      let s := fresh "s" in
      let Hs := fresh "Hs" in
      intros s Hs; unfold StateManager.removeAccounts;
      destruct (List.forallb _ _); exact Hs
  | |- preserves _ (RequestManagerFacade.upsertRequest _) =>
      unfold RequestManagerFacade.upsertRequest
  | |- preserves _ (renderInfoMessage _) => unfold renderInfoMessage
  | |- preserves _ (emitEvent _ _) =>
      apply preserves_step; intros ? ?;
      (eapply keysNormalized_same_registry; [reflexivity | eassumption])
  | |- preserves _ (callCustodian _ _ _) =>
      apply preserves_step; intros ? ?;
      (eapply keysNormalized_same_registry; [reflexivity | eassumption])
  | |- preserves _ (getCustodianApi _) =>
      apply preserves_step; intros ? ?;
      (eapply keysNormalized_same_registry; [reflexivity | eassumption])
  end.

(** The part of a lookup after its [await] writes under the key it was
    suspended with, a checksum address. *)
Lemma keysNormalized_registerCustodianApi env a k :
  EthUtil.toChecksumAddress k = Some k ->
  preserves keysNormalized (registerCustodianApi env a k).
Proof.
  intros Hk. unfold registerCustodianApi.
  preserves_with ltac:(idtac; try registry_untouched).
  apply preserves_modify. intros s Hs. now apply keysNormalized_insert.
Qed.

Lemma keysNormalized_getCustodianApiForAddress env a :
  preserves keysNormalized (getCustodianApiForAddress env a).
Proof.
  unfold getCustodianApiForAddress.
  destruct (EthUtil.toChecksumAddress a) as [k | ] eqn:Hk;
    [ | apply preserves_throw].
  apply toChecksumAddress_idempotent in Hk.
  preserves_with
    ltac:(idtac;
          first [ now apply keysNormalized_registerCustodianApi
                | registry_untouched ]).
Qed.

Lemma keysNormalized_handleTokenChangedEvent payload :
  preserves keysNormalized (handleTokenChangedEvent payload).
Proof.
  unfold handleTokenChangedEvent.
  apply preserves_bind; [apply preserves_gets | intros ws].
  apply preserves_forEach. intros w.
  apply preserves_bind.
  - apply preserves_modify. intros s Hs. now apply keysNormalized_delete.
  - intros _. preserves_with ltac:(idtac; registry_untouched).
Qed.

Ltac registry_leaf env :=
  first
    [ apply keysNormalized_getCustodianApiForAddress
    | registry_untouched
    | progress unfold getCustodianApiForParam
    | progress unfold signTransaction
    | progress unfold fetchDeepLink ].

Lemma keysNormalized_handleSigningRequest env method params request :
  preserves keysNormalized (handleSigningRequest env method params request).
Proof.
  unfold handleSigningRequest.
  preserves_with ltac:(idtac; registry_leaf env).
Qed.

Lemma keysNormalized_asyncSubmitRequest env request :
  preserves keysNormalized (asyncSubmitRequest env request).
Proof.
  unfold asyncSubmitRequest.
  preserves_with
    ltac:(idtac;
          first [ apply keysNormalized_handleSigningRequest
                | registry_leaf env ]).
Qed.

Lemma keysNormalized_execute s c :
  keysNormalized s -> keysNormalized (execute s c).
Proof.
  intros Hs.
  destruct c as [env o | env i | env | env i | env r | env a | env a | p];
    cbn [execute];
    try (destruct (EthUtil.toChecksumAddress a) as [k | ] eqn:Hk;
         [apply toChecksumAddress_idempotent in Hk | exact Hs]);
    revert s Hs;
    match goal with
    | |- forall s, keysNormalized s -> keysNormalized (snd (?m s)) =>
        change (preserves keysNormalized m)
    end.
  - unfold createAccount. preserves_with ltac:(idtac; registry_untouched).
  - unfold deleteAccount.
    apply preserves_tryCatch; [ | intros e; apply preserves_throw].
    apply preserves_withTransaction.
    + preserves_with ltac:(idtac; registry_untouched).
    + intros s s' _ Hs'.
      eapply keysNormalized_same_registry; [reflexivity | exact Hs'].
  - unfold listRequests. preserves_with ltac:(idtac; registry_untouched).
  - unfold getRequest. preserves_with ltac:(idtac; registry_untouched).
  - unfold submitRequest, runSensitive, assert.
    preserves_with ltac:(idtac; apply keysNormalized_asyncSubmitRequest).
  - apply keysNormalized_getCustodianApiForAddress.
  - now apply keysNormalized_registerCustodianApi.
  - apply keysNormalized_handleTokenChangedEvent.
Qed.

(** In every state the keyring goes through, the keys of the registry
    are checksum addresses. *)
Lemma reachable_keysNormalized s : reachable s -> keysNormalized s.
Proof.
  intros [commands ->].
  assert (H : forall s0, keysNormalized s0 ->
                         keysNormalized (fold_left execute commands s0)).
  { induction commands as [ | c cs IH]; intros s0 Hs0; [exact Hs0 | ].
    cbn [fold_left]. apply IH. now apply keysNormalized_execute. }
  apply H. intros k api Hk. cbn in Hk. rewrite lookup_empty in Hk.
  discriminate Hk.
Qed.

Lemma keysNormalized_oneClientPerAddress s :
  keysNormalized s -> oneClientPerAddress s.
Proof.
  intros H k1 k2 api1 api2 H1 H2 Heq.
  rewrite (H _ _ H1), (H _ _ H2) in Heq. injection Heq as <-.
  split; [reflexivity | congruence].
Qed.

Lemma reachable_execute s c : reachable s -> reachable (execute s c).
Proof.
  intros [commands ->]. exists (commands ++ [c])%list.
  now rewrite fold_left_app.
Qed.

End KeysNormalized.

(** C9 (as the code has it). In a state the keyring can be in, let [v1]
    and [v2] be spellings of a valid address that differ in case only, and
    let a wallet exist for its checksum form [c]. Let
    [getCustodianApiForAddress] be called for [v1], then for [v2] and for
    [c], each call made when the one before has returned. The three calls
    return one and the same API object, the one that the registry holds
    under [c] afterwards. When the registry held an object under [c]
    before, it is that object, and nothing changes; when it held none, the
    first call builds one object from the details of the wallet and
    registers it under [c], and this is all it does. The two later calls
    change nothing. And in every state the keyring can be in, lookups
    resumed late included, the registry holds at most one object per
    normalized address. *)
Theorem C9_one_client_per_address env s a v1 v2 c w :
  reachable s ->
  caseVariant v1 a -> caseVariant v2 a ->
  EthUtil.toChecksumAddress a = Some c ->
  List.find (fun w => sameAddress env (walletAddress w) c) (wallets s)
  = Some w ->
  exists api s1,
    getCustodianApiForAddress env v1 s = (Ok api, s1)
    /\ getCustodianApiForAddress env v2 s1 = (Ok api, s1)
    /\ getCustodianApiForAddress env c s1 = (Ok api, s1)
    /\ custodianApi s1 !! c = Some api
    /\ match custodianApi s !! c with
       | Some cached => api = cached /\ s1 = s
       | None =>
           api = newCustodianApi (constructed s) (details w)
           /\ s1 = registered c w s
       end
    /\ (constructed s1 <= S (constructed s))%nat
    /\ reachable s1
    /\ (forall s', reachable s' -> oneClientPerAddress s').
Proof.
  intros Hreach Hv1 Hv2 Hc Hw.
  pose proof (toChecksumAddress_caseVariant _ _ Hv1) as H1.
  pose proof (toChecksumAddress_caseVariant _ _ Hv2) as H2.
  rewrite Hc in H1, H2.
  pose proof (toChecksumAddress_idempotent _ _ Hc) as Hcc.
  assert (Hfirst : exists api s1,
             getCustodianApiForAddress env v1 s = (Ok api, s1)
             /\ match custodianApi s !! c with
                | Some cached => api = cached /\ s1 = s
                | None =>
                    api = newCustodianApi (constructed s) (details w)
                    /\ s1 = registered c w s
                end
             /\ (constructed s1 <= S (constructed s))%nat).
  { destruct (custodianApi s !! c) as [api | ] eqn:Hreg.
    - exists api, s. split; [ | split; [now split | lia]].
      now apply getCustodianApiForAddress_hit with (k := c).
    - exists (newCustodianApi (constructed s) (details w)), (registered c w s).
      split; [now apply getCustodianApiForAddress_miss | ].
      split; [now split | cbn; lia]. }
  destruct Hfirst as (api & s1 & Hcall & Hcase & Hcount).
  pose proof (getCustodianApiForAddress_registers env v1 c s api s1 H1 Hcall)
    as Hreg.
  assert (Hs1 : reachable s1).
  { replace s1 with (execute s (GetCustodianApiForAddress env v1))
      by (cbn [execute]; now rewrite Hcall).
    now apply reachable_execute. }
  exists api, s1.
  split; [exact Hcall | ].
  split; [now apply getCustodianApiForAddress_hit with (k := c) | ].
  split; [now apply getCustodianApiForAddress_hit with (k := c) | ].
  split; [exact Hreg | ].
  split; [exact Hcase | ].
  split; [exact Hcount | ].
  split; [exact Hs1 | ].
  intros s' Hs'.
  now apply keysNormalized_oneClientPerAddress, reachable_keysNormalized.
Qed.

(** The address of the test of the keyring, spelled in upper case and in
    lower case, in a keyring that holds the account in checksum form. *)
Lemma C9_witness :
  exists api s1,
    getCustodianApiForAddress
      (Scenario.env String.eqb "" Scenario.accept true)
      Scenario.upper1 Scenario.oneAccount = (Ok api, s1)
    /\ getCustodianApiForAddress
         (Scenario.env String.eqb "" Scenario.accept true)
         Scenario.lower1 s1 = (Ok api, s1)
    /\ getCustodianApiForAddress
         (Scenario.env String.eqb "" Scenario.accept true)
         Scenario.checksum1 s1 = (Ok api, s1)
    /\ custodianApi s1 !! Scenario.checksum1 = Some api
    /\ (api = Scenario.sessionApi 0
        /\ s1
           = registered Scenario.checksum1
               (Scenario.wallet "1" Scenario.checksum1 "T" Scenario.mockUrl)
               Scenario.oneAccount)
    /\ (constructed s1 <= S (constructed Scenario.oneAccount))%nat
    /\ reachable s1
    /\ (forall s', reachable s' -> oneClientPerAddress s').
Proof.
  apply (C9_one_client_per_address
           (Scenario.env String.eqb "" Scenario.accept true)
           Scenario.oneAccount Scenario.checksum1
           Scenario.upper1 Scenario.lower1 Scenario.checksum1
           (Scenario.wallet "1" Scenario.checksum1 "T" Scenario.mockUrl)).
  - exists [CreateAccount (Scenario.env String.eqb "1" Scenario.accept true)
              (Scenario.options Scenario.checksum1 "T" Scenario.mockUrl)].
    reflexivity.
  - split; [ | split]; vm_compute; reflexivity.
  - split; [ | split]; vm_compute; reflexivity.
  - vm_compute. reflexivity.
  - vm_compute. reflexivity.
Defined.

(** C9 (the case in which the claim fails). Two calls for one address
    overlap: the second, for the checksum form, is made while the first,
    for the spelling in upper case, waits for the state manager. Both
    find the registry empty, each builds an API object, and the two calls
    return different objects; the registry keeps the second. *)
Lemma C9_counterexample :
  fst (overlappingLookups
         (Scenario.env String.eqb "" Scenario.accept true)
         Scenario.upper1 Scenario.checksum1 Scenario.oneAccount)
  = Ok (Scenario.sessionApi 0, Scenario.sessionApi 1)
  /\ Scenario.sessionApi 0 <> Scenario.sessionApi 1
  /\ constructed
       (snd (overlappingLookups
               (Scenario.env String.eqb "" Scenario.accept true)
               Scenario.upper1 Scenario.checksum1 Scenario.oneAccount))
     = 2%nat
  /\ custodianApi
       (snd (overlappingLookups
               (Scenario.env String.eqb "" Scenario.accept true)
               Scenario.upper1 Scenario.checksum1 Scenario.oneAccount))
     !! Scenario.checksum1
     = Some (Scenario.sessionApi 1).
Proof.
  split; [vm_compute; reflexivity | ].
  split; [discriminate | ].
  split; vm_compute; reflexivity.
Qed.

(** *** Requests *)



(** *** Submission of requests *)

Section SubmissionFacts.

Variable env : Env.

(** Outside the development mode a request that the struct refuses is
    turned away with the error of the struct, before anything is done. *)
Lemma submitRequest_refused request s e :
  dev env = false ->
  KeyringRequestStruct request = Err e ->
  submitRequest env request s = (Err e, s).
Proof.
  intros Hdev He. unfold submitRequest. rewrite Hdev.
  unfold bind, assert, liftResult. now rewrite He.
Qed.

(** For a request that gets past the struct, or in the development
    mode, the outcome is that of the flow, with the unexpected errors
    masked outside the development mode. *)
Lemma submitRequest_admitted request s :
  admitted env request ->
  submitRequest env request s
  = (if dev env then asyncSubmitRequest env request
     else runSensitive (asyncSubmitRequest env request)
            "An unexpected error occurred") s.
Proof.
  intros [Hdev | Hstruct]; unfold submitRequest.
  - now rewrite Hdev.
  - destruct (dev env); [reflexivity | ].
    unfold bind at 1. unfold assert, liftResult. now rewrite Hstruct.
Qed.

(** A validation error of the submission flow reaches the caller as it
    is, in both modes. *)
Lemma submitRequest_validation_error request s e s' :
  admitted env request ->
  isValidationError e = true ->
  asyncSubmitRequest env request s = (Err e, s') ->
  submitRequest env request s = (Err e, s').
Proof.
  intros Ha He H. rewrite (submitRequest_admitted _ _ Ha).
  destruct (dev env); [exact H | ].
  unfold runSensitive, tryCatch. now rewrite H, He.
Qed.

Lemma submitRequest_ok request s r s' :
  admitted env request ->
  asyncSubmitRequest env request s = (Ok r, s') ->
  submitRequest env request s = (Ok r, s').
Proof.
  intros Ha H. rewrite (submitRequest_admitted _ _ Ha).
  destruct (dev env); [exact H | ].
  unfold runSensitive, tryCatch. now rewrite H.
Qed.

(** A submission that returns has passed the struct, and its flow
    returned the same. *)
Lemma submitRequest_ok_inv request s r s' :
  submitRequest env request s = (Ok r, s') ->
  asyncSubmitRequest env request s = (Ok r, s').
Proof.
  unfold submitRequest. destruct (dev env); [trivial | ].
  unfold bind at 1. unfold assert, liftResult.
  destruct (KeyringRequestStruct request) as [[] | e0]; [ | discriminate].
  unfold runSensitive, tryCatch.
  destruct (asyncSubmitRequest env request s) as [[r0 | e] s0];
    [trivial | ].
  destruct (isValidationError e); discriminate.
Qed.

Lemma submitRequest_ok_admitted request s r s' :
  submitRequest env request s = (Ok r, s') -> admitted env request.
Proof.
  unfold submitRequest, admitted.
  destruct (dev env); [intros _; now left | intros H; right].
  revert H. unfold bind at 1. unfold assert, liftResult.
  destruct (KeyringRequestStruct request) as [[] | e0];
    [reflexivity | discriminate].
Qed.

Lemma asyncSubmitRequest_validation_error request s e :
  handleSigningRequest env (KeyringRequest.method request)
    (match KeyringRequest.params request with
     | Some params => params
     | None => []
     end) request s = (Err e, s) ->
  asyncSubmitRequest env request s = (Err e, s).
Proof. intros H. unfold asyncSubmitRequest, bind. now rewrite H. Qed.

End SubmissionFacts.

(** C7 (as the code has it). Take a request that gets past the check of
    [submitRequest] on its shape: the keyring is in the development mode,
    or [KeyringRequestStruct] accepts the request. A submission for an
    unknown account id fails with the account-not-found error; for a known
    account, a method that is not in the account's method list fails with
    the method-not-supported error, and a method that is in the list but
    is not one of the four dispatched methods fails with the
    EVM-method-not-supported error. In each case the state is as before:
    no custodian call, no request record. *)
Theorem C7_submission_validation env request s :
  admitted env request ->
  (List.find (fun w => String.eqb (walletId w) (KeyringRequest.account request))
     (wallets s) = None ->
   submitRequest env request s
   = (Err (AccountNotFound (KeyringRequest.account request)), s))
  /\ (forall w,
        List.find
          (fun w => String.eqb (walletId w) (KeyringRequest.account request))
          (wallets s) = Some w ->
        (List.existsb (String.eqb (KeyringRequest.method request))
           (Account.methods (account w)) = false ->
         submitRequest env request s
         = (Err (MethodNotSupportedForAccount (KeyringRequest.method request)
                   (walletAddress w)), s))
        /\ (List.existsb (String.eqb (KeyringRequest.method request))
              (Account.methods (account w)) = true ->
            dispatched (KeyringRequest.method request) = false ->
            submitRequest env request s
            = (Err (EvmMethodNotSupported (KeyringRequest.method request)),
               s))).
Proof.
  intros Hadmitted.
  split; [intros Hfind | intros w Hfind; split; [intros Hm | intros Hm Hd]];
    apply submitRequest_validation_error; try reflexivity;
    try exact Hadmitted;
    apply asyncSubmitRequest_validation_error;
    unfold handleSigningRequest, bind, getAccount, StateManager.getAccount,
      gets; unfold walletId in Hfind; rewrite Hfind; cbn [option_map].
  - reflexivity.
  - now rewrite Hm.
  - rewrite Hm. cbn [negb].
    unfold dispatched in Hd.
    apply orb_false_iff in Hd as [Hd H4].
    apply orb_false_iff in Hd as [Hd H3].
    apply orb_false_iff in Hd as [H1 H2].
    now rewrite H1, H2, H3, H4.
Qed.

(** Outside the development mode, a request for an account id that is a
    UUID and that no wallet has. *)
Lemma C7_witness :
  submitRequest (Scenario.env String.eqb "" Scenario.accept true)
    (Scenario.personalSign "9f1c2d3e-4b5a-4c6d-8e7f-0a1b2c3d4e5f"
       Scenario.checksum1) Scenario.imported
  = (Err (AccountNotFound "9f1c2d3e-4b5a-4c6d-8e7f-0a1b2c3d4e5f"),
     Scenario.imported).
Proof.
  apply (proj1 (C7_submission_validation
                  (Scenario.env String.eqb "" Scenario.accept true)
                  (Scenario.personalSign
                     "9f1c2d3e-4b5a-4c6d-8e7f-0a1b2c3d4e5f"
                     Scenario.checksum1)
                  Scenario.imported
                  ltac:(right; vm_compute; reflexivity))).
  vm_compute. reflexivity.
Defined.

(** C7 (the case in which the claim fails). Outside the development mode
    the account id [unknown], which no wallet has, is not answered with
    the account-not-found error: the request is refused by the struct,
    for which the account id must be a UUID of version 4, before the
    account is looked up. *)
Lemma C7_counterexample :
  List.find (fun w => String.eqb (walletId w) "unknown")
    (wallets Scenario.oneAccount) = None
  /\ submitRequest (Scenario.env String.eqb "" Scenario.accept true)
       (Scenario.personalSign "unknown" Scenario.checksum1)
       Scenario.oneAccount
     = (Err (uuidFailure "account" "unknown"), Scenario.oneAccount)
  /\ uuidFailure "account" "unknown" <> AccountNotFound "unknown".
Proof.
  split; [reflexivity | ].
  split; [vm_compute; reflexivity | discriminate].
Qed.

(** **** The signing flow leaves the store of wallets alone *)

Section WalletsKept.

Variable W : list Wallet.

Ltac wallets_untouched :=
  lazymatch goal with
  | |- preserves _ (modify _) =>
      apply preserves_modify; intros ? Hs; exact Hs
  | |- preserves _ (getAccount _) => apply preserves_gets
  | |- preserves _ (StateManager.getWalletByAddress _ _) =>
      apply preserves_gets
  | |- preserves _ (RequestManagerFacade.upsertRequest _) =>
      unfold RequestManagerFacade.upsertRequest
  | |- preserves _ (callCustodian _ _ _) =>
      apply preserves_step; intros ? Hs; exact Hs
  | |- preserves _ (getCustodianApi _) =>
      apply preserves_step; intros ? Hs; exact Hs
  | |- preserves _ (getCustodianApiForAddress _ _) =>
      unfold getCustodianApiForAddress
  | |- preserves _ (registerCustodianApi _ _ _) =>
      unfold registerCustodianApi
  | |- preserves _ (getCustodianApiForParam _ _) =>
      unfold getCustodianApiForParam
  | |- preserves _ (signTransaction _ _ _) => unfold signTransaction
  end.

Lemma wallets_handleSigningRequest env method params request :
  preserves (fun s => wallets s = W)
    (handleSigningRequest env method params request).
Proof.
  unfold handleSigningRequest.
  preserves_with ltac:(idtac; wallets_untouched).
Qed.

End WalletsKept.

Lemma handleSigningRequest_wallets env method params request s r s1 :
  handleSigningRequest env method params request s = (r, s1) ->
  wallets s1 = wallets s.
Proof.
  intros H.
  pose proof (wallets_handleSigningRequest (wallets s) env method params
                request s eq_refl) as Hw.
  now rewrite H in Hw.
Qed.

(** What a submission returns is [{pending: true}]. *)
Lemma asyncSubmitRequest_pending env request s r s' :
  asyncSubmitRequest env request s = (Ok r, s') -> r = Pending.
Proof.
  unfold asyncSubmitRequest, bind.
  destruct (handleSigningRequest _ _ _ _ s) as [[cid | e] s1];
    [ | discriminate].
  unfold getAccount, StateManager.getAccount, gets.
  destruct (option_map account _) as [acct | ]; [ | discriminate].
  destruct (tryCatch _ _ s1) as [[link | e] s2]; [ | discriminate].
  cbn. now intros [= <- _].
Qed.

(** C8. When the request passes validation (the check of [submitRequest]
    on its shape, and the checks of the signing step on the account and
    the method) and the custodian signs (the signing step returns the
    custodian's id), and fetching the deep link fails, the submission
    still returns [{pending: true}]; the message shown is the one of the
    fallback deep link, with the custodian's id. And whenever a
    submission returns, it returns [{pending: true}]. *)
Theorem C8_deep_link_fallback env request s custodianId s1 w e s2 :
  admitted env request ->
  handleSigningRequest env (KeyringRequest.method request)
    (match KeyringRequest.params request with
     | Some params => params
     | None => []
     end) request s = (Ok custodianId, s1) ->
  List.find (fun w => String.eqb (walletId w) (KeyringRequest.account request))
    (wallets s) = Some w ->
  fetchDeepLink env (KeyringRequest.method request) (walletAddress w)
    custodianId s1 = (Err e, s2) ->
  submitRequest env request s
  = (Ok Pending,
     logInfoMessage
       (CustodianDeepLink.text (fallbackDeepLink custodianId)
        ++ " Transaction ID: " ++ custodianId) s2)
  /\ fallbackDeepLink custodianId
     = {| CustodianDeepLink.text := "Complete in Custodian App";
          CustodianDeepLink.id := custodianId;
          CustodianDeepLink.url := "";
          CustodianDeepLink.action := "view" |}
  /\ (forall r s', submitRequest env request s = (Ok r, s') -> r = Pending).
Proof.
  intros Hadmitted Hsign Hfind Hlink.
  split; [ | split; [reflexivity | ]].
  - apply submitRequest_ok; [exact Hadmitted | ].
    unfold asyncSubmitRequest, bind. rewrite Hsign.
    unfold getAccount, StateManager.getAccount, gets.
    rewrite (handleSigningRequest_wallets _ _ _ _ _ _ _ Hsign).
    unfold walletId in Hfind. rewrite Hfind. cbn [option_map].
    unfold tryCatch. unfold walletAddress in Hlink. rewrite Hlink.
    reflexivity.
  - intros r s' H. apply submitRequest_ok_inv in H.
    eapply asyncSubmitRequest_pending, H.
Qed.

(** A personal-sign request for the account of the keyring, with a
    custodian that signs and does not serve deep links, outside the
    development mode. *)
Lemma C8_witness :
  fst (submitRequest (Scenario.env String.eqb "" Scenario.accept false)
         (Scenario.personalSign Scenario.accountId Scenario.checksum1)
         Scenario.imported)
  = Ok Pending
  /\ infoMessages
       (snd (submitRequest (Scenario.env String.eqb "" Scenario.accept false)
               (Scenario.personalSign Scenario.accountId Scenario.checksum1)
               Scenario.imported))
     = ["Complete in Custodian App Transaction ID: msg-1"].
Proof.
  destruct (C8_deep_link_fallback
              (Scenario.env String.eqb "" Scenario.accept false)
              (Scenario.personalSign Scenario.accountId Scenario.checksum1)
              Scenario.imported "msg-1"
              (snd (handleSigningRequest
                      (Scenario.env String.eqb "" Scenario.accept false)
                      EthMethod.PersonalSign
                      [JString "message"; JString Scenario.checksum1]
                      (Scenario.personalSign Scenario.accountId
                         Scenario.checksum1)
                      Scenario.imported))
              (Scenario.wallet Scenario.accountId Scenario.checksum1 "T"
                 Scenario.mockUrl)
              (Thrown "Method not supported")
              (snd (fetchDeepLink
                      (Scenario.env String.eqb "" Scenario.accept false)
                      EthMethod.PersonalSign Scenario.checksum1 "msg-1"
                      (snd (handleSigningRequest
                              (Scenario.env String.eqb "" Scenario.accept false)
                              EthMethod.PersonalSign
                              [JString "message"; JString Scenario.checksum1]
                              (Scenario.personalSign Scenario.accountId
                                 Scenario.checksum1)
                              Scenario.imported)))))
    as [H _].
  - right. vm_compute. reflexivity.
  - vm_compute. reflexivity.
  - vm_compute. reflexivity.
  - vm_compute. reflexivity.
  - rewrite H. split; reflexivity.
Defined.

(** *** Account creation *)

Lemma isUniqueAddress_false_iff address ws :
  isUniqueAddress address ws = false
  <-> exists w, In w ws /\ walletAddress w = address.
Proof.
  unfold isUniqueAddress. rewrite negb_false_iff, existsb_exists.
  split; intros (w & Hin & Hw); exists w; (split; [exact Hin | ]).
  - now apply String.eqb_eq in Hw.
  - now apply String.eqb_eq.
Qed.

(** C6. [createAccount] fails, with the state as before and so before any
    event, when the address already occurs in the stored wallets and when,
    outside the development mode, the API URL is not in the allow-list. A
    call that fails adds no wallet, in particular when the receiver of the
    AccountCreated event refuses it. A call that returns has sent exactly
    one event, the AccountCreated event of the returned account, which was
    accepted, and has then added the wallet of that account. *)
Theorem C6_create_account_two_phase env options s :
  ((exists w, In w (wallets s)
              /\ walletAddress w = CreateAccountOptions.address options) ->
   createAccount env options s
   = (Err (AddressInUse (CreateAccountOptions.address options)), s)
   \/ createAccount env options s
      = (Err (CustodianNotAllowlisted
                (custodianApiUrl (CreateAccountOptions.details options))), s))
  /\ (dev env = false ->
      List.find
        (fun item =>
           String.eqb (CustodianMetadata.apiBaseUrl item)
             (custodianApiUrl (CreateAccountOptions.details options)))
        (custodianMetadata env) = None ->
      createAccount env options s
      = (Err (CustodianNotAllowlisted
                (custodianApiUrl (CreateAccountOptions.details options))), s))
  /\ (forall e s',
        createAccount env options s = (Err e, s') -> wallets s' = wallets s)
  /\ ((forall event, emitSnapKeyringEvent env event <> Ok tt) ->
      exists e s',
        createAccount env options s = (Err e, s') /\ wallets s' = wallets s)
  /\ (forall account s',
        createAccount env options s = (Ok account, s') ->
        exists suggestion,
          emitSnapKeyringEvent env
            (AccountCreated account suggestion false false) = Ok tt
          /\ keyringEvents s'
             = (keyringEvents s
                ++ [AccountCreated account suggestion false false])%list
          /\ wallets s'
             = (wallets s
                ++ [{| account := account;
                       details := CreateAccountOptions.details options |}])%list).
Proof.
  unfold createAccount, bind, tryCatch, StateManager.listWallets, gets,
    StateManager.addWallet, modify, emitEvent, ret, throw.
  set (custodian := List.find _ (custodianMetadata env)).
  repeat split.
  - intros Hdup. apply isUniqueAddress_false_iff in Hdup.
    destruct (dev env); [ | destruct custodian];
      rewrite ?Hdup; cbn [negb]; auto.
  - intros Hdev Hnone. now rewrite Hdev, Hnone.
  - intros e s'.
    destruct (dev env); [ | destruct custodian];
      try (intros [= _ <-]; reflexivity);
      (destruct (isUniqueAddress _ _); cbn [negb];
       [ | intros [= _ <-]; reflexivity]);
      (destruct (emitSnapKeyringEvent env _) as [[] | e0];
       [discriminate | intros [= _ <-]; reflexivity]).
  - intros Hveto.
    destruct (dev env); [ | destruct custodian]; try (eauto; fail);
      (destruct (isUniqueAddress _ _); cbn [negb]; [ | eauto]);
      (destruct (emitSnapKeyringEvent env _) as [[] | e0] eqn:Hemit;
       [now destruct (Hveto _ Hemit) | eauto]).
  - intros acct s'.
    destruct (dev env); [ | destruct custodian]; try discriminate;
      (destruct (isUniqueAddress _ _); cbn [negb]; [ | discriminate]);
      (destruct (emitSnapKeyringEvent env _) as [[] | e0] eqn:Hemit;
       [ | discriminate]);
      intros [= <- <-]; eexists; (split; [exact Hemit | ]);
      split; reflexivity.
Qed.

(** The receiver refuses the account: the call fails, the event was sent,
    no wallet is stored. The receiver accepts it: the wallet is stored. An
    address already in use: the call fails and nothing happened. *)
Lemma C6_witness :
  (exists e s',
     createAccount (Scenario.env String.eqb "1" Scenario.veto true)
       (Scenario.options Scenario.checksum1 "T" Scenario.mockUrl) emptyState
     = (Err e, s')
     /\ wallets s' = [])
  /\ (createAccount (Scenario.env String.eqb "2" Scenario.accept true)
        (Scenario.options Scenario.checksum1 "T" Scenario.mockUrl)
        Scenario.oneAccount
      = (Err (AddressInUse Scenario.checksum1), Scenario.oneAccount)
      \/ createAccount (Scenario.env String.eqb "2" Scenario.accept true)
           (Scenario.options Scenario.checksum1 "T" Scenario.mockUrl)
           Scenario.oneAccount
         = (Err (CustodianNotAllowlisted Scenario.mockUrl),
            Scenario.oneAccount)).
Proof.
  split.
  - apply (proj1 (proj2 (proj2 (proj2
             (C6_create_account_two_phase
                (Scenario.env String.eqb "1" Scenario.veto true)
                (Scenario.options Scenario.checksum1 "T" Scenario.mockUrl)
                emptyState))))).
    intros event. discriminate.
  - apply (proj1
             (C6_create_account_two_phase
                (Scenario.env String.eqb "2" Scenario.accept true)
                (Scenario.options Scenario.checksum1 "T" Scenario.mockUrl)
                Scenario.oneAccount)).
    exists (Scenario.wallet "1" Scenario.checksum1 "T" Scenario.mockUrl).
    split; [left | ]; reflexivity.
Defined.

Example createAccount_refused :
  createAccount (Scenario.env String.eqb "1" Scenario.veto true)
    (Scenario.options Scenario.checksum1 "T" Scenario.mockUrl) emptyState
  = (Err (Thrown "User rejected the request."),
     logKeyringEvent
       (AccountCreated
          (account (Scenario.wallet "1" Scenario.checksum1 "T" Scenario.mockUrl))
          "Test Account" false false) emptyState).
Proof. reflexivity. Qed.

Example createAccount_duplicate :
  createAccount (Scenario.env String.eqb "2" Scenario.accept true)
    (Scenario.options Scenario.checksum1 "T" Scenario.mockUrl)
    Scenario.oneAccount
  = (Err (AddressInUse Scenario.checksum1), Scenario.oneAccount).
Proof. reflexivity. Qed.


(** *** The submission flow on examples *)

(** A personal-sign request with a custodian that serves deep links: the
    request is recorded, the custodian's link is shown. *)
Example submit_personal_sign :
  fst (submitRequest (Scenario.env String.eqb "" Scenario.accept true)
         (Scenario.personalSign Scenario.accountId Scenario.checksum1)
         Scenario.imported)
  = Ok Pending
  /\ infoMessages
       (snd (submitRequest (Scenario.env String.eqb "" Scenario.accept true)
               (Scenario.personalSign Scenario.accountId Scenario.checksum1)
               Scenario.imported))
     = ["View in Custodian App Transaction ID: msg-1"]
  /\ map SnapRequest.subType
       (requests
          (snd (submitRequest (Scenario.env String.eqb "" Scenario.accept true)
                  (Scenario.personalSign Scenario.accountId Scenario.checksum1)
                  Scenario.imported)))
     = [Some "personalSign"].
Proof. repeat split; vm_compute; reflexivity. Qed.

(** A transaction request: one API object serves the signing and the deep
    link; the calls made on it are the creation of the transaction and the
    fetch of its link. *)
Example submit_transaction :
  fst (submitRequest (Scenario.env String.eqb "" Scenario.accept true)
         (Scenario.signTransactionRequest Scenario.accountId
            Scenario.checksum1)
         Scenario.imported)
  = Ok Pending
  /\ map snd
       (custodianCalls
          (snd (submitRequest (Scenario.env String.eqb "" Scenario.accept true)
                  (Scenario.signTransactionRequest Scenario.accountId
            Scenario.checksum1)
                  Scenario.imported)))
     = [CreateTransaction "0x" "0x1" false; GetTransactionLink "tx-1"]
  /\ constructed
       (snd (submitRequest (Scenario.env String.eqb "" Scenario.accept true)
               (Scenario.signTransactionRequest Scenario.accountId
            Scenario.checksum1)
               Scenario.imported))
     = 1%nat.
Proof. repeat split; vm_compute; reflexivity. Qed.

(** Outside the development mode an unexpected error of the flow reaches
    the caller as the generic message: here the wallet of the sender is
    unknown to the keyring. *)
Example submit_unexpected_error :
  fst (submitRequest (Scenario.env String.eqb "" Scenario.accept true)
         (Scenario.personalSign Scenario.accountId Scenario.checksum2)
         Scenario.imported)
  = Err (Thrown "An unexpected error occurred").
Proof. vm_compute. reflexivity. Qed.

(** * Further properties of the code *)

(** ** The protocol clients *)

Section ClientCalls.

Local Opaque Sha256.sha256_hex.

Lemma cachedTokenUsable_getCache now c :
  cachedTokenUsable now c = true ->
  exists t, SimpleCache.getCache "accessToken" (cache c) = Ok t.
Proof.
  unfold cachedTokenUsable, SimpleCache.cacheExists, SimpleCache.getCache.
  destruct (cache c !! "accessToken") as [e | ].
  - intros _. now exists (SimpleCache.results e).
  - rewrite andb_false_r. discriminate.
Qed.

Lemma getAccessTokenOf_cached g fetch now c :
  cachedTokenUsable now c = true ->
  getAccessTokenOf g fetch now c
  = (SimpleCache.getCache "accessToken" (cache c), c).
Proof.
  intros H.
  destruct g; simpl;
    [unfold ECA1Client.getAccessToken | unfold ECA3Client.getAccessToken];
    now rewrite H.
Qed.

Lemma refreshRequestOf_carries g c : carries (refreshRequestOf g c) c.
Proof. destruct g; repeat split. Qed.

(** What the part after [fetch] leaves of the client, whatever the
    answer. *)
Lemma handleRefreshResponse_endpoints now outcome c :
  sameEndpoints c (snd (handleRefreshResponse now outcome c)).
Proof.
  unfold handleRefreshResponse.
  destruct outcome as [response | e]; [ | now split ].
  destruct (json response) as [body | e]; [ | now split ].
  repeat match goal with
         | |- context [if ?b then _ else _] => destruct b
         end; now split.
Qed.

Lemma handleRefreshResponse_emitted now outcome c :
  let c' := snd (handleRefreshResponse now outcome c) in
  emitted c' = emitted c
  \/ exists ev, emitted c' = (emitted c ++ [ev])%list.
Proof.
  unfold handleRefreshResponse.
  destruct outcome as [response | e]; [ | now left ].
  destruct (json response) as [body | e]; [ | now left ].
  repeat match goal with
         | |- context [if ?b then _ else _] => destruct b
         end; cbn; eauto.
Qed.

(** The client after a successful answer: the cache holds the access
    token of the body with the time of the call, under the age that the
    body gives. *)
Lemma handleRefreshResponse_ok now response body c :
  json response = Ok body -> ok response = true ->
  let c' := snd (handleRefreshResponse now (Responded response) c) in
  fst (handleRefreshResponse now (Responded response) c)
  = Ok (access_token body)
  /\ cacheAge c' = expires_in body
  /\ cache c'
     = SimpleCache.setCache "accessToken" (access_token body) now (cache c)
  /\ fetched c' = fetched c
  /\ refreshToken c'
     = (if truthyString (refresh_token body)
           && negb (String.eqb (orUndefined (refresh_token body))
                      (refreshToken c))
        then orUndefined (refresh_token body) else refreshToken c).
Proof.
  intros Hjson Hok. unfold handleRefreshResponse. rewrite Hjson.
  rewrite (ok_not_401 _ Hok), Hok. cbn [andb negb].
  change (refreshToken (storeAccessToken (expires_in body)
                          (access_token body) now c))
    with (refreshToken c).
  destruct (truthyString (refresh_token body)
            && negb (String.eqb (orUndefined (refresh_token body))
                       (refreshToken c)));
    repeat split.
Qed.

(** A refresh followed by a call within the lifetime of the token: the
    second call is served from the cache. *)
Lemma token_reuse g fetch fetch' t1 t2 c response body ttl :
  cachedTokenUsable t1 c = false ->
  fetch (refreshRequestOf g c) = Responded response ->
  json response = Ok body ->
  ok response = true ->
  expires_in body = Some ttl ->
  ttl <> 0%Z ->
  (t2 < t1 + ttl)%Z ->
  let c1 := snd (getAccessTokenOf g fetch t1 c) in
  fst (getAccessTokenOf g fetch t1 c) = Ok (access_token body)
  /\ getAccessTokenOf g fetch' t2 c1 = (Ok (access_token body), c1)
  /\ fetched c1 = (fetched c ++ [refreshRequestOf g c])%list
  /\ apiBaseUrl c1 = apiBaseUrl c.
Proof.
  intros Huse Hfetch Hjson Hok Hexp Hne Hlt c1. subst c1.
  rewrite (getAccessTokenOf_refresh g fetch t1 c Huse), Hfetch.
  destruct (handleRefreshResponse_ok t1 response body
              (doFetch (refreshRequestOf g c) c) Hjson Hok)
    as (Hres & Hage & Hcache & Hfetched & _).
  pose proof (handleRefreshResponse_endpoints t1 (Responded response)
                (doFetch (refreshRequestOf g c) c)) as [Hbase _].
  split; [exact Hres | ].
  set (c1 := snd (handleRefreshResponse t1 (Responded response)
                    (doFetch (refreshRequestOf g c) c))) in *.
  assert (Hentry : cache c1 !! "accessToken"
                   = Some (SimpleCache.Entry (access_token body) t1)).
  { rewrite Hcache. unfold SimpleCache.setCache. apply lookup_insert_eq. }
  assert (Husable : cachedTokenUsable t2 c1 = true).
  { unfold cachedTokenUsable, SimpleCache.cacheExists,
      SimpleCache.cacheValid.
    rewrite Hage, Hexp, Hentry. cbn [truthyNumber SimpleCache.timestamp].
    destruct (Z.eqb_spec ttl 0) as [ | _]; [contradiction | ].
    cbn [negb andb]. apply Z.ltb_lt. exact Hlt. }
  rewrite (getAccessTokenOf_cached g fetch' t2 c1 Husable).
  unfold SimpleCache.getCache. rewrite Hentry.
  split; [reflexivity | ]. split; [exact Hfetched | exact Hbase].
Qed.

(** One call sends at most one request. *)
Lemma getAccessTokenOf_fetched_bound g fetch now c :
  (length (fetched (snd (getAccessTokenOf g fetch now c)))
   <= S (length (fetched c)))%nat.
Proof.
  destruct (cachedTokenUsable now c) eqn:Huse.
  - rewrite (getAccessTokenOf_cached g fetch now c Huse). cbn [snd]. lia.
  - rewrite (getAccessTokenOf_refresh g fetch now c Huse).
    rewrite handleRefreshResponse_fetched. cbn [doFetch fetched].
    rewrite length_app. cbn [length]. lia.
Qed.

(** X1. A call of [getAccessToken] that fails, in either client, has sent
    exactly one refresh request and leaves the held refresh token, the
    cache age and the cached access token as they were; the endpoints are
    unchanged, at most a TokenExpired event was emitted, and the message of
    the error starts with "Error getting the Access Token: ". *)
Theorem X1_failed_refresh_keeps_credentials g fetch now c e c' :
  getAccessTokenOf g fetch now c = (Err e, c') ->
  sameCredentials c c'
  /\ sameEndpoints c c'
  /\ fetched c' = (fetched c ++ [refreshRequestOf g c])%list
  /\ (emitted c' = emitted c
      \/ exists u hashed,
           emitted c' = (emitted c ++ [TokenExpired u hashed])%list)
  /\ exists m, e = Thrown ("Error getting the Access Token: " ++ m).
Proof.
  intros H.
  destruct (cachedTokenUsable now c) eqn:Huse.
  - rewrite (getAccessTokenOf_cached g fetch now c Huse) in H.
    destruct (cachedTokenUsable_getCache now c Huse) as [t Ht].
    rewrite Ht in H. discriminate H.
  - rewrite (getAccessTokenOf_refresh g fetch now c Huse) in H.
    revert H. generalize (refreshRequestOf g c) as request. intros request.
    unfold handleRefreshResponse, accessTokenError.
    destruct (fetch request) as [response | e0].
    + destruct (json response) as [body | e0].
      * repeat match goal with
               | |- context [if ?b then _ else _] => destruct b
               end;
          intros H; inversion H; subst; clear H;
          (split; [now repeat split | ]);
          (split; [now split | ]);
          (split; [reflexivity | ]);
          (split; [cbn; eauto | eauto]).
      * intros H; inversion H; subst.
        repeat split; cbn; eauto.
    + intros H; inversion H; subst.
      repeat split; cbn; eauto.
Qed.

(** X2. After a refresh that the endpoint answered with a successful
    status and a lifetime [expires_in] other than 0, a later call made
    before the time of the refresh plus that lifetime returns the same
    access token from the cache: it sends nothing, emits nothing and
    leaves the client as it is, whatever the endpoint would answer. *)
Theorem X2_token_reused_within_lifetime
    g fetch fetch' t1 t2 c response body ttl :
  cachedTokenUsable t1 c = false ->
  fetch (refreshRequestOf g c) = Responded response ->
  json response = Ok body ->
  ok response = true ->
  expires_in body = Some ttl ->
  ttl <> 0%Z ->
  (t2 < t1 + ttl)%Z ->
  let c1 := snd (getAccessTokenOf g fetch t1 c) in
  fst (getAccessTokenOf g fetch t1 c) = Ok (access_token body)
  /\ getAccessTokenOf g fetch' t2 c1 = (Ok (access_token body), c1).
Proof.
  intros Huse Hfetch Hjson Hok Hexp Hne Hlt c1.
  destruct (token_reuse g fetch fetch' t1 t2 c response body ttl
              Huse Hfetch Hjson Hok Hexp Hne Hlt) as (H1 & H2 & _).
  split; [exact H1 | exact H2].
Qed.

(** X3. After a refresh whose answer rotated the refresh token to [n],
    the next refresh request of the client (sent once the cached access
    token is not usable: no lifetime was given, or it has passed) goes to
    the same refresh endpoint and carries [n]. *)
Theorem X3_next_refresh_carries_rotated_token
    g fetch fetch' t1 t2 c response body n :
  cachedTokenUsable t1 c = false ->
  fetch (refreshRequestOf g c) = Responded response ->
  json response = Ok body ->
  ok response = true ->
  refresh_token body = Some n ->
  n <> "" ->
  n <> refreshToken c ->
  (forall ttl, expires_in body = Some ttl -> ttl = 0 \/ t1 + ttl <= t2)%Z ->
  let c1 := snd (getAccessTokenOf g fetch t1 c) in
  let c2 := snd (getAccessTokenOf g fetch' t2 c1) in
  fetched c2
  = (fetched c ++ [refreshRequestOf g c; refreshRequestOf g c1])%list
  /\ carries (refreshRequestOf g c1) (setRefreshToken n c).
Proof.
  intros Huse Hfetch Hjson Hok Hrt Hne1 Hne2 Hexp c1 c2. subst c2 c1.
  rewrite (getAccessTokenOf_refresh g fetch t1 c Huse), Hfetch.
  destruct (handleRefreshResponse_ok t1 response body
              (doFetch (refreshRequestOf g c) c) Hjson Hok)
    as (_ & Hage & Hcache & Hfetched & Htoken).
  pose proof (handleRefreshResponse_endpoints t1 (Responded response)
                (doFetch (refreshRequestOf g c) c)) as [_ Hurl].
  set (c1 := snd (handleRefreshResponse t1 (Responded response)
                    (doFetch (refreshRequestOf g c) c))) in *.
  assert (Hn : refreshToken c1 = n).
  { rewrite Htoken, Hrt. cbn [truthyString orUndefined doFetch refreshToken].
    destruct (String.eqb_spec n "") as [ | _]; [contradiction | ].
    destruct (String.eqb_spec n (refreshToken c)) as [ | _];
      [contradiction | reflexivity]. }
  assert (Hunusable : cachedTokenUsable t2 c1 = false).
  { unfold cachedTokenUsable, SimpleCache.cacheExists,
      SimpleCache.cacheValid.
    rewrite Hage, Hcache. unfold SimpleCache.setCache.
    rewrite lookup_insert_eq. cbn [SimpleCache.timestamp].
    destruct (expires_in body) as [ttl | ] eqn:Httl; [ | reflexivity].
    destruct (Hexp ttl eq_refl) as [-> | Hle]; [reflexivity | ].
    cbn [truthyNumber].
    destruct (Z.ltb_spec t2 (t1 + ttl)) as [Hlt | _]; [lia | ].
    now rewrite !andb_false_r. }
  split.
  - rewrite (getAccessTokenOf_refresh g fetch' t2 c1 Hunusable).
    rewrite handleRefreshResponse_fetched.
    cbn [doFetch fetched]. rewrite Hfetched. cbn [doFetch fetched].
    now rewrite <- app_assoc.
  - destruct (refreshRequestOf_carries g c1) as (H1 & H2 & H3).
    repeat split; [ | exact H2 | ].
    + rewrite H1. exact Hurl.
    + rewrite H3. exact Hn.
Qed.


(** X5. One call of [getAccessToken], in either client and whatever its
    outcome, sends at most one request, which is the refresh grant for the
    refresh token held at the start, posted to the refresh endpoint; it
    emits at most one event and never changes the two endpoints of the
    client. *)
Theorem X5_at_most_one_request_per_call g fetch now c :
  let c' := snd (getAccessTokenOf g fetch now c) in
  sameEndpoints c c'
  /\ (fetched c' = fetched c
      \/ fetched c' = (fetched c ++ [refreshRequestOf g c])%list
         /\ carries (refreshRequestOf g c) c)
  /\ (emitted c' = emitted c
      \/ exists ev, emitted c' = (emitted c ++ [ev])%list).
Proof.
  intros c'. subst c'.
  destruct (cachedTokenUsable now c) eqn:Huse.
  - rewrite (getAccessTokenOf_cached g fetch now c Huse). cbn [snd].
    split; [now split | ]. split; now left.
  - rewrite (getAccessTokenOf_refresh g fetch now c Huse).
    split; [ | split].
    + apply (handleRefreshResponse_endpoints now
               (fetch (refreshRequestOf g c))
               (doFetch (refreshRequestOf g c) c)).
    + right. split; [ | apply refreshRequestOf_carries].
      now rewrite handleRefreshResponse_fetched.
    + apply (handleRefreshResponse_emitted now
               (fetch (refreshRequestOf g c))
               (doFetch (refreshRequestOf g c) c)).
Qed.

(** *** The capability methods *)

Lemma invokeOf_eq {P R} (send : RpcCall P -> Result R) fetch now
    (m : Capability P) c :
  invokeOf send fetch now m c
  = match getAccessTokenOf (generationOf m) fetch now c with
    | (Err error, c') => (Err error, c', [])
    | (Ok t, c') => (send (rpcCallOf m c t), c', [rpcCallOf m c t])
    end.
Proof. destruct m; reflexivity. Qed.

(** X6. Every capability method of the two clients (nine of ECA1Client,
    twelve of ECA3Client) acquires the access token once and then makes
    one JSON-RPC call, to the endpoint [<apiBaseUrl>/v1/json-rpc] for
    ECA-1 and [<apiBaseUrl>/v3/json-rpc] for ECA-3, with that token; its
    result is the answer to that call. When the token cannot be obtained
    no JSON-RPC call is made and the error of [getAccessToken] is the
    result. The client is left as [getAccessToken] left it, so that at most
    one refresh request was sent. *)
Theorem X6_one_token_then_one_call {P R} (send : RpcCall P -> Result R)
    fetch now (m : Capability P) c :
  let acquired := getAccessTokenOf (generationOf m) fetch now c in
  let outcome := invokeOf send fetch now m c in
  snd (fst outcome) = snd acquired
  /\ (length (fetched (snd (fst outcome))) <= S (length (fetched c)))%nat
  /\ match fst acquired with
     | Err error => fst (fst outcome) = Err error /\ snd outcome = []
     | Ok t =>
         fst (fst outcome) = send (rpcCallOf m c t)
         /\ snd outcome = [rpcCallOf m c t]
     end.
Proof.
  cbn zeta. rewrite invokeOf_eq.
  pose proof (getAccessTokenOf_fetched_bound (generationOf m) fetch now c) as Hbound.
  destruct (getAccessTokenOf (generationOf m) fetch now c) as [[t | e] c'];
    cbn [fst snd] in *; repeat split; exact Hbound.
Qed.

(** X7. Two capability methods called one after the other on a client
    share the access token while it lives: when the first call refreshed
    it, with a lifetime other than 0, and the second is made before the
    time of the first plus that lifetime, one refresh request was sent in
    all, the second call leaves the client as it is, and both JSON-RPC
    calls carry the access token of the one answer. *)
Theorem X7_capabilities_share_the_token {P R}
    (send : RpcCall P -> Result R) fetch fetch' t1 t2
    (m1 m2 : Capability P) c response body ttl :
  generationOf m2 = generationOf m1 ->
  cachedTokenUsable t1 c = false ->
  fetch (refreshRequestOf (generationOf m1) c) = Responded response ->
  json response = Ok body ->
  ok response = true ->
  expires_in body = Some ttl ->
  ttl <> 0%Z ->
  (t2 < t1 + ttl)%Z ->
  let first := invokeOf send fetch t1 m1 c in
  let c1 := snd (fst first) in
  let second := invokeOf send fetch' t2 m2 c1 in
  snd first = [rpcCallOf m1 c (access_token body)]
  /\ snd second = [rpcCallOf m2 c (access_token body)]
  /\ snd (fst second) = c1
  /\ fetched c1
     = (fetched c ++ [refreshRequestOf (generationOf m1) c])%list.
Proof.
  intros Hgen Huse Hfetch Hjson Hok Hexp Hne Hlt. cbn zeta.
  destruct (token_reuse (generationOf m1) fetch fetch' t1 t2 c response
              body ttl Huse Hfetch Hjson Hok Hexp Hne Hlt)
    as (Hfirst & Hsecond & Hfetched & Hbase).
  rewrite !invokeOf_eq, Hgen.
  destruct (getAccessTokenOf (generationOf m1) fetch t1 c) as [r1 c1].
  cbn [fst snd] in *. subst r1. cbn [fst snd].
  rewrite Hsecond. cbn [fst snd].
  split; [reflexivity | ]. split; [ | now split].
  destruct m2; cbn [rpcCallOf]; now rewrite Hbase.
Qed.

(** X8. [setRefreshToken], the change of the refresh token from above,
    emits no event, sends nothing and leaves the cached access token in
    place: while that token is usable the next [getAccessToken] still
    returns it, and once it is not, the next refresh request carries the
    new refresh token. *)
Theorem X8_set_refresh_token_keeps_the_cache g fetch now t c :
  let c0 := setRefreshToken t c in
  emitted c0 = emitted c
  /\ fetched c0 = fetched c
  /\ sameEndpoints c c0
  /\ cachedTokenUsable now c0 = cachedTokenUsable now c
  /\ (cachedTokenUsable now c = true ->
      getAccessTokenOf g fetch now c0
      = (fst (getAccessTokenOf g fetch now c), c0))
  /\ (cachedTokenUsable now c = false ->
      grant_refresh_token (refreshRequestOf g c0) = t
      /\ fetched (snd (getAccessTokenOf g fetch now c0))
         = (fetched c ++ [refreshRequestOf g c0])%list).
Proof.
  cbn zeta.
  assert (Hsame : cachedTokenUsable now (setRefreshToken t c)
                  = cachedTokenUsable now c) by reflexivity.
  split; [reflexivity | ]. split; [reflexivity | ].
  split; [now split | ]. split; [exact Hsame | ]. split.
  - intros Huse.
    rewrite (getAccessTokenOf_cached g fetch now c Huse).
    rewrite getAccessTokenOf_cached by now rewrite Hsame.
    reflexivity.
  - intros Huse. split; [now destruct g | ].
    rewrite getAccessTokenOf_refresh by now rewrite Hsame.
    now rewrite handleRefreshResponse_fetched.
Qed.

End ClientCalls.

(** ** The custodial keyring *)

Import CustodialKeyring.

(** *** Account creation *)

Lemma find_app_none {A} (p : A -> bool) (l1 l2 : list A) :
  List.find p l1 = None -> List.find p (l1 ++ l2) = List.find p l2.
Proof.
  induction l1 as [ | x l1 IH]; cbn [List.find app]; [reflexivity | ].
  destruct (p x); [discriminate | exact IH].
Qed.

(** What a call of [createAccount] that returns has done. *)
Lemma createAccount_ok_inv env options s created s' :
  createAccount env options s = (Ok created, s') ->
  let details := CreateAccountOptions.details options in
  let custodian :=
    List.find
      (fun item =>
         String.eqb (CustodianMetadata.apiBaseUrl item)
                    (custodianApiUrl details))
      (custodianMetadata env) in
  exists environment,
    created
    = {| Account.id := uuid env;
         Account.options :=
           {| custodian :=
                {| environmentName := environment;
                   displayName := custodianDisplayName details;
                   deferPublication :=
                     match custodian with
                     | Some c =>
                         CustodianMetadata.custodianPublishesTransaction c
                     | None => false
                     end;
                   importOrigin := CreateAccountOptions.origin options |};
              accountName := CreateAccountOptions.name options |};
         Account.address := CreateAccountOptions.address options;
         Account.methods :=
           [ EthMethod.SignTransaction; EthMethod.PersonalSign;
             EthMethod.SignTypedDataV3; EthMethod.SignTypedDataV4 ];
         Account.type := EthAccountType_Eoa |}
    /\ (if dev env then environment = custodianEnvironment details
        else exists c,
               custodian = Some c /\ environment = CustodianMetadata.name c)
    /\ isUniqueAddress (CreateAccountOptions.address options) (wallets s)
       = true
    /\ s' = setWallets
              (wallets s ++ [{| account := created; details := details |}])
              (logKeyringEvent
                 (AccountCreated created
                    (match CreateAccountOptions.name options with
                     | Some n => n
                     | None => "Custodial Account"
                     end) false false) s).
Proof.
  unfold createAccount, bind, tryCatch, StateManager.listWallets, gets,
    StateManager.addWallet, modify, emitEvent, ret, throw.
  cbn zeta.
  set (custodian := List.find _ (custodianMetadata env)).
  destruct (dev env); [ | destruct custodian as [c | ]]; try discriminate;
    (destruct (isUniqueAddress _ _) eqn:Huniq; cbn [negb];
     [ | discriminate]);
    (destruct (emitSnapKeyringEvent env _) as [[] | e0]; [ | discriminate]);
    intros [= <- <-]; eexists; (split; [reflexivity | ]);
    (split; [eauto | ]); (split; reflexivity).
Qed.

(** A call of [createAccount] that fails has at most sent the event: the
    stores and the registry are as before. *)
Lemma createAccount_err_inv env options s e s' :
  createAccount env options s = (Err e, s') ->
  wallets s' = wallets s
  /\ requests s' = requests s
  /\ custodianApi s' = custodianApi s
  /\ constructed s' = constructed s.
Proof.
  unfold createAccount, bind, tryCatch, StateManager.listWallets, gets,
    StateManager.addWallet, modify, emitEvent, ret, throw.
  cbn zeta.
  set (custodian := List.find _ (custodianMetadata env)).
  destruct (dev env); [ | destruct custodian];
    try (intros [= _ <-]; now repeat split);
    (destruct (isUniqueAddress _ _); cbn [negb];
     [ | intros [= _ <-]; now repeat split]);
    (destruct (emitSnapKeyringEvent env _) as [[] | e0];
     [discriminate | intros [= _ <-]; now repeat split]).
Qed.

(** X9. The fields of an account that [createAccount] returns. Outside
    the development mode its environment name is the name of the first
    allow-list entry with the API URL of the request, whatever environment
    the request names; in the development mode it is the environment of
    the request. In both modes [deferPublication] is the
    [custodianPublishesTransaction] flag of that entry, and false when
    there is none; the id is the uuid drawn, the address, the display name
    and the origin are those of the request, and the account supports the
    four signing methods. *)
Theorem X9_created_account_fields env options s created s' :
  createAccount env options s = (Ok created, s') ->
  let details := CreateAccountOptions.details options in
  let custodian :=
    List.find
      (fun item =>
         String.eqb (CustodianMetadata.apiBaseUrl item)
                    (custodianApiUrl details))
      (custodianMetadata env) in
  let imported := Keyring.custodian (Account.options created) in
  (dev env = false ->
     exists c,
       custodian = Some c
       /\ environmentName imported = CustodianMetadata.name c
       /\ deferPublication imported
          = CustodianMetadata.custodianPublishesTransaction c)
  /\ (dev env = true ->
        environmentName imported = custodianEnvironment details
        /\ deferPublication imported
           = match custodian with
             | Some c => CustodianMetadata.custodianPublishesTransaction c
             | None => false
             end)
  /\ displayName imported = custodianDisplayName details
  /\ importOrigin imported = CreateAccountOptions.origin options
  /\ Account.id created = uuid env
  /\ Account.address created = CreateAccountOptions.address options
  /\ Account.methods created
     = [ "eth_signTransaction"; "personal_sign"; "eth_signTypedData_v3";
         "eth_signTypedData_v4" ]
  /\ Account.type created = "eip155:eoa".
Proof.
  intros H details custodian imported.
  destruct (createAccount_ok_inv env options s created s' H)
    as (environment & -> & Henv & _ & _).
  fold details in Henv. fold custodian in Henv. subst imported. cbn.
  fold details. fold custodian.
  split; [ | split].
  - intros Hdev. rewrite Hdev in Henv. destruct Henv as (c & Hc & ->).
    exists c. rewrite Hc. now repeat split.
  - intros Hdev. rewrite Hdev in Henv. now split.
  - now repeat split.
Qed.

(** X10. After a call of [createAccount] that returns, [listAccounts]
    gives the accounts held before followed by the new one, and
    [getAccount] with the id of the new account gives that account,
    provided that no account held before has this id. *)
Theorem X10_created_account_is_listed env options s created s' :
  createAccount env options s = (Ok created, s') ->
  (forall w, In w (wallets s) -> walletId w <> uuid env) ->
  listAccounts s' = (Ok (map account (wallets s) ++ [created])%list, s')
  /\ getAccount (Account.id created) s' = (Ok (Some created), s').
Proof.
  intros H Hfresh.
  destruct (createAccount_ok_inv env options s created s' H)
    as (environment & Hcreated & _ & _ & ->).
  split.
  - unfold listAccounts, gets. cbn [wallets setWallets].
    now rewrite map_app.
  - unfold getAccount, StateManager.getAccount, gets.
    cbn [wallets setWallets]. f_equal. f_equal.
    assert (Hid : Account.id created = uuid env) by now rewrite Hcreated.
    rewrite Hid.
    assert (Hnone :
              List.find
                (fun w => String.eqb (Account.id (account w)) (uuid env))
                (wallets s) = None).
    { destruct (List.find _ (wallets s)) as [w | ] eqn:Hfind;
        [ | reflexivity].
      apply find_some in Hfind as [Hin Hw]. apply String.eqb_eq in Hw.
      now destruct (Hfresh w Hin). }
    rewrite (find_app_none _ _ _ Hnone). cbn.
    now rewrite Hid, String.eqb_refl.
Qed.

(** *** The connection status *)

Lemma getConnectedAccounts_eq details origin s :
  getConnectedAccounts details origin s
  = (Ok (map account (List.filter (connected details origin) (wallets s))),
     s).
Proof. reflexivity. Qed.

Lemma sameCustodianType_refl t : sameCustodianType t t = true.
Proof. now destruct t. Qed.

(** X11. An account is reported to the origin that imported it, and to no
    other: after a call of [createAccount] that returns,
    [getConnectedAccounts], asked with the details of that call, lists the
    new account exactly when the asking origin is the one of the call. *)
Theorem X11_connected_for_the_importing_origin
    env options s created s' origin :
  createAccount env options s = (Ok created, s') ->
  exists accounts,
    getConnectedAccounts (statusOf (CreateAccountOptions.details options))
      origin s' = (Ok accounts, s')
    /\ (In created accounts <-> origin = CreateAccountOptions.origin options).
Proof.
  intros H. rewrite getConnectedAccounts_eq. eexists. split; [reflexivity | ].
  destruct (createAccount_ok_inv env options s created s' H)
    as (environment & Hcreated & _ & _ & ->).
  cbn [wallets setWallets]. rewrite in_map_iff. split.
  - intros (w & Hw & Hin). apply filter_In in Hin as [_ Hconn].
    unfold connected in Hconn. apply andb_true_iff in Hconn as [_ Horigin].
    apply String.eqb_eq in Horigin. rewrite Hw, Hcreated in Horigin.
    now symmetry.
  - intros ->. exists {| account := created;
                         details := CreateAccountOptions.details options |}.
    split; [reflexivity | ]. apply filter_In. split.
    + apply in_or_app. right. now left.
    + unfold connected, statusOf. cbn.
      rewrite !String.eqb_refl, sameCustodianType_refl.
      rewrite Hcreated. cbn. now rewrite String.eqb_refl.
Qed.

(** X12. A rotation moves the accounts of the session from the old
    refresh token to the new one. For wallets with different ids and an
    event whose two tokens differ: after the handler,
    [getConnectedAccounts] asked with the API URL of the event and the old
    token lists nothing, and asked with the new token it lists the
    accounts that were connected, before the event, under the new token or
    under the old one. *)
Theorem X12_connected_accounts_follow_rotation payload q origin s :
  NoDup (map walletId (wallets s)) ->
  newRefreshToken payload <> oldRefreshToken payload ->
  ConnectionStatusRpcRequest.custodianApiUrl q = apiUrl payload ->
  let s' := snd (handleTokenChangedEvent payload s) in
  fst (getConnectedAccounts (askedWith (oldRefreshToken payload) q) origin s')
  = Ok []
  /\ fst (getConnectedAccounts (askedWith (newRefreshToken payload) q)
            origin s')
     = Ok (map account
             (List.filter
                (fun w =>
                   connected (askedWith (newRefreshToken payload) q) origin w
                   || connected (askedWith (oldRefreshToken payload) q)
                        origin w)
                (wallets s))).
Proof.
  intros Hnd Hne Hurl s'. subst s'.
  rewrite !getConnectedAccounts_eq. cbn [fst].
  rewrite (handleTokenChangedEvent_wallets payload s Hnd).
  generalize (wallets s) as ws. clear Hnd.
  assert (Hstep : forall w,
    let w' := if matchesEvent payload w then rotated payload w else w in
    account w' = account w
    /\ connected (askedWith (oldRefreshToken payload) q) origin w' = false
    /\ connected (askedWith (newRefreshToken payload) q) origin w'
       = connected (askedWith (newRefreshToken payload) q) origin w
         || connected (askedWith (oldRefreshToken payload) q) origin w).
  { intros w. destruct (matchesEvent payload w) eqn:Hm; cbn zeta.
    - pose proof Hm as Hm'. unfold matchesEvent in Hm'.
      apply andb_true_iff in Hm' as [Hold Hu].
      apply String.eqb_eq in Hold, Hu.
      assert (H1 : String.eqb (newRefreshToken payload)
                     (oldRefreshToken payload) = false)
        by now apply String.eqb_neq.
      assert (H2 : String.eqb (oldRefreshToken payload)
                     (newRefreshToken payload) = false)
        by (apply String.eqb_neq; congruence).
      unfold connected, askedWith, rotated. cbn.
      rewrite Hold, Hu, Hurl, H1, H2, !String.eqb_refl. now repeat split.
    - unfold matchesEvent in Hm. unfold connected, askedWith. cbn.
      rewrite Hurl, Hm. cbn. rewrite orb_false_r. now repeat split. }
  intros ws. induction ws as [ | w ws [IH1 IH2]]; [now split | ].
  destruct (Hstep w) as (Hacc & Hold & Hnew). cbn zeta in *.
  cbn [map List.filter]. rewrite Hold, Hnew.
  injection IH1 as IH1. injection IH2 as IH2.
  split; [now rewrite IH1 | ].
  destruct (_ || _); cbn [map]; now rewrite ?Hacc, IH2.
Qed.

(** *** The chains of an account *)

Lemma filterChains_ok convert supported chains result :
  filterChains convert supported chains = Ok result ->
  sublist result chains
  /\ forall chain,
       In chain result
       <-> In chain chains
           /\ exists c, convert chain = Ok c /\ In c supported.
Proof.
  revert result. induction chains as [ | x chains IH]; intros result.
  - intros [= <-]. split; [constructor | ]. intros chain. cbn. tauto.
  - cbn [filterChains].
    destruct (convert x) as [c | e] eqn:Hx; [ | discriminate].
    destruct (filterChains convert supported chains) as [kept | e];
      [ | discriminate].
    destruct (IH kept eq_refl) as [Hsub Hin].
    destruct (List.existsb (String.eqb c) supported) eqn:Hc;
      intros [= <-].
    + split; [now constructor | ]. intros chain. cbn [In]. rewrite Hin.
      split.
      * intros [<- | [H1 H2]]; [ | tauto]. split; [now left | ].
        exists c. split; [exact Hx | ].
        apply existsb_exists in Hc as (y & Hy & Heq).
        apply String.eqb_eq in Heq. now subst y.
      * intros [[<- | H1] H2]; [now left | right; tauto].
    + split; [now constructor | ]. intros chain. cbn [In]. rewrite Hin.
      split; [tauto | ].
      intros [[<- | H1] H2]; [ | tauto]. exfalso.
      destruct H2 as (c' & Hc' & Hin'). rewrite Hx in Hc'.
      injection Hc' as <-.
      assert (List.existsb (String.eqb c) supported = true) as Habs.
      { apply existsb_exists. exists c. split; [exact Hin' | ].
        apply String.eqb_refl. }
      rewrite Hc in Habs. discriminate Habs.
Qed.

(** What a call of [getCustodianApiForAddress] does to the state: it
    stores, sends and shows nothing; when it fails the state is as
    before, and when it returns the object is registered under the
    checksum form of the address. *)
Lemma getCustodianApiForAddress_inv env a s r s' :
  getCustodianApiForAddress env a s = (r, s') ->
  registryOnly s s'
  /\ match r with
     | Ok api =>
         exists k,
           EthUtil.toChecksumAddress a = Some k
           /\ custodianApi s' !! k = Some api
     | Err _ => s' = s
     end.
Proof.
  unfold getCustodianApiForAddress.
  destruct (EthUtil.toChecksumAddress a) as [k | ] eqn:Hk.
  - unfold registerCustodianApi, bind, gets,
      StateManager.getWalletByAddress, gets.
    destruct (custodianApi s !! k) as [api0 | ] eqn:Hapi.
    + intros [= <- <-]. split; [now repeat split | ]. now exists k.
    + destruct (List.find _ _) as [w | ].
      * cbn. intros [= <- <-]. split; [now repeat split | ].
        exists k. split; [reflexivity | ]. cbn. apply lookup_insert_eq.
      * intros [= <- <-]. split; [now repeat split | reflexivity].
  - intros [= <- <-]. split; [now repeat split | reflexivity].
Qed.

(** X13. [filterAccountChains] fails with the account-not-found error,
    the state untouched, when no stored account has the id. When it
    returns, the account exists, its API object is registered under the
    checksum form of its address and has answered with its supported
    chains, nothing was stored or sent; the result keeps the order of the
    chains offered and holds exactly those whose converted id is among the
    supported ones. *)
Theorem X13_chains_supported_by_the_custodian
    env getSupportedChains convert id chains s :
  ((forall w, In w (wallets s) -> walletId w <> id) ->
   filterAccountChains env getSupportedChains convert id chains s
   = (Err (AccountNotFound id), s))
  /\ (forall result s',
        filterAccountChains env getSupportedChains convert id chains s
        = (Ok result, s') ->
        exists found k api supported,
          getAccount id s = (Ok (Some found), s)
          /\ EthUtil.toChecksumAddress (Account.address found) = Some k
          /\ custodianApi s' !! k = Some api
          /\ getSupportedChains api = Ok supported
          /\ registryOnly s s'
          /\ sublist result chains
          /\ forall chain,
               In chain result
               <-> In chain chains
                   /\ exists c, convert chain = Ok c /\ In c supported).
Proof.
  unfold filterAccountChains, bind, liftResult, throw.
  unfold getAccount, StateManager.getAccount, gets.
  split.
  - intros Hnone.
    destruct (List.find _ (wallets s)) as [w | ] eqn:Hfind; [ | reflexivity].
    apply find_some in Hfind as [Hin Hw]. apply String.eqb_eq in Hw.
    now destruct (Hnone w Hin).
  - intros result s'.
    destruct (List.find _ (wallets s)) as [w | ]; cbn [option_map];
      [ | discriminate].
    destruct (getCustodianApiForAddress env (Account.address (account w)) s)
      as [[api | e] s1] eqn:Hget; [ | discriminate].
    apply getCustodianApiForAddress_inv in Hget as [Hsame (k & Hk & Hapi)].
    destruct (getSupportedChains api) as [supported | e] eqn:Hsup;
      [ | discriminate].
    destruct (filterChains convert supported chains) as [kept | e] eqn:Hf;
      [ | discriminate].
    intros [= <- <-]. apply filterChains_ok in Hf as [Hsub Hin].
    exists (account w), k, api, supported.
    split; [reflexivity | ]. split; [exact Hk | ]. split; [exact Hapi | ].
    split; [exact Hsup | ]. split; [exact Hsame | ].
    split; [exact Hsub | exact Hin].
Qed.

(** *** Account deletion *)

Lemma find_filter_none {A} (f g : A -> bool) (l : list A) :
  (forall x, f x = true -> g x = false) ->
  List.find f (List.filter g l) = None.
Proof.
  intros H. induction l as [ | x l IH]; [reflexivity | ].
  cbn [List.filter]. destruct (g x) eqn:Hg; [ | exact IH].
  cbn [List.find]. destruct (f x) eqn:Hf; [ | exact IH].
  apply H in Hf. congruence.
Qed.

Lemma find_filter_kept {A} (f g : A -> bool) (l : list A) :
  (forall x, f x = true -> g x = true) ->
  List.find f (List.filter g l) = List.find f l.
Proof.
  intros H. induction l as [ | x l IH]; [reflexivity | ].
  cbn [List.filter List.find]. destruct (f x) eqn:Hf.
  - rewrite (H x Hf). cbn [List.find]. now rewrite Hf.
  - destruct (g x); [cbn [List.find]; now rewrite Hf | exact IH].
Qed.

(** X14. [deleteAccount] removes the account from the store before it
    sends the AccountDeleted event, both inside one transaction of the
    state manager. When no stored wallet has the id the removal fails:
    the call fails with the message of the state manager's error, no
    event is sent and nothing changes. When a wallet has the id, one
    AccountDeleted event is sent for it; if the receiver accepts it the
    call returns, the wallets with that id are gone from the store, the
    others staying in their order, [getAccount] finds no account of
    that id and finds the account of every other id as before; if the
    receiver refuses, the call fails with the message of
    the refusal and the removal is rolled back. In every case the
    registry of API objects, the counter of objects built, the request
    records and the other traces are as they were. *)
Theorem X14_delete_account_outcome env id s :
  let s' := snd (deleteAccount env id s) in
  custodianApi s' = custodianApi s
  /\ constructed s' = constructed s
  /\ requests s' = requests s
  /\ custodianCalls s' = custodianCalls s
  /\ infoMessages s' = infoMessages s
  /\ if List.existsb (fun w => String.eqb (walletId w) id) (wallets s)
     then
       keyringEvents s' = (keyringEvents s ++ [AccountDeleted id])%list
       /\ match emitSnapKeyringEvent env (AccountDeleted id) with
          | Ok _ =>
              fst (deleteAccount env id s) = Ok tt
              /\ wallets s'
                 = List.filter (fun w => negb (String.eqb (walletId w) id))
                     (wallets s)
              /\ getAccount id s' = (Ok None, s')
              /\ (forall other,
                    other <> id ->
                    fst (getAccount other s') = fst (getAccount other s))
          | Err refusal =>
              fst (deleteAccount env id s) = Err (Thrown (message refusal))
              /\ wallets s' = wallets s
          end
     else
       deleteAccount env id s
       = (Err (Thrown (message (removeAccountsError env [id]))), s).
Proof.
  unfold deleteAccount, tryCatch, StateManager.withTransaction, bind,
    StateManager.removeAccounts, emitEvent, throw.
  cbn zeta. cbn [List.forallb]. rewrite andb_true_r. unfold walletId.
  destruct (List.existsb _ (wallets s)) eqn:Hstored.
  - destruct (emitSnapKeyringEvent env (AccountDeleted id))
      as [[] | refusal]; cbn.
    + repeat split.
      * apply filter_ext. intros w. now rewrite orb_false_r.
      * unfold getAccount, StateManager.getAccount, gets. cbn.
        rewrite find_filter_none; [reflexivity | ].
        intros w Hw. now rewrite Hw.
      * intros other Hother.
        unfold getAccount, StateManager.getAccount, gets. cbn.
        rewrite find_filter_kept; [reflexivity | ].
        intros w Hw. apply String.eqb_eq in Hw. rewrite Hw.
        apply String.eqb_neq in Hother. now rewrite Hother.
    + destruct s. repeat split.
  - cbn. destruct s. repeat split.
Qed.

(** X15. Deleting an account does not release its API object: an object
    registered for an address before [deleteAccount], of any id, is still
    what [getCustodianApiForAddress] returns for that address afterwards,
    and nothing is built. *)
Theorem X15_client_outlives_its_account env env' id a k api s :
  EthUtil.toChecksumAddress a = Some k ->
  custodianApi s !! k = Some api ->
  let s' := snd (deleteAccount env id s) in
  getCustodianApiForAddress env' a s' = (Ok api, s').
Proof.
  intros Hk Hapi s'. apply (getCustodianApiForAddress_hit env' a k api s' Hk).
  subst s'.
  unfold deleteAccount, tryCatch, StateManager.withTransaction, bind,
    StateManager.removeAccounts, emitEvent, throw.
  destruct (List.forallb _ [id]); [ | exact Hapi].
  destruct (emitSnapKeyringEvent env (AccountDeleted id)) as [[] | refusal];
    exact Hapi.
Qed.

(** *** Signing *)

Lemma getCustodianApiForParam_inv env from s r s' :
  getCustodianApiForParam env from s = (r, s') ->
  registryOnly s s'
  /\ match r with
     | Ok api =>
         exists a k,
           from = JString a
           /\ EthUtil.toChecksumAddress a = Some k
           /\ custodianApi s' !! k = Some api
     | Err _ => s' = s
     end.
Proof.
  destruct from as [a | tx | ]; cbn [getCustodianApiForParam].
  - intros H. apply getCustodianApiForAddress_inv in H as [Hsame H].
    split; [exact Hsame | ]. destruct r as [api | e]; [ | exact H].
    destruct H as (k & Hk & Hapi). now exists a, k.
  - intros [= <- <-]. split; [now repeat split | reflexivity].
  - intros [= <- <-]. split; [now repeat split | reflexivity].
Qed.

(** The outcome of a signing step, as the three message branches and the
    transaction branch of [#handleSigningRequest] produce it. On failure
    no record was stored and at most one call was made on an API object,
    which the custodian refused. On success one call was made and
    accepted, on the object registered for the checksum form [k] of the
    sender, and [record] was upserted. *)
Lemma messageSigning_inv env from op subType keyringRequest s r s' :
  (custodianApi <- getCustodianApiForParam env from ;;
   details <- callCustodian (signMessage env) custodianApi op ;;
   RequestManagerFacade.upsertRequest
     (messageRequest env keyringRequest subType details) ;;;
   ret (signedMessageId details)) s = (r, s') ->
  wallets s' = wallets s
  /\ keyringEvents s' = keyringEvents s
  /\ infoMessages s' = infoMessages s
  /\ match r with
     | Err _ =>
         requests s' = requests s
         /\ (custodianCalls s' = custodianCalls s
             \/ exists api refusal,
                  calledOnce s s' api op
                  /\ signMessage env api op = Err refusal)
     | Ok custodianId =>
         exists api a k details,
           from = JString a
           /\ EthUtil.toChecksumAddress a = Some k
           /\ custodianApi s' !! k = Some api
           /\ calledOnce s s' api op
           /\ signMessage env api op = Ok details
           /\ custodianId = signedMessageId details
           /\ upserted (messageRequest env keyringRequest subType details)
                s s'
     end.
Proof.
  unfold bind.
  destruct (getCustodianApiForParam env from s) as [[api | e] s1] eqn:Hget.
  - apply getCustodianApiForParam_inv in Hget
      as [(Hw & Hr & Hk & Hc & Hi) (a & k & Hfrom & Hsum & Hapi)].
    unfold callCustodian.
    destruct (signMessage env api op) as [details | refusal] eqn:Hsign.
    + unfold RequestManagerFacade.upsertRequest, modify, ret.
      intros [= <- <-]. cbn. rewrite Hw, Hk, Hi.
      repeat split.
      exists api, a, k, details. unfold calledOnce, upserted. cbn.
      rewrite Hc, Hr. now repeat split.
    + intros [= <- <-]. cbn. rewrite Hw, Hk, Hi, Hr.
      repeat split. right. exists api, refusal. unfold calledOnce. cbn.
      now rewrite Hc.
  - apply getCustodianApiForParam_inv in Hget
      as [(Hw & Hr & Hk & Hc & Hi) ->].
    intros [= <- <-]. repeat split. now left.
Qed.

(** The record of a transaction that the custodian took. *)
Lemma signTransaction_inv env tx keyringRequest s r s' :
  signTransaction env tx keyringRequest s = (r, s') ->
  wallets s' = wallets s
  /\ keyringEvents s' = keyringEvents s
  /\ infoMessages s' = infoMessages s
  /\ match r with
     | Err e =>
         (exists m, e = Thrown ("Failed to sign transaction: " ++ m))
         /\ requests s' = requests s
         /\ (custodianCalls s' = custodianCalls s
             \/ exists api op refusal,
                  calledOnce s s' api op
                  /\ createTransaction env api op = Err refusal)
     | Ok custodianId =>
         exists api k payload wallet response,
           EthUtil.toChecksumAddress (from tx) = Some k
           /\ custodianApi s' !! k = Some api
           /\ createTransactionPayload env tx = Ok payload
           /\ List.find
                (fun w => sameAddress env (walletAddress w) (from tx))
                (wallets s) = Some wallet
           /\ calledOnce s s' api
                (CreateTransaction payload (chainId tx)
                   (deferPublication
                      (custodian (Account.options (account wallet)))))
           /\ createTransaction env api
                (CreateTransaction payload (chainId tx)
                   (deferPublication
                      (custodian (Account.options (account wallet)))))
              = Ok response
           /\ custodianId = custodianTransactionId response
           /\ upserted
                {| SnapRequest.keyringRequest := keyringRequest;
                   SnapRequest.type := "transaction";
                   SnapRequest.subType := None;
                   SnapRequest.fulfilled := false;
                   SnapRequest.rejected := false;
                   SnapRequest.message := None;
                   SnapRequest.signature := None;
                   SnapRequest.transaction := Some response;
                   SnapRequest.lastUpdated := now env |} s s'
     end.
Proof.
  unfold signTransaction, tryCatch, bind.
  destruct (getCustodianApiForAddress env (from tx) s)
    as [[api | e] s1] eqn:Hget.
  - apply getCustodianApiForAddress_inv in Hget
      as [(Hw & Hr & Hk & Hc & Hi) (k & Hsum & Hapi)].
    unfold liftResult.
    destruct (createTransactionPayload env tx) as [payload | e] eqn:Hpay.
    + unfold StateManager.getWalletByAddress, gets. rewrite Hw.
      fold walletAddress.
      destruct (List.find _ (wallets s)) as [wallet | ] eqn:Hfind.
      * unfold callCustodian.
        destruct (createTransaction env api _) as [response | refusal]
          eqn:Hcreate.
        -- unfold RequestManagerFacade.upsertRequest, modify, ret.
           intros [= <- <-]. cbn. rewrite Hw, Hk, Hi. repeat split.
           exists api, k, payload, wallet, response.
           unfold calledOnce, upserted. cbn. rewrite Hc, Hr.
           now repeat split.
        -- unfold throw. intros [= <- <-]. cbn. rewrite Hw, Hk, Hi, Hr.
           repeat split; eauto. right. eexists api, _, refusal.
           unfold calledOnce. cbn. rewrite Hc. split; [reflexivity | ].
           exact Hcreate.
      * unfold throw. intros [= <- <-]. repeat split; eauto.
    + unfold throw. intros [= <- <-]. repeat split; eauto.
  - apply getCustodianApiForAddress_inv in Hget
      as [(Hw & Hr & Hk & Hc & Hi) ->].
    unfold throw. intros [= <- <-]. repeat split; eauto.
Qed.

(** The outcome of [#handleSigningRequest], for every method. *)
Lemma handleSigningRequest_inv env method params keyringRequest s r s' :
  handleSigningRequest env method params keyringRequest s = (r, s') ->
  wallets s' = wallets s
  /\ match r with
     | Err _ =>
         requests s' = requests s
         /\ (custodianCalls s' = custodianCalls s
             \/ exists api op,
                  calledOnce s s' api op
                  /\ ((exists refusal, signMessage env api op = Err refusal)
                      \/ exists refusal,
                           createTransaction env api op = Err refusal))
     | Ok custodianId =>
         exists holder api op record,
           getAccount (KeyringRequest.account keyringRequest) s
           = (Ok (Some holder), s)
           /\ In method (Account.methods holder)
           /\ calledOnce s s' api op
           /\ openRecordOf keyringRequest record
           /\ SnapRequest.lastUpdated record = now env
           /\ upserted record s s'
           /\ ((method = "eth_signTransaction"
                /\ SnapRequest.type record = "transaction"
                /\ exists response,
                     createTransaction env api op = Ok response
                     /\ SnapRequest.transaction record = Some response
                     /\ custodianId = custodianTransactionId response)
               \/ (method <> "eth_signTransaction"
                   /\ SnapRequest.type record = "message"
                   /\ exists details,
                        signMessage env api op = Ok details
                        /\ SnapRequest.message record = Some details
                        /\ custodianId = signedMessageId details))
     end.
Proof.
  unfold handleSigningRequest. unfold bind at 1.
  unfold getAccount at 1, StateManager.getAccount at 1, gets at 1.
  destruct (option_map account _) as [holder | ] eqn:Hholder;
    [ | unfold throw; intros [= <- <-]; split; [ | split]; auto].
  destruct (List.existsb (String.eqb method) (Account.methods holder))
    eqn:Hmethod; cbn [negb];
    [ | unfold throw; intros [= <- <-]; split; [ | split]; auto].
  assert (Hin : In method (Account.methods holder)).
  { apply existsb_exists in Hmethod as (m & Hm & Heq).
    apply String.eqb_eq in Heq. now subst m. }
  assert (Hget : getAccount (KeyringRequest.account keyringRequest) s
                 = (Ok (Some holder), s)).
  { unfold getAccount, StateManager.getAccount, gets. now rewrite Hholder. }
  assert (Hmessage :
    forall from op subType,
      method <> "eth_signTransaction" ->
      (custodianApi <- getCustodianApiForParam env from ;;
       details <- callCustodian (signMessage env) custodianApi op ;;
       RequestManagerFacade.upsertRequest
         (messageRequest env keyringRequest subType details) ;;;
       ret (signedMessageId details)) s = (r, s') ->
      wallets s' = wallets s
      /\ match r with
         | Err _ =>
             requests s' = requests s
             /\ (custodianCalls s' = custodianCalls s
                 \/ exists api op,
                      calledOnce s s' api op
                      /\ ((exists refusal,
                             signMessage env api op = Err refusal)
                          \/ exists refusal,
                               createTransaction env api op = Err refusal))
         | Ok custodianId =>
             exists holder api op record,
               getAccount (KeyringRequest.account keyringRequest) s
               = (Ok (Some holder), s)
               /\ In method (Account.methods holder)
               /\ calledOnce s s' api op
               /\ openRecordOf keyringRequest record
               /\ SnapRequest.lastUpdated record = now env
               /\ upserted record s s'
               /\ ((method = "eth_signTransaction"
                    /\ SnapRequest.type record = "transaction"
                    /\ exists response,
                         createTransaction env api op = Ok response
                         /\ SnapRequest.transaction record = Some response
                         /\ custodianId = custodianTransactionId response)
                   \/ (method <> "eth_signTransaction"
                       /\ SnapRequest.type record = "message"
                       /\ exists details,
                            signMessage env api op = Ok details
                            /\ SnapRequest.message record = Some details
                            /\ custodianId = signedMessageId details))
         end).
  { intros from op subType Hne H.
    apply messageSigning_inv in H as (Hw & _ & _ & H).
    split; [exact Hw | ]. destruct r as [custodianId | e].
    - destruct H as (api & a & k & details & _ & _ & _ & Hcall & Hsign
                     & Hid & Hup).
      exists holder, api, op,
        (messageRequest env keyringRequest subType details).
      split; [exact Hget | ]. split; [exact Hin | ].
      split; [exact Hcall | ]. split; [now repeat split | ].
      split; [reflexivity | ]. split; [exact Hup | ].
      right. split; [exact Hne | ]. split; [reflexivity | ].
      now exists details.
    - destruct H as [Hr [Hc | (api & refusal & Hcall & Hsign)]].
      + split; [exact Hr | now left].
      + split; [exact Hr | ]. right. exists api, op.
        split; [exact Hcall | ]. left. now exists refusal. }
  destruct (String.eqb_spec method EthMethod.PersonalSign) as [-> | _];
    [apply Hmessage; discriminate | ].
  destruct (String.eqb_spec method EthMethod.SignTransaction) as [-> | Hne].
  - destruct (nth 0 params JUndefined) as [a | tx | ].
    + unfold throw; intros [= <- <-]; split; [ | split]; auto.
    + intros H. apply signTransaction_inv in H as (Hw & _ & _ & H).
      split; [exact Hw | ]. destruct r as [custodianId | e].
      * destruct H as (api & k & payload & wallet & response & _ & _ & _ & _
                       & Hcall & Hcreate & Hid & Hup).
        eexists holder, api, _, _.
        split; [exact Hget | ]. split; [exact Hin | ].
        split; [exact Hcall | ]. split; [ | split; [ | split; [exact Hup | ]]].
        -- now repeat split.
        -- reflexivity.
        -- left. split; [reflexivity | ]. split; [reflexivity | ].
           now exists response.
      * destruct H as (_ & Hr & [Hc | (api & op & refusal & Hcall & Hcreate)]).
        -- split; [exact Hr | now left].
        -- split; [exact Hr | ]. right. exists api, op.
           split; [exact Hcall | ]. right. now exists refusal.
    + unfold throw; intros [= <- <-]; split; [ | split]; auto.
  - destruct (String.eqb_spec method EthMethod.SignTypedDataV3) as [-> | _];
      [apply Hmessage; discriminate | ].
    destruct (String.eqb_spec method EthMethod.SignTypedDataV4) as [-> | _];
      [apply Hmessage; discriminate | ].
    unfold throw; intros [= <- <-]; split; [ | split]; auto.
Qed.

(** The signing step shows no message. *)
Lemma messages_handleSigningRequest env method params keyringRequest s r s' :
  handleSigningRequest env method params keyringRequest s = (r, s') ->
  infoMessages s' = infoMessages s.
Proof.
  unfold handleSigningRequest. unfold bind at 1.
  unfold getAccount at 1, StateManager.getAccount at 1, gets at 1.
  destruct (option_map account _) as [holder | ];
    [ | unfold throw; now intros [= _ <-]].
  destruct (negb _); [unfold throw; now intros [= _ <-] | ].
  repeat match goal with
         | |- context [if String.eqb ?a ?b then _ else _] =>
             destruct (String.eqb a b)
         end;
    try (intros H; apply messageSigning_inv in H as (_ & _ & H & _);
         exact H);
    try (unfold throw; now intros [= _ <-]).
  destruct (nth 0 params JUndefined) as [a | tx | ];
    try (unfold throw; now intros [= _ <-]).
  intros H. now apply signTransaction_inv in H as (_ & _ & H & _).
Qed.

(** X16. A signing request that fails leaves no request record and no
    wallet changed, for every method and in every branch of
    [#handleSigningRequest]; at most one call was made on an API object,
    and then the custodian refused it. *)
Theorem X16_failed_signing_stores_nothing
    env method params keyringRequest s e s' :
  handleSigningRequest env method params keyringRequest s = (Err e, s') ->
  requests s' = requests s
  /\ wallets s' = wallets s
  /\ (custodianCalls s' = custodianCalls s
      \/ exists api op,
           calledOnce s s' api op
           /\ ((exists refusal, signMessage env api op = Err refusal)
               \/ exists refusal,
                    createTransaction env api op = Err refusal)).
Proof.
  intros H. apply handleSigningRequest_inv in H as (Hw & Hr & Hc).
  now repeat split.
Qed.

(** X17. A signing request that returns has made exactly one call on an
    API object, which the custodian accepted, and has upserted one record
    for the keyring request: open (not fulfilled, not rejected, no
    signature), stamped with the current time, of type "transaction" with
    the custodian's transaction for [eth_signTransaction] and of type
    "message" with the custodian's message details for the other methods.
    The id returned is the custodian's id of that transaction or message,
    the account of the request exists and lists the method, and no wallet
    changed. *)
Theorem X17_signing_records_the_request
    env method params keyringRequest s custodianId s' :
  handleSigningRequest env method params keyringRequest s
  = (Ok custodianId, s') ->
  exists holder api op record,
    getAccount (KeyringRequest.account keyringRequest) s
    = (Ok (Some holder), s)
    /\ In method (Account.methods holder)
    /\ calledOnce s s' api op
    /\ openRecordOf keyringRequest record
    /\ SnapRequest.lastUpdated record = now env
    /\ upserted record s s'
    /\ wallets s' = wallets s
    /\ ((method = "eth_signTransaction"
         /\ SnapRequest.type record = "transaction"
         /\ exists response,
              createTransaction env api op = Ok response
              /\ SnapRequest.transaction record = Some response
              /\ custodianId = custodianTransactionId response)
        \/ (method <> "eth_signTransaction"
            /\ SnapRequest.type record = "message"
            /\ exists details,
                 signMessage env api op = Ok details
                 /\ SnapRequest.message record = Some details
                 /\ custodianId = signedMessageId details)).
Proof.
  intros H. apply handleSigningRequest_inv in H
    as (Hw & holder & api & op & record & H1 & H2 & H3 & H4 & H5 & H6 & H7).
  exists holder, api, op, record.
  repeat (split; [assumption | ]). exact H7.
Qed.

(** X18. [#signTransaction] wraps every failure in an error whose
    message starts with "Failed to sign transaction: " and then stores no
    record. When it returns, the one call made on the API object of the
    sender is [createTransaction] with the payload of the helper, the chain
    id of the transaction and, as publication flag, the [deferPublication]
    stored with the first wallet that the state manager finds for the
    sender; the id returned is the custodian's transaction id. *)
Theorem X18_transaction_carries_the_stored_flag env tx keyringRequest s :
  (forall e s',
     signTransaction env tx keyringRequest s = (Err e, s') ->
     (exists m, e = Thrown ("Failed to sign transaction: " ++ m))
     /\ requests s' = requests s)
  /\ (forall custodianId s',
        signTransaction env tx keyringRequest s = (Ok custodianId, s') ->
        exists api k payload wallet response,
          EthUtil.toChecksumAddress (from tx) = Some k
          /\ custodianApi s' !! k = Some api
          /\ createTransactionPayload env tx = Ok payload
          /\ List.find
               (fun w => sameAddress env (walletAddress w) (from tx))
               (wallets s) = Some wallet
          /\ calledOnce s s' api
               (CreateTransaction payload (chainId tx)
                  (deferPublication
                     (custodian (Account.options (account wallet)))))
          /\ createTransaction env api
               (CreateTransaction payload (chainId tx)
                  (deferPublication
                     (custodian (Account.options (account wallet)))))
             = Ok response
          /\ custodianId = custodianTransactionId response).
Proof.
  split.
  - intros e s' H. apply signTransaction_inv in H as (_ & _ & _ & H).
    destruct H as (Hm & Hr & _). now split.
  - intros custodianId s' H.
    apply signTransaction_inv in H as (_ & _ & _ & H).
    destruct H as (api & k & payload & wallet & response & H1 & H2 & H3 & H4
                   & H5 & H6 & H7 & _).
    exists api, k, payload, wallet, response.
    repeat (split; [assumption | ]). exact H7.
Qed.

(** *** The registry of API objects *)

(** X19. The four outcomes of [getCustodianApiForAddress]. An address
    that is not a 0x-prefixed hexadecimal string is refused; a registered
    object is returned as it is; otherwise the state manager is asked for
    the wallet of the checksum form: without one the call fails with the
    wallet-not-found error that names the address as it was given, and
    with one a new object is built from the details stored with that
    wallet (token, refresh URL, API URL, type, cache age 1000) and
    registered under the checksum form. A call that fails changes
    nothing. *)
Theorem X19_client_lookup_outcomes env a s :
  (EthUtil.toChecksumAddress a = None ->
   getCustodianApiForAddress env a s = (Err (notHexStringError a), s))
  /\ forall k,
       EthUtil.toChecksumAddress a = Some k ->
       (forall api,
          custodianApi s !! k = Some api ->
          getCustodianApiForAddress env a s = (Ok api, s))
       /\ (custodianApi s !! k = None ->
           match
             List.find (fun w => sameAddress env (walletAddress w) k)
               (wallets s)
           with
           | None =>
               getCustodianApiForAddress env a s
               = (Err (WalletDoesNotExist a), s)
           | Some w =>
               exists api s',
                 getCustodianApiForAddress env a s = (Ok api, s')
                 /\ apiRefreshToken api = token (details w)
                 /\ apiRefreshTokenUrl api = refreshTokenUrl (details w)
                 /\ custodianUrl api = custodianApiUrl (details w)
                 /\ apiType api = custodianType (details w)
                 /\ apiCacheAge api = 1000%Z
                 /\ custodianApi s' = <[k := api]> (custodianApi s)
                 /\ constructed s' = S (constructed s)
                 /\ registryOnly s s'
           end).
Proof.
  split; [apply getCustodianApiForAddress_not_hex | ].
  intros k Hk. split.
  - intros api Hapi. now apply getCustodianApiForAddress_hit with (k := k).
  - intros Hnone.
    destruct (List.find _ (wallets s)) as [w | ] eqn:Hfind.
    + eexists _, _. split.
      * now apply getCustodianApiForAddress_miss with (k := k) (w := w).
      * repeat split.
    + now apply getCustodianApiForAddress_no_wallet with (k := k).
Qed.

(** *** Submission *)

Lemma fetchDeepLink_inv env method address custodianId s r s' :
  fetchDeepLink env method address custodianId s = (r, s') ->
  wallets s' = wallets s
  /\ requests s' = requests s
  /\ infoMessages s' = infoMessages s
  /\ (custodianCalls s' = custodianCalls s
      \/ exists api op,
           custodianCalls s' = (custodianCalls s ++ [(api, op)])%list).
Proof.
  unfold fetchDeepLink, bind, callCustodian.
  destruct (String.eqb method EthMethod.SignTransaction);
    (destruct (getCustodianApiForAddress env address s)
       as [[api | e] s1] eqn:Hget;
     apply getCustodianApiForAddress_inv in Hget
       as [(Hw & Hr & Hk & Hc & Hi) _];
     intros [= <- <-]; cbn;
     [ rewrite Hw, Hr, Hi, Hc; repeat split; right; eauto
     | now repeat split; auto ]).
Qed.

(** The signing step sends no keyring event. *)
Lemma events_handleSigningRequest env method params keyringRequest s r s' :
  handleSigningRequest env method params keyringRequest s = (r, s') ->
  keyringEvents s' = keyringEvents s.
Proof.
  unfold handleSigningRequest. unfold bind at 1.
  unfold getAccount at 1, StateManager.getAccount at 1, gets at 1.
  destruct (option_map account _) as [holder | ];
    [ | unfold throw; now intros [= _ <-]].
  destruct (negb _); [unfold throw; now intros [= _ <-] | ].
  repeat match goal with
         | |- context [if String.eqb ?a ?b then _ else _] =>
             destruct (String.eqb a b)
         end;
    try (intros H; apply messageSigning_inv in H as (_ & H & _);
         exact H);
    try (unfold throw; now intros [= _ <-]).
  destruct (nth 0 params JUndefined) as [a | tx | ];
    try (unfold throw; now intros [= _ <-]).
  intros H. now apply signTransaction_inv in H as (_ & H & _).
Qed.

(** X20. A submission that returns, in either mode, returns
    [{pending: true}]; the request had passed the check on its shape, and
    these steps were taken and no other. The signing step returned the
    id [custodianId] that the custodian gave in its answer to the one
    signing call, and upserted one open record for the request. The API
    object of the address of the account [holder] was then looked up in
    the state [s1] that the signing step left. When the lookup returned
    an object, the link was requested from it, for a transaction or for
    a signed message according to the method, and this is the second
    and last call on an API object; the message shown is made of the
    link that the custodian returned or, when it refused, of the
    fallback link. When the lookup failed no link was requested and the
    message is made of the fallback link. One message was shown; no
    keyring event was sent and no wallet changed; the registry and the
    count of objects built are as the lookup left them. *)
Theorem X20_submission_steps env request s r s' :
  submitRequest env request s = (Ok r, s') ->
  r = Pending
  /\ admitted env request
  /\ wallets s' = wallets s
  /\ keyringEvents s' = keyringEvents s
  /\ exists custodianId s1 holder signer signing record,
       handleSigningRequest env (KeyringRequest.method request)
         (match KeyringRequest.params request with
          | Some params => params
          | None => []
          end) request s = (Ok custodianId, s1)
       /\ getAccount (KeyringRequest.account request) s
          = (Ok (Some holder), s)
       /\ ((exists response,
              createTransaction env signer signing = Ok response
              /\ custodianId = custodianTransactionId response)
           \/ (exists details,
                 signMessage env signer signing = Ok details
                 /\ custodianId = signedMessageId details))
       /\ openRecordOf request record
       /\ SnapRequest.lastUpdated record = now env
       /\ upserted record s s'
       /\ let linkRequest :=
            if String.eqb (KeyringRequest.method request)
                 EthMethod.SignTransaction
            then GetTransactionLink custodianId
            else GetSignedMessageLink custodianId in
          let shown (link : CustodianDeepLink.t) :=
            (infoMessages s
             ++ [(CustodianDeepLink.text link ++ " Transaction ID: "
                  ++ CustodianDeepLink.id link)%string])%list in
          match
            getCustodianApiForAddress env (Account.address holder) s1
          with
          | (Ok api, s2) =>
              custodianCalls s'
              = (custodianCalls s
                 ++ [(signer, signing); (api, linkRequest)])%list
              /\ infoMessages s'
                 = shown
                     match getLink env api linkRequest with
                     | Ok link => link
                     | Err _ => fallbackDeepLink custodianId
                     end
              /\ custodianApi s' = custodianApi s2
              /\ constructed s' = constructed s2
          | (Err _, _) =>
              custodianCalls s'
              = (custodianCalls s ++ [(signer, signing)])%list
              /\ infoMessages s' = shown (fallbackDeepLink custodianId)
              /\ custodianApi s' = custodianApi s1
              /\ constructed s' = constructed s1
          end.
Proof.
  intros H.
  pose proof (submitRequest_ok_admitted _ _ _ _ _ H) as Hadmitted.
  apply submitRequest_ok_inv in H.
  split; [eapply asyncSubmitRequest_pending, H | ].
  split; [exact Hadmitted | ].
  revert H. unfold asyncSubmitRequest. unfold bind at 1.
  destruct (handleSigningRequest _ _ _ _ s) as [[custodianId | e] s1]
    eqn:Hsign; [ | discriminate].
  pose proof (handleSigningRequest_inv _ _ _ _ _ _ _ Hsign)
    as (Hw1 & holder & signer & signing & record & Hholder & _ & Hcall
        & Hopen & Htime & Hup & Hanswer).
  pose proof (messages_handleSigningRequest _ _ _ _ _ _ _ Hsign) as Hi1.
  pose proof (events_handleSigningRequest _ _ _ _ _ _ _ Hsign) as He1.
  assert (Hholder1 : getAccount (KeyringRequest.account request) s1
                     = (Ok (Some holder), s1)).
  { revert Hholder. unfold getAccount, StateManager.getAccount, gets.
    rewrite Hw1. intros [= Heq]. now rewrite Heq. }
  unfold bind at 1. rewrite Hholder1.
  assert (Hsigned :
    (exists response,
       createTransaction env signer signing = Ok response
       /\ custodianId = custodianTransactionId response)
    \/ (exists details,
          signMessage env signer signing = Ok details
          /\ custodianId = signedMessageId details)).
  { destruct Hanswer as [(_ & _ & response & Hr & _ & Hid)
                        | (_ & _ & details & Hd & _ & Hid)];
      [left; now exists response | right; now exists details]. }
  unfold bind at 1, tryCatch, fetchDeepLink.
  unfold upserted, calledOnce in *.
  destruct (String.eqb (KeyringRequest.method request)
              EthMethod.SignTransaction);
    unfold bind at 1;
    (destruct (getCustodianApiForAddress env (Account.address holder) s1)
       as [[api | e] s2] eqn:Hget;
     pose proof (getCustodianApiForAddress_inv _ _ _ _ _ Hget)
       as [(Hw2 & Hr2 & Hk2 & Hc2 & Hi2) Hs2];
     [ unfold callCustodian;
       destruct (getLink env api _) as [link | e] eqn:Hlink
     | subst s2 ]);
    unfold bind, renderInfoMessage, modify, ret; intros [= _ <-];
    cbn [wallets requests infoMessages custodianCalls keyringEvents
         custodianApi constructed logInfoMessage logCustodianCall];
    (split; [congruence | ]); (split; [congruence | ]);
    exists custodianId, s1, holder, signer, signing, record;
    (split; [reflexivity | ]); (split; [exact Hholder | ]);
    (split; [exact Hsigned | ]); (split; [exact Hopen | ]);
    (split; [exact Htime | ]); (split; [congruence | ]);
    cbn zeta; rewrite Hget, ?Hlink;
    rewrite ?Hc2, ?Hi2, Hcall, Hi1, <- ?app_assoc; now repeat split.
Qed.

(** *** What the operations keep *)

Section WalletsOfSubmission.

Variable W : list Wallet.

Lemma wallets_fetchDeepLink env method address custodianId :
  preserves (fun s => wallets s = W)
    (fetchDeepLink env method address custodianId).
Proof.
  intros s Hs.
  destruct (fetchDeepLink env method address custodianId s) as [r s']
    eqn:Hlink.
  apply fetchDeepLink_inv in Hlink as (Hw & _). cbn [snd]. congruence.
Qed.

Lemma wallets_asyncSubmitRequest env request :
  preserves (fun s => wallets s = W) (asyncSubmitRequest env request).
Proof.
  unfold asyncSubmitRequest.
  preserves_with
    ltac:(idtac;
          first [ apply wallets_handleSigningRequest
                | apply wallets_fetchDeepLink
                | apply preserves_gets
                | unfold renderInfoMessage; apply preserves_modify;
                  intros ? Hs; exact Hs ]).
Qed.

Lemma wallets_submitRequest env request :
  preserves (fun s => wallets s = W) (submitRequest env request).
Proof.
  unfold submitRequest, runSensitive, assert.
  destruct (dev env); [apply wallets_asyncSubmitRequest | ].
  preserves_with ltac:(idtac; apply wallets_asyncSubmitRequest).
Qed.

End WalletsOfSubmission.

(** A rotation keeps the accounts of the wallets. *)
Lemma handleTokenChangedEvent_accounts payload s :
  map account (wallets (snd (handleTokenChangedEvent payload s)))
  = map account (wallets s).
Proof.
  rewrite handleTokenChangedEvent_fold. cbn [snd].
  rewrite fold_evict_wallets.
  generalize (List.filter (matchesEvent payload) (wallets s)) as l.
  generalize (wallets s) as ws.
  intros ws l. revert ws.
  induction l as [ | w l IH]; intros ws; [reflexivity | ].
  cbn [fold_left]. rewrite IH, map_map. apply map_ext.
  intros x. now destruct (String.eqb _ _).
Qed.

(** What one command does to the wallets: it keeps their accounts, or it
    is a [createAccount] that returned, or it removes wallets. *)
Lemma execute_accounts s c :
  map account (wallets (execute s c)) = map account (wallets s)
  \/ (exists env options created,
        createAccount env options s = (Ok created, execute s c))
  \/ exists p, wallets (execute s c) = List.filter p (wallets s).
Proof.
  destruct c as [env options | env id | env | env id | env request
                 | env address | env address | payload]; cbn [execute].
  - destruct (createAccount env options s) as [[created | e] s1] eqn:H.
    + right. left. now exists env, options, created.
    + left. apply createAccount_err_inv in H as (Hw & _). cbn [snd].
      now rewrite Hw.
  - unfold deleteAccount, tryCatch, StateManager.withTransaction, bind,
      StateManager.removeAccounts, emitEvent, throw.
    destruct (List.forallb _ [id]); [ | now left].
    destruct (emitSnapKeyringEvent env (AccountDeleted id)) as [[] | e].
    + right. right. eexists. reflexivity.
    + now left.
  - left. unfold listRequests. now destruct (dev env).
  - left. unfold getRequest. destruct (dev env); [ | reflexivity].
    unfold bind, RequestManagerFacade.listRequests, gets.
    now destruct (List.find _ _).
  - left. now rewrite (wallets_submitRequest (wallets s) env request s).
  - left.
    destruct (getCustodianApiForAddress env address s) as [r s1] eqn:H.
    apply getCustodianApiForAddress_inv in H as ((Hw & _) & _).
    cbn [snd]. now rewrite Hw.
  - left. destruct (EthUtil.toChecksumAddress address); [ | reflexivity].
    unfold registerCustodianApi, bind, StateManager.getWalletByAddress,
      gets.
    now destruct (List.find _ _).
  - left. apply handleTokenChangedEvent_accounts.
Qed.

Lemma reachable_ind_step (P : State -> Prop) :
  P emptyState ->
  (forall s c, reachable s -> P s -> P (execute s c)) ->
  forall s, reachable s -> P s.
Proof.
  intros Hempty Hstep s [commands ->].
  induction commands as [ | c commands IH] using rev_ind; [exact Hempty | ].
  rewrite fold_left_app. cbn [fold_left].
  apply Hstep; [now exists commands | exact IH].
Qed.


(** X22. Every account that the keyring holds, in a state that it
    reaches from its construction, is of type "eip155:eoa" and lists the
    four signing methods and no other: a method that passes the check
    against the list of the account is one that [#handleSigningRequest]
    dispatches. *)
Theorem X22_listed_methods_are_dispatched s w method :
  reachable s ->
  In w (wallets s) ->
  Account.type (account w) = "eip155:eoa"
  /\ (In method (Account.methods (account w))
      <-> dispatched method = true).
Proof.
  intros Hreach Hin.
  assert (Hall :
    Forall (fun a =>
              Account.type a = "eip155:eoa"
              /\ Account.methods a
                 = [ EthMethod.SignTransaction; EthMethod.PersonalSign;
                     EthMethod.SignTypedDataV3; EthMethod.SignTypedDataV4 ])
      (map account (wallets s))).
  { clear w Hin. revert s Hreach.
    apply reachable_ind_step; [constructor | ].
    intros s c _ IH.
    destruct (execute_accounts s c)
      as [Hsame | [(env & options & created & Hcreate) | (p & Hfilter)]].
    - now rewrite Hsame.
    - destruct (createAccount_ok_inv _ _ _ _ _ Hcreate)
        as (environment & Hcreated & _ & _ & Hs').
      rewrite Hs'. cbn [wallets setWallets]. rewrite map_app.
      apply Forall_app. split; [exact IH | ].
      constructor; [ | constructor]. cbn [account]. now rewrite Hcreated.
    - rewrite Hfilter. apply Forall_forall. intros a Ha.
      apply list_elem_of_In, in_map_iff in Ha as (x & <- & Hx).
      apply filter_In in Hx as [Hx _].
      rewrite Forall_forall in IH. apply IH.
      apply list_elem_of_In, in_map, Hx. }
  rewrite Forall_forall in Hall.
  destruct (Hall (account w)) as [Htype Hmethods];
    [apply list_elem_of_In, in_map, Hin | ].
  split; [exact Htype | ]. rewrite Hmethods. unfold dispatched.
  cbn [In]. rewrite !orb_true_iff, !String.eqb_eq.
  unfold EthMethod.SignTransaction, EthMethod.PersonalSign,
    EthMethod.SignTypedDataV3, EthMethod.SignTypedDataV4.
  intuition congruence.
Qed.

(** X23. The delivery of a token-change event a second time changes
    nothing: for wallets with different ids and an event whose two tokens
    differ, after the handler no wallet matches the event any more, and
    the handler run again returns with the state as it found it. *)
Theorem X23_repeated_rotation_changes_nothing payload s :
  NoDup (map walletId (wallets s)) ->
  newRefreshToken payload <> oldRefreshToken payload ->
  let s1 := snd (handleTokenChangedEvent payload s) in
  List.filter (matchesEvent payload) (wallets s1) = []
  /\ handleTokenChangedEvent payload s1 = (Ok tt, s1).
Proof.
  intros Hnd Hne s1.
  assert (Hnone : List.filter (matchesEvent payload) (wallets s1) = []).
  { subst s1. rewrite (handleTokenChangedEvent_wallets payload s Hnd).
    assert (Hrotated : forall w, matchesEvent payload (rotated payload w)
                                 = false).
    { intros w. unfold matchesEvent, rotated. cbn.
      destruct (String.eqb_spec (newRefreshToken payload)
                  (oldRefreshToken payload)) as [ | _];
        [contradiction | reflexivity]. }
    clear Hnd. induction (wallets s) as [ | w ws IH]; [reflexivity | ].
    cbn [map List.filter].
    destruct (matchesEvent payload w) eqn:Hm.
    - now rewrite Hrotated.
    - now rewrite Hm. }
  split; [exact Hnone | ].
  rewrite handleTokenChangedEvent_fold, Hnone. reflexivity.
Qed.

(** X24. Deleting an account that was just created restores the store:
    when [createAccount] returned an account whose id no earlier wallet
    has, and the receiver accepts the AccountDeleted event, [deleteAccount]
    with that id returns and the wallets are those before the creation, so
    that the address can be imported again. *)
Theorem X24_delete_undoes_create env env' options s created s1 :
  createAccount env options s = (Ok created, s1) ->
  (forall w, In w (wallets s) -> walletId w <> uuid env) ->
  emitSnapKeyringEvent env' (AccountDeleted (Account.id created)) = Ok tt ->
  let s2 := snd (deleteAccount env' (Account.id created) s1) in
  fst (deleteAccount env' (Account.id created) s1) = Ok tt
  /\ wallets s2 = wallets s
  /\ isUniqueAddress (CreateAccountOptions.address options) (wallets s2)
     = true.
Proof.
  intros Hcreate Hfresh Haccept s2. subst s2.
  destruct (createAccount_ok_inv _ _ _ _ _ Hcreate)
    as (environment & Hcreated & _ & Hunique & ->).
  assert (Hid : Account.id created = uuid env) by now rewrite Hcreated.
  unfold deleteAccount, tryCatch, StateManager.withTransaction, bind,
    StateManager.removeAccounts, emitEvent, throw.
  cbn [wallets setWallets logKeyringEvent List.forallb].
  rewrite existsb_app. cbn [List.existsb account].
  rewrite String.eqb_refl, orb_true_r. cbn [andb].
  rewrite Haccept. cbn [fst snd wallets setWallets logKeyringEvent].
  assert (Hw :
    List.filter
      (fun w =>
         negb (String.eqb (Account.id (account w)) (Account.id created)
               || false))
      (wallets s ++ [{| account := created;
                        details := CreateAccountOptions.details options |}])
    = wallets s).
  { rewrite List.filter_app. cbn [List.filter account].
    rewrite String.eqb_refl. cbn [orb negb]. rewrite app_nil_r.
    rewrite Hid. clear Hcreate Hunique.
    induction (wallets s) as [ | w ws IH]; [reflexivity | ].
    cbn [List.filter].
    destruct (String.eqb_spec (Account.id (account w)) (uuid env))
      as [Heq | _].
    - destruct (Hfresh w); [now left | exact Heq].
    - cbn [orb negb]. f_equal. apply IH.
      intros x Hx. apply Hfresh. now right. }
  split; [reflexivity | ]. rewrite Hw. split; [reflexivity | exact Hunique].
Qed.

(** ** The entry points of the snap *)

Import Snap.

(** *** The cron jobs *)

Lemma onCronjob_execute w :
  onCronjob w "execute"
  = if asleep w then (Ok tt, [GetSleepState])
    else if locked w then
      (Ok tt, [GetSleepState; GetClientStatus; SetSleepState true])
    else if activated w then
      (polled w,
       [GetSleepState; GetClientStatus; SyncDevMode; GetActivated; Poll])
    else
      (Ok tt,
       [GetSleepState; GetClientStatus; SyncDevMode; GetActivated;
        SetSleepState true]).
Proof.
  unfold onCronjob, lockedOrInactive, pollRequests. cbn.
  destruct (asleep w), (locked w), (activated w); reflexivity.
Qed.

Lemma onCronjob_manageSleepState w :
  onCronjob w "manageSleepState"
  = if locked w then (Ok tt, [GetClientStatus; SetSleepState true])
    else
      (Ok tt,
       [GetClientStatus; SyncDevMode; GetActivated;
        SetSleepState (negb (activated w))]).
Proof.
  unfold onCronjob, lockedOrInactive. cbn.
  destruct (locked w), (activated w); reflexivity.
Qed.

Lemma onCronjob_other w method :
  method <> "execute" -> method <> "manageSleepState" ->
  onCronjob w method = (Err (Thrown "Method not found."), []).
Proof.
  intros H1 H2. unfold onCronjob.
  destruct (String.eqb_spec method "execute"); [contradiction | ].
  destruct (String.eqb_spec method "manageSleepState");
    [contradiction | reflexivity].
Qed.

(** The three cases of the method of a cron job. *)
Ltac cron_cases w method :=
  destruct (String.eqb_spec method "execute") as [-> | ?];
  [ rewrite onCronjob_execute
  | destruct (String.eqb_spec method "manageSleepState") as [-> | ?];
    [ rewrite onCronjob_manageSleepState
    | rewrite onCronjob_other by assumption ] ];
  destruct (asleep w) eqn:?, (locked w) eqn:?, (activated w) eqn:?;
  cbn [snd fst negb].

Ltac in_trace :=
  repeat match goal with
         | H : In _ _ |- _ => cbn [In] in H
         | H : _ \/ _ |- _ => destruct H
         | H : False |- _ => destruct H
         | H : _ /\ _ |- _ => destruct H
         end;
  try discriminate; try congruence.

(** X25. A cron job polls the requests exactly when it is the [execute]
    job, the snap is not asleep, the client is not locked and the snap is
    activated; the outcome of the job is then the outcome of the poll. *)
Theorem X25_polls_only_awake_unlocked_activated w method :
  (In Poll (snd (onCronjob w method))
   <-> method = "execute" /\ asleep w = false /\ locked w = false
       /\ activated w = true)
  /\ (In Poll (snd (onCronjob w method)) ->
      fst (onCronjob w method) = polled w).
Proof.
  split; [split | ]; cron_cases w method; intros; in_trace;
    cbn [In]; auto 10.
Qed.

(** X26. Only the [manageSleepState] job wakes the snap, and only when
    the client is unlocked and the snap activated; both jobs put it to
    sleep when the client is locked or the snap is not activated, the
    [execute] job only if it was awake. When the snap is asleep the
    [execute] job asks for nothing but the sleep state; when the client is
    locked no job calls the state manager; a job of another name fails with
    "Method not found." and does nothing. *)
Theorem X26_sleep_state_is_kept_by_the_jobs w method :
  let trace := snd (onCronjob w method) in
  (In (SetSleepState false) trace
   <-> method = "manageSleepState" /\ locked w = false
       /\ activated w = true)
  /\ (In (SetSleepState true) trace
      <-> (method = "manageSleepState"
           \/ method = "execute" /\ asleep w = false)
          /\ (locked w = true \/ activated w = false))
  /\ (method = "execute" -> asleep w = true -> trace = [GetSleepState])
  /\ (locked w = true ->
      ~ In SyncDevMode trace /\ ~ In GetActivated trace)
  /\ (method <> "execute" -> method <> "manageSleepState" ->
      onCronjob w method = (Err (Thrown "Method not found."), [])).
Proof.
  cbn zeta. split; [ | split; [ | split; [ | split]]].
  - split; cron_cases w method; intros; in_trace; cbn [In]; auto 10.
  - split; cron_cases w method; intros; in_trace; cbn [In]; auto 10.
  - intros -> Ha. now rewrite onCronjob_execute, Ha.
  - cron_cases w method; intros; in_trace; split; intros Hin; in_trace.
  - apply onCronjob_other.
Qed.

(** *** Onboarding *)

Lemma createAccounts_inv envs accountsToAdd :
  forall n s added failed s',
    createAccounts envs n accountsToAdd s = (added, failed, s') ->
    sublist added accountsToAdd
    /\ (length added + length failed = length accountsToAdd)%nat
    /\ Forall (fun failure => In (fst failure) accountsToAdd) failed
    /\ (exists new,
          wallets s' = (wallets s ++ new)%list /\ Forall2 walletOf added new)
    /\ requests s' = requests s
    /\ custodianApi s' = custodianApi s
    /\ constructed s' = constructed s.
Proof.
  induction accountsToAdd as [ | options rest IH];
    intros n s added failed s'; cbn [createAccounts].
  - intros [= <- <- <-]. repeat split; try constructor.
    exists []. split; [now rewrite app_nil_r | constructor].
  - destruct (createAccount (envs n) options s) as [[created | e] s1] eqn:Hc;
      destruct (createAccounts envs (S n) rest s1) as [[added1 failed1] s2]
        eqn:Hrest;
      intros [= <- <- <-];
      destruct (IH _ _ _ _ _ Hrest)
        as (Hsub & Hlen & Hfailed & (new & Hnew & Hall) & Hr & Hreg & Hcon).
    + destruct (createAccount_ok_inv _ _ _ _ _ Hc)
        as (environment & Hcreated & _ & _ & ->).
      cbn [wallets setWallets requests custodianApi constructed
             logKeyringEvent] in *.
      split; [now constructor | ].
      split; [cbn [length]; lia | ].
      split; [eapply Forall_impl; [exact Hfailed | cbn; auto] | ].
      split; [ | now repeat split].
      exists ({| account := created;
                 details := CreateAccountOptions.details options |} :: new).
      split; [now rewrite Hnew, <- app_assoc | ].
      constructor; [ | exact Hall].
      rewrite Hcreated. now repeat split.
    + destruct (createAccount_err_inv _ _ _ _ _ Hc)
        as (Hw1 & Hr1 & Hreg1 & Hcon1).
      split; [now constructor | ].
      split; [cbn [length]; lia | ].
      split; [constructor;
              [now left
              | eapply Forall_impl; [exact Hfailed | cbn; auto]] | ].
      split; [exists new; now rewrite Hnew, Hw1 | ].
      now rewrite Hr, Hreg, Hcon, Hr1, Hreg1, Hcon1.
Qed.

Lemma withToken_own request : withToken (token request) request = request.
Proof. now destruct request. Qed.

Lemma withToken_twice t1 t2 request :
  withToken t2 (withToken t1 request) = withToken t2 request.
Proof. reflexivity. Qed.

Lemma last_cons_default {A} (l : list A) (a d d' : A) :
  List.last (a :: l) d = List.last (a :: l) d'.
Proof.
  revert a. induction l as [ | b l IH]; intros a; [reflexivity | ].
  change (List.last (a :: b :: l) d) with (List.last (b :: l) d).
  change (List.last (a :: b :: l) d') with (List.last (b :: l) d').
  apply IH.
Qed.

(** The listener keeps the last token announced. *)
Lemma detailsUsed_last w request :
  detailsUsed w request
  = withToken
      (List.last (map newRefreshToken (fst (getEthereumAccounts w request)))
         (token request))
      request.
Proof.
  unfold detailsUsed.
  generalize (fst (getEthereumAccounts w request)) as events.
  intros events. rewrite <- (withToken_own request) at 1.
  generalize (token request) as t.
  induction events as [ | event events IH]; intros t; [reflexivity | ].
  cbn [fold_left map]. unfold onRefreshTokenChange at 2.
  rewrite withToken_twice, IH.
  destruct events as [ | next events]; [reflexivity | ].
  cbn [map]. f_equal.
  change (List.last (newRefreshToken event :: newRefreshToken next
                     :: map newRefreshToken events) t)
    with (List.last (newRefreshToken next :: map newRefreshToken events) t).
  apply last_cons_default.
Qed.

(** The loop that drops the known accounts is one filter. *)
Lemma withoutExisting_filter existingAccounts accounts :
  withoutExisting existingAccounts accounts
  = List.filter
      (fun account =>
         negb (List.existsb
                 (fun existingAccount =>
                    String.eqb (OnboardingAccount.address account)
                               (Account.address existingAccount))
                 existingAccounts))
      accounts.
Proof.
  unfold withoutExisting. revert accounts.
  induction existingAccounts as [ | existing rest IH]; intros accounts.
  - cbn. induction accounts as [ | a l IHl]; [reflexivity | ].
    cbn. now rewrite <- IHl.
  - cbn [fold_left]. rewrite IH. clear IH.
    induction accounts as [ | a l IHl]; [reflexivity | ].
    cbn [List.filter List.existsb].
    destruct (String.eqb (OnboardingAccount.address a)
                (Account.address existing)); cbn [negb orb List.filter].
    + exact IHl.
    + destruct (List.existsb _ rest); cbn [negb]; now rewrite IHl.
Qed.

Lemma filter_sublist {A} (p : A -> bool) (l : list A) :
  sublist (List.filter p l) l.
Proof.
  induction l as [ | x l IH]; cbn [List.filter]; [constructor | ].
  destruct (p x); now constructor.
Qed.

(** The course of an onboarding, by the answers of the custodian and of
    the dialog. *)
Lemma handleOnboarding_cases w request origin s :
  let offered listed :=
    withoutExisting (map account (wallets s)) listed in
  let shown listed :=
    (opening request
     ++ [RenderOnboarding (detailsUsed w request) (offered listed)])%list in
  match snd (getEthereumAccounts w request) with
  | Err error =>
      handleOnboarding w request origin s = (Err error, s, opening request)
  | Ok listed =>
      match
        renderOnboarding w (detailsUsed w request) (offered listed)
      with
      | Err error =>
          handleOnboarding w request origin s = (Err error, s, shown listed)
      | Ok None =>
          handleOnboarding w request origin s = (Ok [], s, shown listed)
      | Ok (Some selected) =>
          let '(added, failed, s') :=
            createAccounts (keyringEnv w) 0
              (map (accountToAdd (detailsUsed w request) origin) selected)
              s in
          handleOnboarding w request origin s
          = (Ok added, s',
             match failed with
             | [] => shown listed
             | _ :: _ =>
                 (shown listed
                  ++ [RenderErrorMessage
                        (String.concat newline (map failureLine failed))])%list
             end)
      end
  end.
Proof.
  cbn zeta. unfold handleOnboarding, detailsUsed, opening, listAccounts, gets.
  destruct (getEthereumAccounts w request) as [events [listed | error]];
    cbn [fst snd]; [ | reflexivity].
  destruct (renderOnboarding w _ _) as [[selected | ] | error];
    try reflexivity.
  destruct (createAccounts _ _ _ _) as [[added failed] s'].
  destruct failed; reflexivity.
Qed.

Lemma Forall_of_sublist {A} (P : A -> Prop) (l1 l2 : list A) :
  sublist l1 l2 -> Forall P l2 -> Forall P l1.
Proof.
  induction 1 as [ | x l1 l2 _ IH | x l1 l2 _ IH]; intros H;
    [constructor | | ]; apply Forall_cons in H as [Hx H].
  - constructor; [exact Hx | now apply IH].
  - now apply IH.
Qed.

(** X27. What an onboarding returns is what it stored: the wallets added
    to the store are, in order, those of the accounts returned. Each was
    created for the origin of the call and with the details of the
    request, in which the refresh token is the last one that the API
    object announced while it listed the accounts (the token of the
    request when it announced none). The request records and the registry
    of API objects are untouched. *)
Theorem X27_onboarding_stores_what_it_returns
    w request origin s added s' trace :
  handleOnboarding w request origin s = (Ok added, s', trace) ->
  let used :=
    withToken
      (List.last (map newRefreshToken (fst (getEthereumAccounts w request)))
         (token request))
      request in
  Forall
    (fun options =>
       CreateAccountOptions.details options = used
       /\ CreateAccountOptions.origin options = origin)
    added
  /\ (exists new,
        wallets s' = (wallets s ++ new)%list /\ Forall2 walletOf added new)
  /\ requests s' = requests s
  /\ custodianApi s' = custodianApi s.
Proof.
  intros H used. subst used. rewrite <- detailsUsed_last.
  pose proof (handleOnboarding_cases w request origin s) as Hcases.
  cbn zeta in Hcases.
  destruct (snd (getEthereumAccounts w request)) as [listed | error];
    [ | congruence].
  destruct (renderOnboarding w _ _) as [[selected | ] | error];
    [ | | congruence].
  - destruct (createAccounts _ _ _ _) as [[added1 failed] s1] eqn:Hloop.
    rewrite Hcases in H. injection H as <- <- _.
    apply createAccounts_inv in Hloop
      as (Hsub & _ & _ & Hnew & Hr & Hreg & _).
    split; [ | now repeat split].
    apply (Forall_of_sublist _ _ _ Hsub).
    apply Forall_forall. intros options Hin.
    apply list_elem_of_In, in_map_iff in Hin as (a & <- & _). now split.
  - rewrite Hcases in H. injection H as <- <- _.
    split; [constructor | ]. split; [ | now split].
    exists []. split; [now rewrite app_nil_r | constructor].
Qed.

(** The loop of the onboarding is a sequence of calls of
    [createAccount], one for each of the options and in their order. *)
Lemma createAccounts_attempted envs accountsToAdd :
  forall n s added failed s',
    createAccounts envs n accountsToAdd s = (added, failed, s') ->
    exists attempts,
      Attempted envs n s attempts s'
      /\ map fst attempts = accountsToAdd
      /\ added = succeeded attempts
      /\ failed = failures attempts.
Proof.
  induction accountsToAdd as [ | options rest IH];
    intros n s added failed s'; cbn [createAccounts].
  - intros [= <- <- <-]. exists []. repeat split. constructor.
  - destruct (createAccount (envs n) options s) as [outcome s1] eqn:Hc.
    destruct (createAccounts envs (S n) rest s1) as [[added1 failed1] s2]
      eqn:Hrest.
    destruct (IH _ _ _ _ _ Hrest) as (attempts & Hrun & Hfst & -> & ->).
    intros H. exists ((options, outcome) :: attempts).
    assert (Hs' : s' = s2)
      by (destruct outcome; now injection H as _ _ <-).
    subst s'.
    split; [econstructor; [exact Hc | exact Hrun] | ].
    split; [cbn [map fst]; now rewrite Hfst | ].
    destruct outcome as [created | error]; injection H as <- <- ;
      now split.
Qed.

(** X28. A failure of [createAccount] does not end an onboarding. When
    the dialog returns a selection, the call returns after it has called
    [createAccount] once for every account selected, in the order of the
    selection, each call in the state that the call before it left, with
    the details of the request and the origin of the caller. The
    accounts returned are those whose call returned, in that order. One
    error dialog is shown exactly when a call threw, with one line
    "Failed to add account <address>: <message>" for each call that
    threw, in the order of the calls and with the message of its error.
    When the dialog returns null nothing is created and [] is
    returned. *)
Theorem X28_failures_are_reported_not_thrown
    w request origin s added s' trace :
  handleOnboarding w request origin s = (Ok added, s', trace) ->
  exists offered,
    let shown :=
      (opening request
       ++ [RenderOnboarding (detailsUsed w request) offered])%list in
    (renderOnboarding w (detailsUsed w request) offered = Ok None
     /\ added = [] /\ s' = s /\ trace = shown)
    \/ exists selected attempts,
         renderOnboarding w (detailsUsed w request) offered
         = Ok (Some selected)
         /\ Attempted (keyringEnv w) 0 s attempts s'
         /\ map fst attempts
            = map (accountToAdd (detailsUsed w request) origin) selected
         /\ added = succeeded attempts
         /\ trace
            = match failures attempts with
              | [] => shown
              | _ :: _ =>
                  (shown
                   ++ [RenderErrorMessage
                         (String.concat newline
                            (map failureLine (failures attempts)))])%list
              end.
Proof.
  intros H.
  pose proof (handleOnboarding_cases w request origin s) as Hcases.
  cbn zeta in Hcases.
  destruct (snd (getEthereumAccounts w request)) as [listed | error];
    [ | congruence].
  exists (withoutExisting (map account (wallets s)) listed). cbn zeta.
  destruct (renderOnboarding w _ _) as [[selected | ] | error];
    [ | | congruence].
  - right.
    destruct (createAccounts _ _ _ _) as [[added1 failed] s1] eqn:Hloop.
    rewrite Hcases in H. injection H as <- <- <-.
    apply createAccounts_attempted in Hloop
      as (attempts & Hrun & Hfst & -> & ->).
    exists selected, attempts. now repeat split.
  - left. rewrite Hcases in H. injection H as <- <- <-. now repeat split.
Qed.

(** X29. The onboarding dialog offers the accounts that the custodian
    listed, in their order, without those whose address is, as a string,
    the stored address of a wallet of the keyring. *)
Theorem X29_known_accounts_are_not_offered
    w request origin s shownRequest offered :
  In (RenderOnboarding shownRequest offered)
    (snd (handleOnboarding w request origin s)) ->
  exists listed,
    snd (getEthereumAccounts w request) = Ok listed
    /\ shownRequest = detailsUsed w request
    /\ sublist offered listed
    /\ forall account,
         In account offered <-> In account listed /\ unknownTo s account.
Proof.
  pose proof (handleOnboarding_cases w request origin s) as Hcases.
  cbn zeta in Hcases.
  destruct (snd (getEthereumAccounts w request)) as [listed | error].
  - assert (Hshown :
      In (RenderOnboarding shownRequest offered)
        (snd (handleOnboarding w request origin s)) ->
      RenderOnboarding shownRequest offered
      = RenderOnboarding (detailsUsed w request)
          (withoutExisting (map account (wallets s)) listed)).
    { destruct (renderOnboarding w _ _) as [[selected | ] | error].
      - destruct (createAccounts _ _ _ _) as [[added failed] s1].
        rewrite Hcases. cbn [snd]. unfold opening.
        destruct failed; cbn; intros Hin;
          repeat (destruct Hin as [Hin | Hin]; try discriminate Hin;
                  try (symmetry; exact Hin)); destruct Hin.
      - rewrite Hcases. cbn. intros Hin.
        repeat (destruct Hin as [Hin | Hin]; try discriminate Hin;
                try (symmetry; exact Hin)); destruct Hin.
      - rewrite Hcases. cbn. intros Hin.
        repeat (destruct Hin as [Hin | Hin]; try discriminate Hin;
                try (symmetry; exact Hin)); destruct Hin. }
    intros Hin. apply Hshown in Hin. injection Hin as -> ->.
    exists listed. split; [reflexivity | ]. split; [reflexivity | ].
    rewrite withoutExisting_filter. split; [apply filter_sublist | ].
    intros a. rewrite filter_In, negb_true_iff.
    split; intros [Hin Hnew]; (split; [exact Hin | ]).
    + intros wallet Hw Heq.
      assert (List.existsb
                (fun existing =>
                   String.eqb (OnboardingAccount.address a)
                     (Account.address existing))
                (map account (wallets s)) = true) as Habs.
      { apply existsb_exists. exists (account wallet).
        split; [now apply in_map | ]. rewrite Heq. apply String.eqb_refl. }
      rewrite Hnew in Habs. discriminate Habs.
    + destruct (List.existsb _ _) eqn:Hex; [ | reflexivity].
      apply existsb_exists in Hex as (existing & Hin' & Heq).
      apply in_map_iff in Hin' as (wallet & <- & Hw).
      apply String.eqb_eq in Heq. now destruct (Hnew wallet Hw).
  - rewrite Hcases. cbn. intros Hin.
    repeat (destruct Hin as [Hin | Hin]; try discriminate Hin).
    destruct Hin.
Qed.

(** X30. Every onboarding first activates the snap, wakes it and asks the
    custodian for its accounts, also when it fails afterwards. It fails
    only with the error of the custodian's listing or of the dialog, passed
    on as it is, and then the keyring is as before. *)
Theorem X30_onboarding_activates_before_it_can_fail w request origin s :
  let outcome := handleOnboarding w request origin s in
  (exists rest, snd outcome = (opening request ++ rest)%list)
  /\ forall error,
       fst (fst outcome) = Err error ->
       snd (fst outcome) = s
       /\ (snd (getEthereumAccounts w request) = Err error
           \/ exists offered,
                renderOnboarding w (detailsUsed w request) offered
                = Err error).
Proof.
  cbn zeta.
  pose proof (handleOnboarding_cases w request origin s) as Hcases.
  cbn zeta in Hcases.
  destruct (snd (getEthereumAccounts w request)) as [listed | error0].
  - destruct (renderOnboarding w _ _) as [[selected | ] | error0] eqn:Hdialog.
    + destruct (createAccounts _ _ _ _) as [[added failed] s1].
      rewrite Hcases. cbn [fst snd]. split; [ | discriminate].
      destruct failed; [eexists; reflexivity | ].
      rewrite <- app_assoc. eexists; reflexivity.
    + rewrite Hcases. cbn [fst snd]. split; [ | discriminate].
      eexists; reflexivity.
    + rewrite Hcases. cbn [fst snd]. split; [eexists; reflexivity | ].
      intros error [= <-]. split; [reflexivity | ]. right.
      eexists. exact Hdialog.
  - rewrite Hcases. cbn [fst snd]. split.
    + exists []. now rewrite app_nil_r.
    + intros error [= <-]. split; [reflexivity | now left].
Qed.

(** ** Concrete runs *)

(** A refresh answered with status 500 fails and leaves the client as it
    was, the request sent apart. *)
Lemma X1_witness :
  sameCredentials Sample.client
    (doFetch (ECA1Client.refreshRequest Sample.client) Sample.client)
  /\ fetched
       (doFetch (ECA1Client.refreshRequest Sample.client) Sample.client)
     = [ECA1Client.refreshRequest Sample.client].
Proof.
  destruct (X1_failed_refresh_keeps_credentials Gen1
              (Sample.answer 500%Z None None) 0%Z Sample.client
              (Thrown ("Error getting the Access Token: "
                       ++ "Request failed with status 500: undefined"))
              (doFetch (ECA1Client.refreshRequest Sample.client)
                 Sample.client) eq_refl)
    as (Hcredentials & _ & Hfetched & _).
  split; [exact Hcredentials | exact Hfetched].
Defined.

(** A token fetched at time 1000 with a lifetime of 3600 is served from
    the cache at time 2000, also by an endpoint that would answer 500. *)
Lemma X2_witness :
  getAccessTokenOf Gen3 (Sample.answer 500%Z None None) 2000%Z
    (snd (getAccessTokenOf Gen3 (Sample.answer 200%Z None None) 1000%Z
            Sample.client))
  = (Ok (Some "access-1"),
     snd (getAccessTokenOf Gen3 (Sample.answer 200%Z None None) 1000%Z
            Sample.client)).
Proof.
  apply (X2_token_reused_within_lifetime Gen3
           (Sample.answer 200%Z None None) (Sample.answer 500%Z None None)
           1000%Z 2000%Z Sample.client
           {| status := 200%Z; json := Ok (Sample.responseJson None None) |}
           (Sample.responseJson None None) 3600%Z
           eq_refl eq_refl eq_refl eq_refl eq_refl).
  - discriminate.
  - reflexivity.
Defined.

(** After the rotation to newToken at time 0, the request sent at time
    3600 carries newToken. *)
Lemma X3_witness :
  map grant_refresh_token
    (fetched
       (snd (getAccessTokenOf Gen1 (Sample.answer 200%Z None None) 3600%Z
               (snd (getAccessTokenOf Gen1
                       (Sample.answer 200%Z None (Some "newToken")) 0%Z
                       Sample.client)))))
  = ["oldToken"; "newToken"].
Proof.
  destruct (X3_next_refresh_carries_rotated_token Gen1
              (Sample.answer 200%Z None (Some "newToken"))
              (Sample.answer 200%Z None None) 0%Z 3600%Z Sample.client
              {| status := 200%Z;
                 json := Ok (Sample.responseJson None (Some "newToken")) |}
              (Sample.responseJson None (Some "newToken")) "newToken"
              eq_refl eq_refl eq_refl eq_refl eq_refl)
    as [Hfetched _].
  - discriminate.
  - discriminate.
  - intros ttl [= <-]. right. reflexivity.
  - rewrite Hfetched. reflexivity.
Defined.


(** Two methods of an ECA-3 client at times 1000 and 2000, the token
    living 3600: both calls carry the one access token, and the second is
    made although the refresh endpoint would now answer 500. *)
Lemma X7_witness :
  snd (invokeOf (fun _ : RpcCall string => Ok "done")
         (Sample.answer 500%Z None None) 2000%Z
         (OfECA3 (ECA3Capabilities.createTransaction "payload"))
         (snd (fst (invokeOf (fun _ : RpcCall string => Ok "done")
                      (Sample.answer 200%Z None None) 1000%Z
                      (OfECA3 ECA3Capabilities.listAccounts)
                      Sample.client))))
  = [ {| endpoint := "https://api.example.com/v3/json-rpc";
         rpcMethod := "custodian_createTransaction";
         rpcParams := Some "payload";
         accessToken := Some "access-1" |} ].
Proof.
  destruct (X7_capabilities_share_the_token
              (fun _ : RpcCall string => Ok "done")
              (Sample.answer 200%Z None None)
              (Sample.answer 500%Z None None) 1000%Z 2000%Z
              (OfECA3 ECA3Capabilities.listAccounts)
              (OfECA3 (ECA3Capabilities.createTransaction "payload"))
              Sample.client
              {| status := 200%Z;
                 json := Ok (Sample.responseJson None None) |}
              (Sample.responseJson None None) 3600%Z
              eq_refl eq_refl eq_refl eq_refl eq_refl eq_refl)
    as (_ & Hsecond & _).
  - discriminate.
  - reflexivity.
  - exact Hsecond.
Defined.

(** Outside the development mode the account of the scenarios bears the
    name of the allow-list entry, not the environment "test" of the
    request. *)
Lemma X9_witness :
  custodianEnvironment
    (CreateAccountOptions.details
       (Scenario.options Scenario.checksum1 "T" Scenario.mockUrl)) = "test"
  /\ exists c,
       environmentName (custodian (Account.options Cases.firstAccount))
       = CustodianMetadata.name c
       /\ CustodianMetadata.name c = "test-custodian".
Proof.
  split; [reflexivity | ].
  destruct (proj1 (X9_created_account_fields
                     (Scenario.env String.eqb "1" Scenario.accept true)
                     (Scenario.options Scenario.checksum1 "T"
                        Scenario.mockUrl)
                     emptyState Cases.firstAccount Scenario.oneAccount
                     eq_refl) eq_refl)
    as (c & Hc & Hname & _).
  exists c. split; [exact Hname | ].
  injection Hc as <-. reflexivity.
Defined.

(** A second account is listed after the first, and found by its id. *)
Lemma X10_witness :
  exists s',
    listAccounts s' = (Ok [Cases.firstAccount; Cases.secondAccount], s')
    /\ getAccount "2" s' = (Ok (Some Cases.secondAccount), s').
Proof.
  exists (snd (createAccount
                 (Scenario.env String.eqb "2" Scenario.accept true)
                 (Scenario.options Scenario.checksum2 "T" Scenario.mockUrl)
                 Scenario.oneAccount)).
  apply (X10_created_account_is_listed
           (Scenario.env String.eqb "2" Scenario.accept true)
           (Scenario.options Scenario.checksum2 "T" Scenario.mockUrl)
           Scenario.oneAccount Cases.secondAccount _ eq_refl).
  intros w [<- | []]. discriminate.
Defined.

(** The account of the scenarios is reported to the origin that imported
    it. *)
Lemma X11_witness :
  exists accounts,
    getConnectedAccounts
      (statusOf (Scenario.connection "T" Scenario.mockUrl)) "test-origin"
      Scenario.oneAccount = (Ok accounts, Scenario.oneAccount)
    /\ In Cases.firstAccount accounts.
Proof.
  destruct (X11_connected_for_the_importing_origin
              (Scenario.env String.eqb "1" Scenario.accept true)
              (Scenario.options Scenario.checksum1 "T" Scenario.mockUrl)
              emptyState Cases.firstAccount Scenario.oneAccount
              "test-origin" eq_refl) as (accounts & Hget & Hin).
  exists accounts. split; [exact Hget | ]. now apply Hin.
Defined.

(** After the rotation of the fan-out example the two accounts of the
    session (T, U) are connected under N and no account under T. *)
Lemma X12_witness :
  fst (getConnectedAccounts (Cases.question "T") "test-origin"
         (snd (handleTokenChangedEvent Scenario.rotation
                 Scenario.threeWallets))) = Ok []
  /\ fst (getConnectedAccounts (Cases.question "N") "test-origin"
            (snd (handleTokenChangedEvent Scenario.rotation
                    Scenario.threeWallets)))
     = Ok [ account (Scenario.wallet "1" "0x123" "T" "U");
            account (Scenario.wallet "2" "0x456" "T" "U") ].
Proof.
  apply (X12_connected_accounts_follow_rotation Scenario.rotation
           (Cases.question "") "test-origin" Scenario.threeWallets).
  - distinct_ids.
  - discriminate.
  - reflexivity.
Defined.

(** Of three chains offered the custodian supports two; an unknown
    account is refused. *)
Lemma X13_witness :
  filterAccountChains (Scenario.env String.eqb "" Scenario.accept true)
    Cases.supportedChains Cases.convert "9" ["0x1"] Scenario.oneAccount
  = (Err (AccountNotFound "9"), Scenario.oneAccount)
  /\ exists supported,
       Cases.supportedChains (newCustodianApi 0 Cases.request)
       = Ok supported
       /\ (In "0x89" ["0x1"; "0x89"]
           <-> In "0x89" ["0x1"; "0xa"; "0x89"]
               /\ exists c, Cases.convert "0x89" = Ok c /\ In c supported).
Proof.
  split.
  - apply (proj1 (X13_chains_supported_by_the_custodian
                    (Scenario.env String.eqb "" Scenario.accept true)
                    Cases.supportedChains Cases.convert "9" ["0x1"]
                    Scenario.oneAccount)).
    intros w [<- | []]. discriminate.
  - destruct (proj2 (X13_chains_supported_by_the_custodian
                       (Scenario.env String.eqb "" Scenario.accept true)
                       Cases.supportedChains Cases.convert "1"
                       ["0x1"; "0xa"; "0x89"] Scenario.oneAccount)
                ["0x1"; "0x89"] Cases.used)
      as (found & k & api & supported & _ & _ & _ & Hsupported & _ & _ & Hin).
    + vm_compute. reflexivity.
    + exists supported. split; [exact Hsupported | apply Hin].
Defined.

(** The API object of the account of the scenarios is still served after
    the account is deleted. *)
Lemma X15_witness :
  wallets
    (snd (deleteAccount (Scenario.env String.eqb "" Scenario.accept true)
            "1" Cases.used)) = []
  /\ fst (getCustodianApiForAddress
            (Scenario.env String.eqb "" Scenario.accept true)
            Scenario.lower1
            (snd (deleteAccount
                    (Scenario.env String.eqb "" Scenario.accept true) "1"
                    Cases.used)))
     = Ok (Scenario.sessionApi 0).
Proof.
  split; [reflexivity | ].
  rewrite (X15_client_outlives_its_account
             (Scenario.env String.eqb "" Scenario.accept true)
             (Scenario.env String.eqb "" Scenario.accept true) "1"
             Scenario.lower1 Scenario.checksum1 (Scenario.sessionApi 0)
             Cases.used).
  - reflexivity.
  - vm_compute. reflexivity.
  - vm_compute. reflexivity.
Defined.

(** The custodian refuses to sign: the call was made, no record is
    stored. *)
Lemma X16_witness :
  requests
    (snd (handleSigningRequest Cases.refusing "personal_sign"
            [JString "message"; JString Scenario.checksum1]
            (Scenario.personalSign "1" Scenario.checksum1) Cases.used))
  = []
  /\ length
       (custodianCalls
          (snd (handleSigningRequest Cases.refusing "personal_sign"
                  [JString "message"; JString Scenario.checksum1]
                  (Scenario.personalSign "1" Scenario.checksum1)
                  Cases.used))) = 1%nat.
Proof.
  destruct (X16_failed_signing_stores_nothing Cases.refusing
              "personal_sign"
              [JString "message"; JString Scenario.checksum1]
              (Scenario.personalSign "1" Scenario.checksum1) Cases.used
              (Thrown "Policy violation")
              (snd (handleSigningRequest Cases.refusing "personal_sign"
                      [JString "message"; JString Scenario.checksum1]
                      (Scenario.personalSign "1" Scenario.checksum1)
                      Cases.used)))
    as (Hrequests & _ & _).
  - vm_compute. reflexivity.
  - split; [exact Hrequests | vm_compute; reflexivity].
Defined.

(** A personal message signed by the custodian of the scenarios leaves
    one open record of type "message". *)
Lemma X17_witness :
  exists record,
    openRecordOf (Scenario.personalSign "1" Scenario.checksum1) record
    /\ SnapRequest.type record = "message"
    /\ upserted record Cases.used
         (snd (handleSigningRequest
                 (Scenario.env String.eqb "" Scenario.accept true)
                 "personal_sign"
                 [JString "message"; JString Scenario.checksum1]
                 (Scenario.personalSign "1" Scenario.checksum1)
                 Cases.used)).
Proof.
  destruct (X17_signing_records_the_request
              (Scenario.env String.eqb "" Scenario.accept true)
              "personal_sign"
              [JString "message"; JString Scenario.checksum1]
              (Scenario.personalSign "1" Scenario.checksum1) Cases.used
              "msg-1"
              (snd (handleSigningRequest
                      (Scenario.env String.eqb "" Scenario.accept true)
                      "personal_sign"
                      [JString "message"; JString Scenario.checksum1]
                      (Scenario.personalSign "1" Scenario.checksum1)
                      Cases.used)))
    as (holder & api & op & record & _ & _ & _ & Hopen & _ & Hup & _ & Htype).
  - vm_compute. reflexivity.
  - exists record. split; [exact Hopen | ]. split; [ | exact Hup].
    destruct Htype as [[Habs _] | (_ & Htype & _)];
      [discriminate Habs | exact Htype].
Defined.

(** The transaction of the scenarios is sent with the flag false that is
    stored with the wallet; with a custodian that refuses, the error is
    wrapped. *)
Lemma X18_witness :
  (exists m,
     Thrown "Failed to sign transaction: Policy violation"
     = Thrown ("Failed to sign transaction: " ++ m))
  /\ exists api payload,
       calledOnce Cases.used
         (snd (signTransaction
                 (Scenario.env String.eqb "" Scenario.accept true)
                 {| from := Scenario.checksum1; chainId := "0x1";
                    transactionData := "0x" |}
                 (Scenario.signTransactionRequest "1" Scenario.checksum1)
                 Cases.used))
         api (CreateTransaction payload "0x1" false).
Proof.
  split.
  - apply (proj1 (X18_transaction_carries_the_stored_flag Cases.refusing
                    {| from := Scenario.checksum1; chainId := "0x1";
                       transactionData := "0x" |}
                    (Scenario.signTransactionRequest "1" Scenario.checksum1)
                    Cases.used)
             (Thrown "Failed to sign transaction: Policy violation")
             (snd (signTransaction Cases.refusing
                     {| from := Scenario.checksum1; chainId := "0x1";
                        transactionData := "0x" |}
                     (Scenario.signTransactionRequest "1"
                        Scenario.checksum1)
                     Cases.used))).
    vm_compute. reflexivity.
  - destruct (proj2 (X18_transaction_carries_the_stored_flag
                       (Scenario.env String.eqb "" Scenario.accept true)
                       {| from := Scenario.checksum1; chainId := "0x1";
                          transactionData := "0x" |}
                       (Scenario.signTransactionRequest "1"
                          Scenario.checksum1)
                       Cases.used)
                "tx-1"
                (snd (signTransaction
                        (Scenario.env String.eqb "" Scenario.accept true)
                        {| from := Scenario.checksum1; chainId := "0x1";
                           transactionData := "0x" |}
                        (Scenario.signTransactionRequest "1"
                           Scenario.checksum1)
                        Cases.used)))
      as (api & k & payload & wallet & response & _ & _ & _ & Hwallet
          & Hcall & _).
    + vm_compute. reflexivity.
    + exists api, payload.
      assert (Hflag : deferPublication
                        (custodian (Account.options (account wallet)))
                      = false).
      { vm_compute in Hwallet. injection Hwallet as <-. reflexivity. }
      rewrite Hflag in Hcall. exact Hcall.
Defined.

(** An input that is no address is refused; the object registered for the
    account of the scenarios is returned for another spelling of its
    address. *)
Lemma X19_witness :
  getCustodianApiForAddress
    (Scenario.env String.eqb "" Scenario.accept true) "not an address"
    Cases.used
  = (Err (notHexStringError "not an address"), Cases.used)
  /\ getCustodianApiForAddress
       (Scenario.env String.eqb "" Scenario.accept true) Scenario.upper1
       Cases.used
     = (Ok (Scenario.sessionApi 0), Cases.used).
Proof.
  split.
  - apply (proj1 (X19_client_lookup_outcomes
                    (Scenario.env String.eqb "" Scenario.accept true)
                    "not an address" Cases.used)).
    reflexivity.
  - apply (proj1 (proj2 (X19_client_lookup_outcomes
                           (Scenario.env String.eqb "" Scenario.accept true)
                           Scenario.upper1 Cases.used)
                    Scenario.checksum1 ltac:(vm_compute; reflexivity))).
    vm_compute. reflexivity.
Defined.

(** The personal message of the scenarios, submitted outside the
    development mode for an account whose id is a UUID: the request
    passed the check on its shape and no keyring event was sent. *)
Lemma X20_witness :
  admitted (Scenario.env String.eqb "" Scenario.accept true)
    (Scenario.personalSign Scenario.accountId Scenario.checksum1)
  /\ keyringEvents
       (snd (submitRequest (Scenario.env String.eqb "" Scenario.accept true)
               (Scenario.personalSign Scenario.accountId Scenario.checksum1)
               Scenario.imported))
     = keyringEvents Scenario.imported.
Proof.
  destruct (X20_submission_steps
              (Scenario.env String.eqb "" Scenario.accept true)
              (Scenario.personalSign Scenario.accountId Scenario.checksum1)
              Scenario.imported Pending
              (snd (submitRequest
                      (Scenario.env String.eqb "" Scenario.accept true)
                      (Scenario.personalSign Scenario.accountId
                         Scenario.checksum1)
                      Scenario.imported)))
    as (_ & Hadmitted & _ & Hevents & _).
  - vm_compute. reflexivity.
  - split; [exact Hadmitted | exact Hevents].
Defined.


(** The account of the scenarios lists [personal_sign], which is
    dispatched. *)
Lemma X22_witness :
  Account.type Cases.firstAccount = "eip155:eoa"
  /\ (In "personal_sign" (Account.methods Cases.firstAccount)
      <-> dispatched "personal_sign" = true).
Proof.
  apply (X22_listed_methods_are_dispatched Scenario.oneAccount
           (Scenario.wallet "1" Scenario.checksum1 "T" Scenario.mockUrl)
           "personal_sign").
  - exists [CreateAccount (Scenario.env String.eqb "1" Scenario.accept true)
              (Scenario.options Scenario.checksum1 "T" Scenario.mockUrl)].
    reflexivity.
  - left. reflexivity.
Defined.

(** The rotation of the fan-out example, delivered again. *)
Lemma X23_witness :
  handleTokenChangedEvent Scenario.rotation
    (snd (handleTokenChangedEvent Scenario.rotation Scenario.threeWallets))
  = (Ok tt,
     snd (handleTokenChangedEvent Scenario.rotation Scenario.threeWallets)).
Proof.
  apply (X23_repeated_rotation_changes_nothing Scenario.rotation
           Scenario.threeWallets).
  - distinct_ids.
  - discriminate.
Defined.

(** The second account of the scenarios, created and deleted again. *)
Lemma X24_witness :
  wallets
    (snd (deleteAccount (Scenario.env String.eqb "" Scenario.accept true)
            "2"
            (snd (createAccount
                    (Scenario.env String.eqb "2" Scenario.accept true)
                    (Scenario.options Scenario.checksum2 "T"
                       Scenario.mockUrl)
                    Scenario.oneAccount))))
  = wallets Scenario.oneAccount.
Proof.
  apply (X24_delete_undoes_create
           (Scenario.env String.eqb "2" Scenario.accept true)
           (Scenario.env String.eqb "" Scenario.accept true)
           (Scenario.options Scenario.checksum2 "T" Scenario.mockUrl)
           Scenario.oneAccount Cases.secondAccount _ eq_refl).
  - intros w [<- | []]. discriminate.
  - reflexivity.
Defined.

(** The onboarding of the example: the custodian lists two accounts after
    a rotation to N, the user selects both, the receiver refuses the
    second. One account is returned and stored, with the token N, and the
    failure is shown. *)
Example onboarding_with_one_refusal :
  let outcome :=
    handleOnboarding Cases.onboarding Cases.request "test-origin"
      emptyState in
  fst (fst outcome)
  = Ok [accountToAdd (withToken "N" Cases.request) "test-origin"
          {| OnboardingAccount.address := Scenario.checksum1;
             OnboardingAccount.name := Some "Account 1" |}]
  /\ map (fun wallet => (walletAddress wallet, token (details wallet)))
       (wallets (snd (fst outcome)))
     = [(Scenario.checksum1, "N")]
  /\ snd outcome
     = [ SetActivated true; SetSleepState false;
         GetEthereumAccounts Cases.request;
         RenderOnboarding (withToken "N" Cases.request) Cases.listed;
         RenderErrorMessage
           ("Failed to add account " ++ Scenario.checksum2
            ++ ": User rejected the request.") ].
Proof. repeat split; vm_compute; reflexivity. Qed.

Lemma X27_witness :
  let outcome :=
    handleOnboarding Cases.onboarding Cases.request "test-origin"
      emptyState in
  Forall
    (fun options =>
       CreateAccountOptions.details options = withToken "N" Cases.request
       /\ CreateAccountOptions.origin options = "test-origin")
    [accountToAdd (withToken "N" Cases.request) "test-origin"
       {| OnboardingAccount.address := Scenario.checksum1;
          OnboardingAccount.name := Some "Account 1" |}]
  /\ exists new,
       wallets (snd (fst outcome)) = new
       /\ Forall2 walletOf
            [accountToAdd (withToken "N" Cases.request) "test-origin"
               {| OnboardingAccount.address := Scenario.checksum1;
                  OnboardingAccount.name := Some "Account 1" |}]
            new.
Proof.
  cbn zeta.
  destruct (X27_onboarding_stores_what_it_returns Cases.onboarding
              Cases.request "test-origin" emptyState
              [accountToAdd (withToken "N" Cases.request) "test-origin"
                 {| OnboardingAccount.address := Scenario.checksum1;
                    OnboardingAccount.name := Some "Account 1" |}]
              (snd (fst (handleOnboarding Cases.onboarding Cases.request
                           "test-origin" emptyState)))
              (snd (handleOnboarding Cases.onboarding Cases.request
                      "test-origin" emptyState)))
    as (Hall & (new & Hnew & Hwallets) & _).
  - vm_compute. reflexivity.
  - split; [exact Hall | ]. exists new. split; [exact Hnew | exact Hwallets].
Defined.

Lemma X28_witness :
  exists offered selected attempts,
    renderOnboarding Cases.onboarding
      (detailsUsed Cases.onboarding Cases.request) offered
    = Ok (Some selected)
    /\ map fst attempts
       = map (accountToAdd (detailsUsed Cases.onboarding Cases.request)
                "test-origin") selected
    /\ succeeded attempts
       = [accountToAdd (withToken "N" Cases.request) "test-origin"
            {| OnboardingAccount.address := Scenario.checksum1;
               OnboardingAccount.name := Some "Account 1" |}].
Proof.
  destruct (X28_failures_are_reported_not_thrown Cases.onboarding
              Cases.request "test-origin" emptyState
              [accountToAdd (withToken "N" Cases.request) "test-origin"
                 {| OnboardingAccount.address := Scenario.checksum1;
                    OnboardingAccount.name := Some "Account 1" |}]
              (snd (fst (handleOnboarding Cases.onboarding Cases.request
                           "test-origin" emptyState)))
              (snd (handleOnboarding Cases.onboarding Cases.request
                      "test-origin" emptyState)))
    as (offered & [(Hnull & _) | (selected & attempts & H)]).
  - vm_compute. reflexivity.
  - discriminate Hnull.
  - cbn zeta in H. destruct H as (Hdialog & _ & Hfst & Hadded & _).
    exists offered, selected, attempts.
    split; [exact Hdialog | ]. split; [exact Hfst | ].
    symmetry. exact Hadded.
Defined.

Lemma X29_witness :
  exists offered,
    sublist offered Cases.listed
    /\ forall account,
         In account offered
         <-> In account Cases.listed /\ unknownTo Scenario.oneAccount account.
Proof.
  destruct (X29_known_accounts_are_not_offered Cases.onboarding
              Cases.request "test-origin" Scenario.oneAccount
              (withToken "N" Cases.request)
              [{| OnboardingAccount.address := Scenario.checksum2;
                  OnboardingAccount.name := Some "Account 2" |}])
    as (listed & Hlisted & _ & Hsub & Hin).
  - vm_compute. right. right. right. left. reflexivity.
  - injection Hlisted as <-. eexists. split; [exact Hsub | exact Hin].
Defined.

(** The jobs of the example: an awake, unlocked and activated snap
    polls; a locked client puts it to sleep without a look at the state. *)
Example cron_awake :
  onCronjob Cases.awake "execute"
  = (Ok tt,
     [GetSleepState; GetClientStatus; SyncDevMode; GetActivated; Poll]).
Proof. reflexivity. Qed.

Example cron_locked :
  onCronjob
    {| asleep := false; locked := true; activated := true;
       polled := Ok tt |} "execute"
  = (Ok tt, [GetSleepState; GetClientStatus; SetSleepState true]).
Proof. reflexivity. Qed.
